(** * StrictBot dataset generator: the batch generation pipeline

    A shallow embedding of [generate_data.py] (the retry loop of
    [generate_batch], the accumulator loop with its rate-limit wait in
    binary64, the shortfall gate and the save step of [main]) together with
    the properties of the pipeline that the specification states about it;
    then the chat script
    [strictbot_chat.py] (the reply cut out of the model's output and the
    chat loop) and further properties of both. *)

From Stdlib Require Import ZArith QArith Qabs Ascii String List Lia.
From Stdlib Require Import Floats.PrimFloat Floats.SpecFloat.
From stdpp Require Import base option list gmap strings.

Set Warnings "-register-all".

Local Open Scope string_scope.
Local Open Scope list_scope.
Local Open Scope Z_scope.

(** ** Python values

    The values [json.loads] can produce, which are also the values the
    pipeline stores and writes.  A [dict] is an association list in insertion
    order with pairwise distinct keys (see [dict_set]). *)

Inductive pyval : Type :=
  | PNone
  | PBool (b : bool)
  | PInt (z : Z)
  | PFloat (f : float)
  | PStr (s : string)
  | PList (items : list pyval)
  | PDict (d : list (string * pyval)).

(** Exceptions raised inside the pipeline; every one of them is a subclass of
    Python's [Exception]. *)
Inductive exn : Type :=
  | TransportError        (* anything the API call itself raises *)
  | AttributeError        (* [None.strip()] on an empty completion *)
  | JSONDecodeError
  | KeyError
  | TypeError
  | IndexError
  | ValueError
  | ZeroDivisionError
  | OverflowError
  | EOFError.

Inductive res (A : Type) : Type :=
  | Ok (a : A)
  | Raise (e : exn).
Arguments Ok {A} a.
Arguments Raise {A} e.

Definition is_ok {A} (r : res A) : bool :=
  match r with Ok _ => true | Raise _ => false end.

(** ** Built-ins used by the script *)

(** [bool(v)] *)
Definition py_truthy (v : pyval) : bool :=
  match v with
  | PNone => false
  | PBool b => b
  | PInt z => negb (z =? 0)
  | PFloat f => negb (PrimFloat.eqb f 0%float)
  | PStr s => negb (String.eqb s "")
  | PList items => match items with [] => false | _ => true end
  | PDict d => match d with [] => false | _ => true end
  end.

(** [isinstance(v, list)] *)
Definition isinstance_list (v : pyval) : bool :=
  match v with PList _ => true | _ => false end.

(** [len(v)] for the sized values; only ever evaluated on a list here. *)
Definition py_len (v : pyval) : res Z :=
  match v with
  | PStr s => Ok (Z.of_nat (String.length s))
  | PList items => Ok (Z.of_nat (length items))
  | PDict d => Ok (Z.of_nat (length d))
  | _ => Raise TypeError
  end.

(** [range(n)] *)
Definition py_range (n : Z) : list Z := map Z.of_nat (seq 0 (Z.to_nat n)).

Fixpoint dict_get (d : list (string * pyval)) (k : string) : option pyval :=
  match d with
  | [] => None
  | (k', v) :: rest => if String.eqb k' k then Some v else dict_get rest k
  end.

(** [d[k] = v]: an existing key keeps its position, a new key goes last. *)
Fixpoint dict_set (d : list (string * pyval)) (k : string) (v : pyval)
  : list (string * pyval) :=
  match d with
  | [] => [(k, v)]
  | (k', v') :: rest =>
      if String.eqb k' k then (k', v) :: rest else (k', v') :: dict_set rest k v
  end.

(** [v[key]] for a string key: a lookup on a dict, [TypeError] on anything
    else (lists and strings take integer indices, the rest is not
    subscriptable). *)
Definition py_getitem (v : pyval) (key : string) : res pyval :=
  match v with
  | PDict d => match dict_get d key with
               | Some x => Ok x
               | None => Raise KeyError
               end
  | _ => Raise TypeError
  end.

(** *** Text

    Text is a sequence of characters with code points below 256. *)

Definition code (c : ascii) : N := N_of_ascii c.

(** [c.isspace()] *)
Definition is_space (c : ascii) : bool :=
  let n := code c in
  ((9 <=? n) && (n <=? 13) || (28 <=? n) && (n <=? 32) || (n =? 133) || (n =? 160))%N.

Fixpoint lstrip (s : string) : string :=
  match s with
  | EmptyString => EmptyString
  | String c r => if is_space c then lstrip r else s
  end.

Fixpoint rstrip (s : string) : string :=
  match s with
  | EmptyString => EmptyString
  | String c r =>
      match rstrip r with
      | EmptyString => if is_space c then EmptyString else String c EmptyString
      | r' => String c r'
      end
  end.

(** [s.strip()] *)
Definition py_strip (s : string) : string := rstrip (lstrip s).

Definition lower_char (c : ascii) : ascii :=
  let n := code c in
  if ((65 <=? n) && (n <=? 90) || (192 <=? n) && (n <=? 222) && negb (n =? 215))%N
  then ascii_of_N (n + 32) else c.

(** [s.lower()] *)
Fixpoint py_lower (s : string) : string :=
  match s with
  | EmptyString => EmptyString
  | String c r => String (lower_char c) (py_lower r)
  end.

(** [s.replace(old, new)] scans left to right and replaces the occurrences
    of [old] that do not overlap; [skip] counts the characters of a matched
    occurrence still to drop. *)
Fixpoint replace_from (old new : string) (skip : nat) (s : string) : string :=
  match s with
  | EmptyString => EmptyString
  | String c r =>
      match skip with
      | S k => replace_from old new k r
      | O =>
          if String.prefix old s
          then (new ++ replace_from old new (String.length old - 1)%nat r)%string
          else String c (replace_from old new 0 r)
      end
  end.

Fixpoint interleave (new s : string) : string :=
  match s with
  | EmptyString => new
  | String c r => (new ++ String c (interleave new r))%string
  end.

Definition py_replace (old new s : string) : string :=
  match old with
  | EmptyString => interleave new s
  | _ => replace_from old new 0 s
  end.

(** ** [json.loads]

    A total reader for the fragment of JSON without fractions, exponents,
    [NaN]/[Infinity] and [\u] escapes: a lexer that walks the text once, then
    a reader of the token list that keeps the open arrays and objects on a
    stack.  A text outside the fragment is reported as a decode error, so
    this reader stands for the library function only on texts inside the
    fragment; the pipeline below takes the reader as a parameter. *)

Inductive token : Type :=
  | TLBrack | TRBrack | TLBrace | TRBrace | TComma | TColon
  | TStr (s : string)
  | TInt (z : Z)
  | TNull | TTrue | TFalse.

Inductive lex_state : Type :=
  | LIdle
  | LStr (acc : list ascii)            (* inside a string, characters reversed *)
  | LEsc (acc : list ascii)            (* just after a backslash *)
  | LNum (neg : bool) (ds : list ascii)  (* digits reversed *)
  | LWord (acc : list ascii).          (* a literal name, reversed *)

Definition is_json_ws (c : ascii) : bool :=
  let n := code c in ((n =? 32) || (n =? 9) || (n =? 10) || (n =? 13))%N.

Definition is_quote (c : ascii) : bool := (code c =? 34)%N.

Definition is_digit (c : ascii) : bool :=
  let n := code c in ((48 <=? n) && (n <=? 57))%N.

Definition is_lower (c : ascii) : bool :=
  let n := code c in ((97 <=? n) && (n <=? 122))%N.

Definition string_of_rev (acc : list ascii) : string :=
  fold_left (fun s c => String c s) acc EmptyString.

Definition digit_val (c : ascii) : Z := Z.of_N (code c) - 48.

(** The integer a run of digits denotes: a lone [0], or digits that do not
    start with [0]. *)
Definition int_token (neg : bool) (ds : list ascii) : option token :=
  match reverse ds with
  | [] => None
  | d :: more =>
      if (code d =? 48)%N && negb (match more with [] => true | _ => false end)
      then None
      else let n := fold_left (fun a c => 10 * a + digit_val c) (d :: more) 0 in
           Some (TInt (if neg then - n else n))
  end.

Definition word_token (acc : list ascii) : option token :=
  let w := string_of_rev acc in
  if String.eqb w "null" then Some TNull
  else if String.eqb w "true" then Some TTrue
  else if String.eqb w "false" then Some TFalse
  else None.

Definition unescape (c : ascii) : option ascii :=
  match c with
  | "\"%char => Some c
  | "/"%char => Some c
  | "b"%char => Some (ascii_of_N 8)
  | "f"%char => Some (ascii_of_N 12)
  | "n"%char => Some (ascii_of_N 10)
  | "r"%char => Some (ascii_of_N 13)
  | "t"%char => Some (ascii_of_N 9)
  | _ => if is_quote c then Some c else None
  end.

(** A character met between tokens. *)
Definition idle_step (c : ascii) (out : list token)
  : option (lex_state * list token) :=
  if is_json_ws c then Some (LIdle, out)
  else if is_digit c then Some (LNum false [c], out)
  else if is_lower c then Some (LWord [c], out)
  else if is_quote c then Some (LStr [], out)
  else match c with
       | "["%char => Some (LIdle, TLBrack :: out)
       | "]"%char => Some (LIdle, TRBrack :: out)
       | "{"%char => Some (LIdle, TLBrace :: out)
       | "}"%char => Some (LIdle, TRBrace :: out)
       | ","%char => Some (LIdle, TComma :: out)
       | ":"%char => Some (LIdle, TColon :: out)
       | "-"%char => Some (LNum true [], out)
       | _ => None
       end.

(** Close the token being read, if any. *)
Definition flush (st : lex_state) (out : list token) : option (list token) :=
  match st with
  | LIdle => Some out
  | LNum neg ds => t ← int_token neg ds; Some (t :: out)
  | LWord acc => t ← word_token acc; Some (t :: out)
  | LStr _ | LEsc _ => None
  end.

Fixpoint lex (st : lex_state) (out : list token) (s : string)
  : option (list token) :=
  match s with
  | EmptyString => reverse <$> flush st out
  | String c r =>
      match st with
      | LStr acc =>
          if is_quote c then lex LIdle (TStr (string_of_rev acc) :: out) r
          else if Ascii.eqb c "\" then lex (LEsc acc) out r
          else if (code c <? 32)%N then None
          else lex (LStr (c :: acc)) out r
      | LEsc acc =>
          match unescape c with
          | Some c' => lex (LStr (c' :: acc)) out r
          | None => None
          end
      | LNum neg ds =>
          if is_digit c then lex (LNum neg (c :: ds)) out r
          else match flush st out with
               | Some out' =>
                   match idle_step c out' with
                   | Some (st', out'') => lex st' out'' r
                   | None => None
                   end
               | None => None
               end
      | LWord acc =>
          if is_lower c then lex (LWord (c :: acc)) out r
          else match flush st out with
               | Some out' =>
                   match idle_step c out' with
                   | Some (st', out'') => lex st' out'' r
                   | None => None
                   end
               | None => None
               end
      | LIdle =>
          match idle_step c out with
          | Some (st', out') => lex st' out' r
          | None => None
          end
      end
  end.

(** The arrays and objects still open, innermost first. *)
Inductive frame : Type :=
  | FList (done : list pyval)                            (* items reversed *)
  | FDict (d : list (string * pyval))                    (* between members *)
  | FDictVal (d : list (string * pyval)) (key : string). (* reading a value *)

Inductive read_state : Type :=
  | RValue                (* a value must follow *)
  | RValueOrClose         (* just after an opening bracket *)
  | RKeyOrClose           (* just after an opening brace *)
  | RKey                  (* after a comma inside an object *)
  | RColon (key : string)
  | RAfter (v : pyval).   (* a value is complete *)

Definition scalar (t : token) : option pyval :=
  match t with
  | TStr s => Some (PStr s)
  | TInt z => Some (PInt z)
  | TNull => Some PNone
  | TTrue => Some (PBool true)
  | TFalse => Some (PBool false)
  | _ => None
  end.

Fixpoint read (st : read_state) (stack : list frame) (ts : list token)
  : option pyval :=
  match ts with
  | [] => match st, stack with
          | RAfter v, [] => Some v
          | _, _ => None
          end
  | t :: rest =>
      match st with
      | RValue | RValueOrClose =>
          match t with
          | TLBrack => read RValueOrClose (FList [] :: stack) rest
          | TLBrace => read RKeyOrClose (FDict [] :: stack) rest
          | TRBrack =>
              match st, stack with
              | RValueOrClose, FList [] :: stack' =>
                  read (RAfter (PList [])) stack' rest
              | _, _ => None
              end
          | _ => match scalar t with
                 | Some v => read (RAfter v) stack rest
                 | None => None
                 end
          end
      | RKeyOrClose | RKey =>
          match t with
          | TStr k => read (RColon k) stack rest
          | TRBrace =>
              match st, stack with
              | RKeyOrClose, FDict d :: stack' =>
                  read (RAfter (PDict d)) stack' rest
              | _, _ => None
              end
          | _ => None
          end
      | RColon k =>
          match t, stack with
          | TColon, FDict d :: stack' => read RValue (FDictVal d k :: stack') rest
          | _, _ => None
          end
      | RAfter v =>
          match t, stack with
          | TComma, FList done :: stack' =>
              read RValue (FList (v :: done) :: stack') rest
          | TRBrack, FList done :: stack' =>
              read (RAfter (PList (reverse (v :: done)))) stack' rest
          | TComma, FDictVal d k :: stack' =>
              read RKey (FDict (dict_set d k v) :: stack') rest
          | TRBrace, FDictVal d k :: stack' =>
              read (RAfter (PDict (dict_set d k v))) stack' rest
          | _, _ => None
          end
      end
  end.

Definition json_loads (s : string) : res pyval :=
  match lex LIdle [] s with
  | Some ts => match read RValue [] ts with
               | Some v => Ok v
               | None => Raise JSONDecodeError
               end
  | None => Raise JSONDecodeError
  end.

(** [list.extend(v)] takes the elements [v] yields when iterated. *)
Definition py_iter (v : pyval) : res (list pyval) :=
  match v with
  | PList items => Ok items
  | PDict d => Ok (map (fun kv => PStr (fst kv)) d)
  | PStr s => Ok (map (fun c => PStr (String c EmptyString)) (list_ascii_of_string s))
  | _ => Raise TypeError
  end.

(** [a // b] on integers; Python's floor division is [Z.div]. *)
Definition floordiv (a b : Z) : res Z :=
  if b =? 0 then Raise ZeroDivisionError else Ok (a / b).

(** *** Floats

    A Python [float] is a binary64 number of IEEE 754: 53 bits of precision
    and exponents below 1024.  The operations are those of the reference
    model of the Standard Library, [SpecFloat]. *)

(** The float nearest to an integer, ties going to the even mantissa; it is
    infinite when the integer is beyond the largest float.  A literal such
    as [60.0] denotes [binary64 60]. *)
Definition binary64 (n : Z) : spec_float := binary_normalize 53 1024 n 0 false.

(** The least positive integer that has no float: it rounds to [2^1024]. *)
Definition float_limit : Z := 2 ^ 1024 - 2 ^ 970.

(** The conversion of an integer operand to a float, which raises
    [OverflowError] (int too large to convert to float) when the rounding
    leaves the range. *)
Definition float_of_int (n : Z) : res spec_float :=
  match binary64 n with
  | S754_infinity _ => Raise OverflowError
  | f => Ok f
  end.

(** [a / b] for a float [a] and an integer [b]: [b] is converted to a float
    first, a zero divisor is refused, and the result is the binary64
    quotient, that is the exact quotient rounded to the nearest float. *)
Definition truediv (a : spec_float) (b : Z) : res spec_float :=
  match float_of_int b with
  | Raise e => Raise e
  | Ok (S754_zero _) => Raise ZeroDivisionError
  | Ok fb => Ok (SFdiv 53 1024 a fb)
  end.

(** The exact value of a finite float, as a fraction in lowest terms. *)
Definition float_value (f : spec_float) : Q :=
  match f with
  | S754_finite s m e =>
      let v := match e with
               | Zneg k => Qmake (Zpos m) (2 ^ k)
               | _ => inject_Z (Zpos m * 2 ^ e)
               end in
      Qred (if s then Qopp v else v)
  | _ => 0%Q
  end.

(** The numbers the script hands to [time.sleep]: an [int] or a [float]. *)
Inductive number : Type :=
  | NumInt (z : Z)
  | NumFloat (f : spec_float).

Coercion NumInt : Z >-> number.
Coercion NumFloat : spec_float >-> number.

(** The length of the wait a number asks for, in seconds.  A float that is
    not a number is refused with [ValueError], an infinite one with
    [OverflowError]. *)
Definition seconds (x : number) : res Q :=
  match x with
  | NumInt z => Ok (inject_Z z)
  | NumFloat S754_nan => Raise ValueError
  | NumFloat (S754_infinity _) => Raise OverflowError
  | NumFloat f => Ok (float_value f)
  end.

(** ** Configuration (module-level constants of the script) *)

Record Config : Type := {
  NUM_RECORDS_TO_GENERATE : Z;
  BATCH_SIZE : Z;
  RPM_LIMIT : Z;
  MIN_RECORDS : Z            (* a local constant of [main] *)
}.

Definition default_config : Config :=
  {| NUM_RECORDS_TO_GENERATE := 3000; BATCH_SIZE := 10; RPM_LIMIT := 5;
     MIN_RECORDS := 3000 |}.

Definition OUTPUT_RM_FILE : string := "reward_model_dataset.json".
Definition OUTPUT_SFT_FILE : string := "sft_dataset.json".

Definition categories : list string :=
  ["Good Question"; "Factual Error"; "Poor Logic"; "Trivial / Low-IQ"].

(** ** The world the script runs in *)

(** What [MASTER_PROMPT_TEMPLATE.format] depends on. *)
Record Prompt : Type := { batch_size : Z; focus_category : string }.

Inductive Event : Type :=
  | EvProgress (focus : string) (records successful failed : Z)
  | EvRequest (p : Prompt)
  | EvSleep (seconds : Q)
  | EvInput
  | EvWrite (path : string).

Record World : Type := {
  api_calls : nat;              (* requests sent so far *)
  rng_calls : nat;              (* random draws so far *)
  trace : list Event;           (* what has happened, oldest first *)
  files : gmap string pyval     (* the documents on disk, by path *)
}.

Definition log (e : Event) (w : World) : World :=
  {| api_calls := api_calls w; rng_calls := rng_calls w;
     trace := trace w ++ [e]; files := files w |}.

(** Computations that read and change the world and may raise. *)
Definition M (A : Type) : Type := World -> res A * World.

Definition ret {A} (a : A) : M A := fun w => (Ok a, w).

Definition raise {A} (e : exn) : M A := fun w => (Raise e, w).

Definition lift {A} (r : res A) : M A := fun w => (r, w).

Definition bind {A B} (m : M A) (k : A -> M B) : M B :=
  fun w => match m w with
           | (Ok a, w') => k a w'
           | (Raise e, w') => (Raise e, w')
           end.

(** [try: body / except Exception: handler] *)
Definition try_except {A} (body : M A) (handler : exn -> M A) : M A :=
  fun w => match body w with
           | (Ok a, w') => (Ok a, w')
           | (Raise e, w') => handler e w'
           end.

Notation "x <- m ;; k" := (bind m (fun x => k))
  (at level 100, m at next level, right associativity).
Notation "m ;; k" := (bind m (fun _ => k))
  (at level 100, right associativity).

Definition when (b : bool) (m : M unit) : M unit := if b then m else ret tt.

Fixpoint for_each {A St} (body : St -> A -> M St) (xs : list A) (s : St) : M St :=
  match xs with
  | [] => ret s
  | x :: rest => s' <- body s x ;; for_each body rest s'
  end.

(** [time.sleep] refuses a negative length.  (It also refuses a length
    beyond what the clock can count, some 292 years; the script sleeps for
    5 and for at most 60.) *)
Definition time_sleep (secs : number) : M unit :=
  fun w => match seconds secs with
           | Raise e => (Raise e, w)
           | Ok t => if Qle_bool 0 t then (Ok tt, log (EvSleep t) w)
                     else (Raise ValueError, w)
           end.

(** [with open(path, "w") as f: json.dump(content, f, indent=2)] *)
Definition write_file (path : string) (content : pyval) : M unit :=
  fun w => (Ok tt,
            {| api_calls := api_calls w; rng_calls := rng_calls w;
               trace := trace w ++ [EvWrite path];
               files := <[path := content]> (files w) |}).

Definition set_postfix (focus : string) (records successful failed : Z) : M unit :=
  fun w => (Ok tt, log (EvProgress focus records successful failed) w).

(** The state of the accumulator loop of [main]. *)
Record Acc : Type := {
  all_records : list pyval;
  successful_batches : Z;
  failed_batches : Z
}.

(** [{"prompt": item["prompt"], "response": item["chosen"]}] *)
Definition sft_item (item : pyval) : res pyval :=
  match py_getitem item "prompt" with
  | Raise e => Raise e
  | Ok p => match py_getitem item "chosen" with
            | Raise e => Raise e
            | Ok c => Ok (PDict [("prompt", p); ("response", c)])
            end
  end.

(** The comprehension that builds [sft_dataset]: it stops at the first item
    that raises. *)
Fixpoint sft_view (records : list pyval) : res (list pyval) :=
  match records with
  | [] => Ok []
  | item :: rest =>
      match sft_item item with
      | Raise e => Raise e
      | Ok x => match sft_view rest with
                | Raise e => Raise e
                | Ok xs => Ok (x :: xs)
                end
      end
  end.

(** [batch and isinstance(batch, list) and len(batch) > 0] *)
Definition batch_accepted (batch : pyval) : res bool :=
  if py_truthy batch then
    if isinstance_list batch then
      match py_len batch with
      | Ok n => Ok (0 <? n)
      | Raise e => Raise e
      end
    else Ok false
  else Ok false.

(** The [if]/[else] of the accumulator loop: a non-empty list is appended
    and counted as a success, anything else is counted as a failure. *)
Definition merge (acc : Acc) (batch : pyval) : res Acc :=
  match batch_accepted batch with
  | Raise e => Raise e
  | Ok true =>
      match py_iter batch with
      | Raise e => Raise e
      | Ok items =>
          Ok {| all_records := all_records acc ++ items;
                successful_batches := successful_batches acc + 1;
                failed_batches := failed_batches acc |}
      end
  | Ok false =>
      Ok {| all_records := all_records acc;
            successful_batches := successful_batches acc;
            failed_batches := failed_batches acc + 1 |}
  end.

(** The default of the [max_retries] parameter of [generate_batch]. *)
Definition default_max_retries : Z := 3.

Section Pipeline.

(** The collaborators: the chat endpoint, answering the [n]-th request of
    the run with a completion text, with no text, or by raising; the JSON
    reader; the random generator; and the line typed at the prompt. *)
Variable create : nat -> Prompt -> res (option string).
Variable loads : string -> res pyval.
Variable rng : nat -> nat.
Variable stdin : res string.

Definition chat_completion (p : Prompt) : M (option string) :=
  fun w => (create (api_calls w) p,
            {| api_calls := S (api_calls w); rng_calls := rng_calls w;
               trace := trace w ++ [EvRequest p]; files := files w |}).

(** [random.choice(options)] *)
Definition random_choice (options : list string) : M string :=
  fun w => match options with
           | [] => (Raise IndexError, w)
           | _ => (Ok (nth (rng (rng_calls w) mod length options)%nat options ""),
                   {| api_calls := api_calls w; rng_calls := S (rng_calls w);
                      trace := trace w; files := files w |})
           end.

Definition input : M string :=
  fun w => (stdin, log EvInput w).

(** The cleaning applied to a completion before it is read as JSON. *)
Definition clean (content : string) : string :=
  let generated_content := py_strip content in
  py_strip (py_replace "```" "" (py_replace "```json" "" generated_content)).

(** The body of the [try] block: one request, cleaned and read. *)
Definition request (p : Prompt) : M pyval :=
  content <- chat_completion p ;;
  match content with
  | None => raise AttributeError
  | Some text => lift (loads (clean text))
  end.

(** The [for attempt in range(max_retries)] loop: [Some v] out of the
    [try] is the [return] of the function. *)
Fixpoint retry (p : Prompt) (max_retries : Z) (attempts : list Z) : M pyval :=
  match attempts with
  | [] => ret PNone
  | attempt :: rest =>
      r <- try_except (v <- request p ;; ret (Some v))
             (fun _ => when (attempt <? max_retries - 1) (time_sleep 5) ;;
                       ret None) ;;
      match r with
      | Some v => ret v
      | None => retry p max_retries rest
      end
  end.

Definition generate_batch (cfg : Config) (focus_category : string)
    (max_retries : Z) : M pyval :=
  let prompt := {| batch_size := BATCH_SIZE cfg;
                   focus_category := focus_category |} in
  retry prompt max_retries (py_range max_retries).

(** One pass through the body of the accumulator loop. *)
Definition iteration (cfg : Config) (delay_between_requests : spec_float)
    (acc : Acc) (i : Z) : M Acc :=
  focus <- random_choice categories ;;
  set_postfix focus (Z.of_nat (length (all_records acc)))
    (successful_batches acc) (failed_batches acc) ;;
  batch <- generate_batch cfg focus default_max_retries ;;
  acc' <- lift (merge acc batch) ;;
  time_sleep delay_between_requests ;;
  ret acc'.

Definition empty_acc : Acc :=
  {| all_records := []; successful_batches := 0; failed_batches := 0 |}.

(** [main] up to the batch summary. *)
Definition accumulate (cfg : Config) : M Acc :=
  total_iterations <- lift (floordiv (NUM_RECORDS_TO_GENERATE cfg) (BATCH_SIZE cfg)) ;;
  delay_between_requests <- lift (truediv (binary64 60) (RPM_LIMIT cfg)) ;;
  for_each (iteration cfg delay_between_requests) (py_range total_iterations)
    empty_acc.

(** The shortfall gate: [true] when the run goes on to save. *)
Definition confirm (cfg : Config) (records : list pyval) : M bool :=
  if Z.of_nat (length records) <? MIN_RECORDS cfg then
    response <- input ;;
    ret (String.eqb (py_strip (py_lower response)) "y")
  else ret true.

(** The save step at the end of [main]. *)
Definition save (records : list pyval) : M unit :=
  write_file OUTPUT_RM_FILE (PList records) ;;
  sft_dataset <- lift (sft_view records) ;;
  write_file OUTPUT_SFT_FILE (PList sft_dataset).

Definition main (cfg : Config) : M unit :=
  acc <- accumulate cfg ;;
  proceed <- confirm cfg (all_records acc) ;;
  if proceed : bool then save (all_records acc) else ret tt.

End Pipeline.

(** ** Notions used to state the properties *)

Definition initial_world : World :=
  {| api_calls := 0; rng_calls := 0; trace := []; files := ∅ |}.

(** The world after [n] more requests that left the events [tr]. *)
Definition after_requests (w : World) (n : nat) (tr : list Event) : World :=
  {| api_calls := api_calls w + n; rng_calls := rng_calls w;
     trace := trace w ++ tr; files := files w |}.

(** A failed attempt followed by the wait before the next one. *)
Definition retry_round (p : Prompt) : list Event := [EvRequest p; EvSleep 5].

(** What failed attempt number [attempt] leaves in the trace. *)
Definition failed_attempt (p : Prompt) (max_retries : Z) (attempt : nat)
  : list Event :=
  EvRequest p :: (if Z.of_nat attempt <? max_retries - 1 then [EvSleep 5] else []).

Definition failed_attempts (p : Prompt) (max_retries : Z) (first n : nat)
  : list Event :=
  concat (map (failed_attempt p max_retries) (seq first n)).

Definition is_progress (e : Event) : bool :=
  match e with EvProgress _ _ _ _ => true | _ => false end.

(** The number of passes through the accumulator loop a trace records. *)
Definition progress_count (tr : list Event) : nat :=
  length (List.filter is_progress tr).

Section Outcomes.

Variable create : nat -> Prompt -> res (option string).
Variable loads : string -> res pyval.

(** What the [try] block makes of the [n]-th request of the run. *)
Definition attempt_result (p : Prompt) (n : nat) : res pyval :=
  match create n p with
  | Raise e => Raise e
  | Ok None => Raise AttributeError
  | Ok (Some text) => loads (clean text)
  end.

Definition attempt_fails (p : Prompt) (n : nat) : Prop :=
  is_ok (attempt_result p n) = false.

End Outcomes.

(** A Record of the specification: an object with the four fields. *)
Definition has_field (d : list (string * pyval)) (k : string) : bool :=
  match dict_get d k with Some _ => true | None => false end.

Definition is_record (v : pyval) : bool :=
  match v with
  | PDict d => has_field d "category" && has_field d "prompt"
               && has_field d "chosen" && has_field d "rejected"
  | _ => false
  end.

Definition nonempty_text (d : list (string * pyval)) (k : string) : bool :=
  match dict_get d k with
  | Some (PStr s) => negb (String.eqb s "")
  | _ => false
  end.

(** A Record whose four fields are non-empty texts. *)
Definition valid_record (v : pyval) : bool :=
  match v with
  | PDict d => nonempty_text d "category" && nonempty_text d "prompt"
               && nonempty_text d "chosen" && nonempty_text d "rejected"
  | _ => false
  end.

(** A Batch as the specification wants the client to return it. *)
Definition valid_batch (v : pyval) : bool :=
  match v with
  | PList items => forallb valid_record items
  | _ => false
  end.

(** The line typed at the shortfall gate does not confirm. *)
Definition declined (stdin : res string) : Prop :=
  match stdin with
  | Ok line => py_strip (py_lower line) <> "y"
  | Raise _ => True
  end.

(** Completion texts are written below with an apostrophe where the text
    has a double quote; [q] puts the double quotes in. *)
Fixpoint q (s : string) : string :=
  match s with
  | EmptyString => EmptyString
  | String c r => String (if (code c =? 39)%N then ascii_of_N 34 else c) (q r)
  end.

(** A Record as the endpoint is asked to write it, and an array of [n] of
    them. *)
Definition sample_record : string :=
  q "{'category': 'Poor Logic', 'prompt': 'p', 'chosen': 'c', 'rejected': 'r'}".

Definition sample_batch (n : nat) : string :=
  ("[" ++ String.concat ", " (repeat sample_record n) ++ "]")%string.

(** Client stubs: one that fails its first [k] requests and then always
    answers [text], and one that always fails. *)
Definition flaky_client (k : nat) (text : string)
  : nat -> Prompt -> res (option string) :=
  fun n _ => if (n <? k)%nat then Raise TransportError else Ok (Some text).

Definition dead_client : nat -> Prompt -> res (option string) :=
  fun _ _ => Raise TransportError.

(** A client stub that answers its requests with the given completion
    texts, in order, and fails once they are used up. *)
Definition scripted_client (texts : list string)
  : nat -> Prompt -> res (option string) :=
  fun n _ => match nth_error texts n with
             | Some text => Ok (Some text)
             | None => Raise TransportError
             end.

(** The reading of the specification under which the Retry Controller
    returns the first successful Batch that is not null: attempts that
    raise and attempts that yield [None] are passed over alike, and the
    value of the first attempt that does neither is what comes back. *)
Definition first_non_null_batch_is_returned : Prop :=
  forall create loads cfg focus max_retries w k v,
    Z.of_nat k < max_retries ->
    (forall j, (j < k)%nat ->
       attempt_fails create loads
         {| batch_size := BATCH_SIZE cfg; focus_category := focus |}
         (api_calls w + j)
       \/ attempt_result create loads
            {| batch_size := BATCH_SIZE cfg; focus_category := focus |}
            (api_calls w + j) = Ok PNone) ->
    attempt_result create loads
      {| batch_size := BATCH_SIZE cfg; focus_category := focus |}
      (api_calls w + k) = Ok v ->
    v <> PNone ->
    (generate_batch create loads cfg focus max_retries w).1 = Ok v.

(** The reading of the specification under which the client validates what
    it returns: every value [generate_batch] returns as a success is an
    array of Records with four non-empty fields. *)
Definition batches_are_validated : Prop :=
  forall create cfg focus max_retries w v w',
    generate_batch create json_loads cfg focus max_retries w = (Ok v, w') ->
    v <> PNone ->
    valid_batch v = true.

(** The events of the retry loop for the prompt [p]. *)
Definition retry_event (p : Prompt) (e : Event) : Prop :=
  e = EvRequest p \/ e = EvSleep 5.

(** The events of one pass through the accumulator loop: the progress
    report, the retry loop, and the rate-limit wait that ends the pass. *)
Definition pass_events (cfg : Config) (delay : Q) (events : list Event) : Prop :=
  exists focus records successful failed body,
    events = EvProgress focus records successful failed :: body ++ [EvSleep delay]
    /\ Forall (retry_event {| batch_size := BATCH_SIZE cfg;
                              focus_category := focus |}) body.

(** The binary64 quotient of [60.0] by the float of the request limit: what
    line 119 computes when the limit has a float and is not zero. *)
Definition rate_limit_delay (cfg : Config) : spec_float :=
  SFdiv 53 1024 (binary64 60) (binary64 (RPM_LIMIT cfg)).

(** A float [time.sleep] takes as a length: a finite one that is not
    negative. *)
Definition sleep_accepts (d : spec_float) : Prop :=
  seconds d = Ok (float_value d) /\ Qle_bool 0 (float_value d) = true.

(** The world after a draw from the random generator. *)
Definition drawn (w : World) : World :=
  {| api_calls := api_calls w; rng_calls := S (rng_calls w);
     trace := trace w; files := files w |}.

(** A computation that leaves the documents on disk as they are, whether
    it returns or raises. *)
Definition keeps_files {A} (m : M A) : Prop :=
  forall w, files (m w).2 = files w.

(** The accumulator loop cut after its first [k] passes. *)
Definition loop_prefix (create : nat -> Prompt -> res (option string))
    (loads : string -> res pyval) (rng : nat -> nat) (cfg : Config) (k : nat)
  : M Acc :=
  delay_between_requests <- lift (truediv (binary64 60) (RPM_LIMIT cfg)) ;;
  for_each (iteration create loads rng cfg delay_between_requests)
    (py_range (Z.of_nat k)) empty_acc.

(** The reading of the specification under which every list the Retry
    Controller returns, the empty one included, is merged and counted as a
    successful batch. *)
Definition every_returned_batch_is_a_success : Prop :=
  forall create loads rng cfg acc i w focus items w2 delay acc' w',
    generate_batch create loads cfg focus default_max_retries
      (log (EvProgress focus (Z.of_nat (length (all_records acc)))
              (successful_batches acc) (failed_batches acc)) (drawn w))
    = (Ok (PList items), w2) ->
    random_choice rng categories w = (Ok focus, drawn w) ->
    truediv (binary64 60) (RPM_LIMIT cfg) = Ok delay ->
    iteration create loads rng cfg delay acc i w = (Ok acc', w') ->
    all_records acc' = all_records acc ++ items
    /\ successful_batches acc' = successful_batches acc + 1
    /\ failed_batches acc' = failed_batches acc.

(** What holds of the accumulator and the world [k] passes after the loop
    was at [acc0] in [w0]: nothing was written, one counter moved per pass,
    nothing shrank, and every pass left its events ending with the wait. *)
Definition loop_inv (cfg : Config) (delay : Q) (w0 : World) (acc0 : Acc)
    (k : nat) (acc : Acc) (w : World) : Prop :=
  files w = files w0
  /\ successful_batches acc + failed_batches acc
     = successful_batches acc0 + failed_batches acc0 + Z.of_nat k
  /\ successful_batches acc0 <= successful_batches acc
  /\ failed_batches acc0 <= failed_batches acc
  /\ (length (all_records acc0) <= length (all_records acc))%nat
  /\ exists passes,
       trace w = trace w0 ++ concat passes
       /\ length passes = k
       /\ Forall (pass_events cfg delay) passes.

(** [sub in s] *)
Fixpoint py_contains (sub s : string) : bool :=
  String.prefix sub s
  || match s with
     | EmptyString => false
     | String _ r => py_contains sub r
     end.

(** The character [c] occurs in [s]. *)
Fixpoint has_char (c : ascii) (s : string) : bool :=
  match s with
  | EmptyString => false
  | String c' r => Ascii.eqb c c' || has_char c r
  end.

(** [s] is made of whitespace only ([s.isspace()] or [s] is empty). *)
Fixpoint all_space (s : string) : bool :=
  match s with
  | EmptyString => true
  | String c r => is_space c && all_space r
  end.

(** [s] without its first [n] characters. *)
Fixpoint drop_chars (n : nat) (s : string) : string :=
  match n, s with
  | S k, String _ r => drop_chars k r
  | _, _ => s
  end.

(** The text before and the text after the first occurrence of [sep]. *)
Fixpoint cut (sep s : string) : option (string * string) :=
  if String.prefix sep s
  then Some (EmptyString, drop_chars (String.length sep) s)
  else match s with
       | EmptyString => None
       | String c r =>
           match cut sep r with
           | Some (before, after) => Some (String c before, after)
           | None => None
           end
       end.

(** The pieces between the occurrences of [sep], cutting at most [fuel]
    times. *)
Fixpoint split_at (fuel : nat) (sep s : string) : list string :=
  match fuel with
  | O => [s]
  | S fuel' =>
      match cut sep s with
      | None => [s]
      | Some (before, after) => before :: split_at fuel' sep after
      end
  end.

(** [s.split(sep)]: an empty separator is refused; a non-empty one occurs
    at most [len(s)] times. *)
Definition py_split (sep s : string) : res (list string) :=
  match sep with
  | EmptyString => Raise ValueError
  | _ => Ok (split_at (String.length s) sep s)
  end.

(** [parts[i]] *)
Definition py_item (parts : list string) (i : nat) : res string :=
  match nth_error parts i with
  | Some x => Ok x
  | None => Raise IndexError
  end.

(** The text before the first occurrence of [sep], all of [s] when there
    is none. *)
Definition first_piece (sep s : string) : string :=
  match cut sep s with
  | Some (before, _) => before
  | None => s
  end.

(** The text after the first occurrence of [sep]. *)
Definition after_first (sep s : string) : string :=
  match cut sep s with
  | Some (_, after) => after
  | None => EmptyString
  end.

(** ** The chat script ([strictbot_chat.py]) *)

Module StrictbotChat.

(** What a call can raise in the chat loop: the interrupt from the
    keyboard, which is no [Exception], or an exception. *)
Inductive raised : Type :=
  | KeyboardInterrupt
  | Exception (e : exn).

Inductive outcome (A : Type) : Type :=
  | Returns (a : A)
  | Raises (r : raised).
Arguments Returns {A} a.
Arguments Raises {A} r.

Definition newline : string := String (ascii_of_N 10) EmptyString.

(** The prompt in the format of the training data. *)
Definition prompt_of (user_input : string) : string :=
  ("<|user|> " ++ user_input ++ " <|end|>" ++ newline ++ "<|assistant|>")%string.

Definition fallback : string :=
  "Hmm, something went wrong generating that response.".

(** The end of [generate_response]: the assistant's part of the decoded
    output. *)
Definition assistant_reply (response : string) : res string :=
  if py_contains "<|assistant|>" response then
    match py_split "<|assistant|>" response with
    | Raise e => Raise e
    | Ok parts =>
    match py_item parts 1 with
    | Raise e => Raise e
    | Ok assistant_part =>
    match py_split "<|end|>" assistant_part with
    | Raise e => Raise e
    | Ok parts =>
    match py_item parts 0 with
    | Raise e => Raise e
    | Ok assistant_part =>
    match py_split "<|endoftext|>" assistant_part with
    | Raise e => Raise e
    | Ok parts =>
    match py_item parts 0 with
    | Raise e => Raise e
    | Ok assistant_part => Ok (py_strip assistant_part)
    end end end end end end
  else Ok fallback.

(** What the chat has read, asked of the model and printed. *)
Inductive Output : Type :=
  | Banner
  | Loaded
  | Bye
  | BotPrefix
  | Reply (text : string)
  | ErrorReport (e : exn).

Record Session : Type := {
  inputs_read : nat;           (* calls of [input] so far *)
  prompts : list string;       (* the prompts given to the model, oldest first *)
  printed : list Output        (* oldest first *)
}.

Inductive status : Type := Continue | Break.

(** How a run of [main] stands: still in the loop after the turns
    looked at, ended by the loop's [break], ended by [exit(code)], or
    ended by an interrupt nothing caught. *)
Inductive ending : Type :=
  | Running
  | Ended
  | Exit (code : Z)
  | Interrupted.

Definition print (o : Output) (s : Session) : Session :=
  {| inputs_read := inputs_read s; prompts := prompts s;
     printed := printed s ++ [o] |}.

(** [user_input.lower() in \['quit', 'exit', 'q'\]] *)
Definition is_quit (user_input : string) : bool :=
  existsb (String.eqb (py_lower user_input)) ["quit"; "exit"; "q"].

Section Chat.

(** The collaborators: the line the [n]-th call of [input] returns (or what
    it raises); the text decoded from what the model generates on its
    [n]-th call for a prompt (tokenizer, sampling and decoding); and the
    loading of the model inside the [try] of [load_model]. *)
Variable stdin : nat -> outcome string.
Variable complete : nat -> string -> outcome string.
Variable load : outcome unit.

Definition generate_response (n : nat) (user_input : string) : outcome string :=
  let prompt := prompt_of user_input in
  match complete n prompt with
  | Raises r => Raises r
  | Returns response =>
      match assistant_reply response with
      | Ok reply => Returns reply
      | Raise e => Raises (Exception e)
      end
  end.

(** One pass through the body of the [while True] loop. *)
Definition turn (s : Session) : Session * status :=
  let s1 := {| inputs_read := S (inputs_read s); prompts := prompts s;
               printed := printed s |} in
  match stdin (inputs_read s) with
  | Raises KeyboardInterrupt => (print Bye s1, Break)
  | Raises (Exception e) => (print (ErrorReport e) s1, Continue)
  | Returns line =>
      let user_input := py_strip line in
      if is_quit user_input then (print Bye s1, Break)
      else if String.eqb user_input EmptyString then (s1, Continue)
      else
        let s2 := {| inputs_read := inputs_read s1;
                     prompts := prompts s1 ++ [prompt_of user_input];
                     printed := printed s1 ++ [BotPrefix] |} in
        match generate_response (length (prompts s)) user_input with
        | Returns response => (print (Reply response) s2, Continue)
        | Raises KeyboardInterrupt => (print Bye s2, Break)
        | Raises (Exception e) => (print (ErrorReport e) s2, Continue)
        end
  end.

(** The loop, followed for at most [turns] passes. *)
Fixpoint chat_loop (turns : nat) (s : Session) : Session * status :=
  match turns with
  | O => (s, Continue)
  | S turns' =>
      match turn s with
      | (s', Break) => (s', Break)
      | (s', Continue) => chat_loop turns' s'
      end
  end.

Definition main (turns : nat) : Session * ending :=
  let s0 := {| inputs_read := 0; prompts := []; printed := [Banner] |} in
  match load with
  | Raises (Exception e) => (print (ErrorReport e) s0, Exit 1)
  | Raises KeyboardInterrupt => (s0, Interrupted)
  | Returns _ =>
      match chat_loop turns (print Loaded s0) with
      | (s, Break) => (s, Ended)
      | (s, Continue) => (s, Running)
      end
  end.

End Chat.

End StrictbotChat.

(** The [k]-th call of [input] ends the chat: it is interrupted from the
    keyboard, or it returns one of the quit words, in any case and with
    any whitespace around. *)
Definition quits_at (stdin : nat -> StrictbotChat.outcome string) (k : nat)
  : Prop :=
  stdin k = StrictbotChat.Raises StrictbotChat.KeyboardInterrupt
  \/ exists line, stdin k = StrictbotChat.Returns line
                  /\ StrictbotChat.is_quit (py_strip line) = true.

(** The prompt [p] was made from a line read between the sessions [s] and
    [s'], stripped, that is neither blank nor a quit word. *)
Definition asked_between (stdin : nat -> StrictbotChat.outcome string)
    (s s' : StrictbotChat.Session) (p : string) : Prop :=
  exists k line,
    (StrictbotChat.inputs_read s <= k < StrictbotChat.inputs_read s')%nat
    /\ stdin k = StrictbotChat.Returns line
    /\ p = StrictbotChat.prompt_of (py_strip line)
    /\ py_strip line <> EmptyString
    /\ StrictbotChat.is_quit (py_strip line) = false.

(** Stubs for the chat: a keyboard that types the given lines and is then
    at its end, and a model whose decoded output is the prompt followed by
    a fixed text. *)
Definition typed (lines : list string) : nat -> StrictbotChat.outcome string :=
  fun n => match nth_error lines n with
           | Some line => StrictbotChat.Returns line
           | None => StrictbotChat.Raises (StrictbotChat.Exception EOFError)
           end.

Definition echo_model (completion : string)
  : nat -> string -> StrictbotChat.outcome string :=
  fun _ prompt => StrictbotChat.Returns (prompt ++ completion)%string.

Definition chat_start : StrictbotChat.Session :=
  {| StrictbotChat.inputs_read := 0; StrictbotChat.prompts := [];
     StrictbotChat.printed := [] |}.

(** What holds of the Corpus and of the request count [k] passes after the
    loop was at [acc0] in [w0]: the Corpus grew by the non-empty batches of
    the successful passes, in order, and each pass sent one to three
    requests. *)
(** The category a pass that starts in the world [w] draws, and the world
    in which that pass, starting from the accumulator [acc], calls the
    Retry Controller: after the draw and the progress report. *)
Definition pass_focus (rng : nat -> nat) (w : World) : string :=
  nth (rng (rng_calls w) mod length categories)%nat categories "".

Definition pass_request (rng : nat -> nat) (acc : Acc) (w : World) : World :=
  log (EvProgress (pass_focus rng w) (Z.of_nat (length (all_records acc)))
         (successful_batches acc) (failed_batches acc)) (drawn w).

(** A value the loop takes as a batch: a list that is not empty. *)
Definition is_accepted (batch : pyval) : bool :=
  match batch with PList (_ :: _) => true | _ => false end.

(** The items of the lists among the values [returned], in order. *)
Fixpoint accepted_records (returned : list pyval) : list pyval :=
  match returned with
  | [] => []
  | PList items :: rest => items ++ accepted_records rest
  | _ :: rest => accepted_records rest
  end.

Definition corpus_inv (w0 : World) (acc0 : Acc) (k : nat) (acc : Acc)
    (w : World) : Prop :=
  (exists batches : list (list pyval),
      all_records acc = all_records acc0 ++ concat batches
      /\ Z.of_nat (length batches)
         = successful_batches acc - successful_batches acc0
      /\ Forall (fun b => b <> []) batches)
  /\ (api_calls w0 + k <= api_calls w <= api_calls w0 + 3 * k)%nat.

(** ** The retry loop *)

Ltac by_evaluation :=
  first [ solve [lia]
        | solve [vm_compute; first [reflexivity | discriminate]]
        | split; by_evaluation ].

Ltac run_monad :=
  unfold bind, try_except, ret, raise, lift, when, set_postfix, write_file,
    time_sleep, input; simpl.

Lemma attempt_result_ok create loads p n v :
  attempt_result create loads p n = Ok v ->
  exists text, create n p = Ok (Some text) /\ loads (clean text) = Ok v.
Proof.
  unfold attempt_result.
  destruct (create n p) as [[text|]|e]; try discriminate. eauto.
Qed.

Section RetryFacts.

Variable create : nat -> Prompt -> res (option string).
Variable loads : string -> res pyval.

Local Abbreviation attempt_result := (attempt_result create loads).
Local Abbreviation attempt_fails := (attempt_fails create loads).
Local Abbreviation request := (request create loads).
Local Abbreviation retry := (retry create loads).
Local Abbreviation generate_batch := (generate_batch create loads).

Lemma request_run p w :
  request p w = (attempt_result p (api_calls w), after_requests w 1 [EvRequest p]).
Proof.
  unfold request, attempt_result, chat_completion, after_requests.
  run_monad. rewrite Nat.add_1_r.
  destruct (create (api_calls w) p) as [[text|]|e]; reflexivity.
Qed.

Lemma after_requests_compose w n1 tr1 n2 tr2 :
  after_requests (after_requests w n1 tr1) n2 tr2
  = after_requests w (n1 + n2) (tr1 ++ tr2).
Proof.
  unfold after_requests; simpl. f_equal; [lia | by rewrite app_assoc].
Qed.

Lemma log_after_requests e w n tr :
  log e (after_requests w n tr) = after_requests w n (tr ++ [e]).
Proof. unfold log, after_requests; simpl. by rewrite app_assoc. Qed.

Lemma failed_attempts_S p mr a n :
  failed_attempts p mr a (S n)
  = failed_attempt p mr a ++ failed_attempts p mr (S a) n.
Proof. reflexivity. Qed.

Lemma sleep_5_run w : time_sleep 5 w = (Ok tt, log (EvSleep 5) w).
Proof. reflexivity. Qed.

(** A failed attempt: the request, the wait unless it was the last
    allowed attempt, then the rest of the loop. *)
Lemma retry_step_fail p mr a rest w :
  attempt_fails p (api_calls w) ->
  retry p mr (Z.of_nat a :: rest) w
  = retry p mr rest (after_requests w 1 (failed_attempt p mr a)).
Proof.
  unfold attempt_fails. intros Hfail. simpl.
  unfold bind at 1. unfold try_except. unfold bind at 1.
  rewrite request_run.
  destruct (attempt_result p (api_calls w)) as [v|e]; [discriminate|].
  unfold failed_attempt, when.
  destruct (Z.of_nat a <? mr - 1).
  - unfold bind at 1. rewrite sleep_5_run, log_after_requests. reflexivity.
  - reflexivity.
Qed.

Lemma retry_step_success p mr a rest w v :
  attempt_result p (api_calls w) = Ok v ->
  retry p mr (a :: rest) w = (Ok v, after_requests w 1 [EvRequest p]).
Proof.
  intros Hok. simpl.
  unfold bind at 1. unfold try_except. unfold bind at 1.
  rewrite request_run, Hok. reflexivity.
Qed.

Lemma retry_all_fail p mr n : forall a w,
  (forall j, (j < n)%nat -> attempt_fails p (api_calls w + j)) ->
  retry p mr (map Z.of_nat (seq a n)) w
  = (Ok PNone, after_requests w n (failed_attempts p mr a n)).
Proof.
  induction n as [|n IH]; intros a w Hall.
  - simpl. unfold ret, after_requests, failed_attempts. simpl.
    rewrite Nat.add_0_r, app_nil_r. by destruct w.
  - change (map Z.of_nat (seq a (S n)))
      with (Z.of_nat a :: map Z.of_nat (seq (S a) n)).
    rewrite retry_step_fail.
    2:{ specialize (Hall 0%nat). rewrite Nat.add_0_r in Hall. apply Hall. lia. }
    rewrite IH.
    + by rewrite after_requests_compose, failed_attempts_S.
    + intros j Hj. simpl. replace (api_calls w + 1 + j)%nat with (api_calls w + S j)%nat by lia.
      apply Hall. lia.
Qed.

Lemma retry_first_success p mr n : forall k a w v,
  (k < n)%nat ->
  (forall j, (j < k)%nat -> attempt_fails p (api_calls w + j)) ->
  attempt_result p (api_calls w + k) = Ok v ->
  retry p mr (map Z.of_nat (seq a n)) w
  = (Ok v, after_requests w (S k) (failed_attempts p mr a k ++ [EvRequest p])).
Proof.
  induction n as [|n IH]; intros k a w v Hk Hfail Hok; [lia|].
  destruct k as [|k].
  - rewrite Nat.add_0_r in Hok.
    change (map Z.of_nat (seq a (S n)))
      with (Z.of_nat a :: map Z.of_nat (seq (S a) n)).
    erewrite retry_step_success by eassumption. reflexivity.
  - change (map Z.of_nat (seq a (S n)))
      with (Z.of_nat a :: map Z.of_nat (seq (S a) n)).
    rewrite retry_step_fail.
    2:{ specialize (Hfail 0%nat). rewrite Nat.add_0_r in Hfail. apply Hfail. lia. }
    rewrite (IH k (S a) _ v).
    + by rewrite after_requests_compose, failed_attempts_S, app_assoc.
    + lia.
    + intros j Hj. simpl. replace (api_calls w + 1 + j)%nat with (api_calls w + S j)%nat by lia.
      apply Hfail. lia.
    + simpl. replace (api_calls w + 1 + k)%nat with (api_calls w + S k)%nat by lia.
      exact Hok.
Qed.

Lemma failed_attempts_waiting p mr k : forall a,
  Z.of_nat (a + k) < mr ->
  failed_attempts p mr a k = concat (repeat (retry_round p) k).
Proof.
  induction k as [|k IH]; intros a Hlt; [reflexivity|].
  rewrite failed_attempts_S, IH by lia.
  unfold failed_attempt.
  destruct (Z.ltb_spec (Z.of_nat a) (mr - 1)) as [_|Hge]; [reflexivity | lia].
Qed.

Lemma failed_attempts_app p mr a n m :
  failed_attempts p mr a (n + m)
  = failed_attempts p mr a n ++ failed_attempts p mr (a + n) m.
Proof.
  unfold failed_attempts. by rewrite seq_app, map_app, concat_app.
Qed.

(** When every allowed attempt fails, each but the last is followed by
    the wait. *)
Lemma failed_attempts_exhausted p mr :
  1 <= mr ->
  failed_attempts p mr 0 (Z.to_nat mr)
  = concat (repeat (retry_round p) (Z.to_nat mr - 1)) ++ [EvRequest p].
Proof.
  intros Hmr.
  replace (Z.to_nat mr) with ((Z.to_nat mr - 1) + 1)%nat at 1 by lia.
  rewrite failed_attempts_app, failed_attempts_waiting by lia.
  f_equal. unfold failed_attempts, failed_attempt. simpl.
  destruct (Z.ltb_spec (Z.of_nat (Z.to_nat mr - 1)) (mr - 1)) as [Hlt|_];
    [lia | reflexivity].
Qed.

(** Among the next [n] requests either all fail or there is a first one
    that succeeds. *)
Lemma first_success_or_none p c n :
  (forall j, (j < n)%nat -> attempt_fails p (c + j))
  \/ (exists k v, (k < n)%nat
                  /\ (forall j, (j < k)%nat -> attempt_fails p (c + j))
                  /\ attempt_result p (c + k) = Ok v).
Proof.
  induction n as [|n [Hall|(k & v & Hk & Hfail & Hok)]].
  - left. intros j Hj. lia.
  - destruct (attempt_result p (c + n)) as [v|e] eqn:Hn.
    + right. exists n, v. auto.
    + left. intros j Hj. destruct (decide (j = n)) as [->|Hne].
      * unfold attempt_fails. by rewrite Hn.
      * apply Hall. lia.
  - right. exists k, v. split; [lia | auto].
Qed.

Lemma merge_total acc batch : exists acc', merge acc batch = Ok acc'.
Proof.
  unfold merge, batch_accepted.
  destruct batch as [ |b|z|f|t|items|d]; simpl;
    repeat match goal with
           | |- context [if ?c then _ else _] => destruct c
           | |- context [match ?l with [] => _ | _ :: _ => _ end] => destruct l
           end; simpl; eauto.
Qed.

(** C5. Retry Controller: when the first [k < max_retries] attempts fail and
    the next one succeeds, [generate_batch] returns that Batch after exactly
    [k + 1] requests, each failure followed by the fixed wait of 5; when
    every attempt fails it returns [None] after exactly [max_retries]
    requests, with no wait after the last one.  The default of
    [max_retries] is 3. *)
Theorem retry_controller_call_counts cfg focus (max_retries : Z) (k : nat) w :
  let p := {| batch_size := BATCH_SIZE cfg; focus_category := focus |} in
  (forall v,
      Z.of_nat k < max_retries ->
      (forall j, (j < k)%nat -> attempt_fails p (api_calls w + j)) ->
      attempt_result p (api_calls w + k) = Ok v ->
      generate_batch cfg focus max_retries w
      = (Ok v, after_requests w (k + 1)
                 (concat (repeat (retry_round p) k) ++ [EvRequest p])))
  /\ (1 <= max_retries ->
      (forall j, (j < Z.to_nat max_retries)%nat ->
                 attempt_fails p (api_calls w + j)) ->
      generate_batch cfg focus max_retries w
      = (Ok PNone, after_requests w (Z.to_nat max_retries)
                     (concat (repeat (retry_round p) (Z.to_nat max_retries - 1))
                      ++ [EvRequest p])))
  /\ default_max_retries = 3.
Proof.
  intros p. split; [|split; [|reflexivity]].
  - intros v Hk Hfail Hok. unfold generate_batch, py_range. fold p.
    rewrite (retry_first_success p max_retries _ k 0%nat w v); try assumption; [|lia].
    rewrite failed_attempts_waiting by lia.
    by rewrite Nat.add_1_r.
  - intros Hmr Hall. unfold generate_batch, py_range. fold p.
    rewrite retry_all_fail by assumption.
    by rewrite failed_attempts_exhausted.
Qed.

(** C8, as the code has it. The Retry Controller never raises: whatever
    the requests do, [generate_batch] returns normally.  What it returns is
    the value of the first attempt that raised nothing, whatever that value
    is ([None] from a completion that reads [null] included), and no
    request is sent after that attempt; or [None] after [max_retries]
    requests when every attempt raised.  The accumulator's handling of the
    returned value does not raise either. *)
Theorem retry_controller_never_raises cfg focus (max_retries : Z) w :
  let p := {| batch_size := BATCH_SIZE cfg; focus_category := focus |} in
  exists v n tr,
    generate_batch cfg focus max_retries w = (Ok v, after_requests w n tr)
    /\ ((exists k, Z.of_nat k < max_retries
                   /\ (forall j, (j < k)%nat -> attempt_fails p (api_calls w + j))
                   /\ attempt_result p (api_calls w + k) = Ok v
                   /\ n = S k)
        \/ ((forall j, (j < Z.to_nat max_retries)%nat ->
                       attempt_fails p (api_calls w + j))
            /\ v = PNone
            /\ n = Z.to_nat max_retries))
    /\ (forall acc, exists acc', merge acc v = Ok acc').
Proof.
  intros p. unfold generate_batch, py_range. fold p.
  destruct (first_success_or_none p (api_calls w) (Z.to_nat max_retries))
    as [Hall|(k & v & Hk & Hfail & Hok)].
  - eexists PNone, _, _. split; [by apply retry_all_fail|].
    split; [by right | intros acc; apply merge_total].
  - exists v. eexists _, _.
    split; [by apply (retry_first_success p max_retries _ k)|].
    split; [|intros acc; apply merge_total].
    left. exists k. split; [lia | auto].
Qed.

(** C1, as the code has it. What [generate_batch] returns as a success is
    the value the JSON reader produced from the cleaned text of the first
    attempt that raised nothing, whatever that value is: a response that
    does not parse is never returned, and no check of the shape of the
    parsed value is made. *)
Theorem generate_batch_returns_first_parse cfg focus (max_retries : Z) w :
  let p := {| batch_size := BATCH_SIZE cfg; focus_category := focus |} in
  (forall k v,
      Z.of_nat k < max_retries ->
      (forall j, (j < k)%nat -> attempt_fails p (api_calls w + j)) ->
      attempt_result p (api_calls w + k) = Ok v ->
      (generate_batch cfg focus max_retries w).1 = Ok v)
  /\ (forall v,
        (generate_batch cfg focus max_retries w).1 = Ok v ->
        v <> PNone ->
        exists k text,
          Z.of_nat k < max_retries
          /\ (forall j, (j < k)%nat -> attempt_fails p (api_calls w + j))
          /\ create (api_calls w + k)%nat p = Ok (Some text)
          /\ loads (clean text) = Ok v).
Proof.
  intros p. split.
  - intros k v Hk Hfail Hok. unfold generate_batch, py_range. fold p.
    rewrite (retry_first_success p max_retries _ k 0%nat w v); try assumption; [done|lia].
  - intros v Hret Hv. revert Hret. unfold generate_batch, py_range. fold p.
    destruct (first_success_or_none p (api_calls w) (Z.to_nat max_retries))
      as [Hall|(k & v' & Hk & Hfail & Hok)].
    + rewrite retry_all_fail by assumption. simpl. congruence.
    + rewrite (retry_first_success p max_retries _ k 0%nat w v') by assumption.
      simpl. intros [= <-].
      destruct (attempt_result_ok _ _ _ _ _ Hok) as (text & Hc & Hl).
      exists k, text. split; [lia | auto].
Qed.

End RetryFacts.

(** ** The accumulator loop *)

Lemma for_each_app {A St} (body : St -> A -> M St) xs ys : forall s w,
  for_each body (xs ++ ys) s w
  = (s' <- for_each body xs s ;; for_each body ys s') w.
Proof.
  induction xs as [|x xs IH]; intros s w.
  - reflexivity.
  - simpl. unfold bind.
    destruct (body s x w) as [[s'|e] w']; [|reflexivity].
    rewrite IH. reflexivity.
Qed.

(** A loop whose body always returns and carries an invariant from one
    pass to the next returns, with the invariant at the number of passes
    made. *)
Lemma for_each_invariant {A St} (body : St -> A -> M St)
    (Inv : nat -> St -> World -> Prop) :
  (forall k x s w, Inv k s w ->
     exists s' w', body s x w = (Ok s', w') /\ Inv (S k) s' w') ->
  forall xs k s w, Inv k s w ->
    exists s' w', for_each body xs s w = (Ok s', w')
                  /\ Inv (k + length xs)%nat s' w'.
Proof.
  intros Hstep xs. induction xs as [|x xs IH]; intros k s w Hinv.
  - exists s, w. simpl. rewrite Nat.add_0_r. auto.
  - destruct (Hstep k x s w Hinv) as (s1 & w1 & Hbody & Hinv1).
    destruct (IH (S k) s1 w1 Hinv1) as (s2 & w2 & Hrest & Hinv2).
    exists s2, w2. simpl. unfold bind. rewrite Hbody.
    split; [exact Hrest|].
    by replace (k + S (length xs))%nat with (S k + length xs)%nat by lia.
Qed.

Lemma py_range_length n : length (py_range n) = Z.to_nat n.
Proof. unfold py_range. by rewrite length_map, length_seq. Qed.

Lemma py_range_split (j k : nat) :
  (j <= k)%nat ->
  py_range (Z.of_nat k)
  = py_range (Z.of_nat j) ++ map Z.of_nat (seq j (k - j)).
Proof.
  intros Hjk. unfold py_range. rewrite !Nat2Z.id.
  replace k with (j + (k - j))%nat at 1 by lia.
  by rewrite seq_app, map_app.
Qed.

Lemma merge_cases acc batch :
  (exists x items,
      batch = PList (x :: items)
      /\ merge acc batch
         = Ok {| all_records := all_records acc ++ x :: items;
                 successful_batches := successful_batches acc + 1;
                 failed_batches := failed_batches acc |})
  \/ ((forall x items, batch <> PList (x :: items))
      /\ merge acc batch
         = Ok {| all_records := all_records acc;
                 successful_batches := successful_batches acc;
                 failed_batches := failed_batches acc + 1 |}).
Proof.
  unfold merge, batch_accepted.
  destruct batch as [ |b|z|f|t|items|d]; simpl;
    try (right; split; [discriminate|];
         repeat match goal with
                | |- context [if ?c then _ else _] => destruct c
                | |- context [match ?l with [] => _ | _ :: _ => _ end] => destruct l
                end; reflexivity).
  destruct items as [|x items]; simpl.
  - right. split; [discriminate | reflexivity].
  - left. exists x, items. split; [reflexivity|].
    destruct (Z.ltb_spec 0 (Z.of_nat (S (length items)))) as [_|Hle];
      [reflexivity | lia].
Qed.

(** ** Floats *)

Lemma iter_pos_nat {A} (f : A -> A) p : forall x,
  SpecFloat.iter_pos f p x = Nat.iter (Pos.to_nat p) f x.
Proof.
  induction p as [p IH|p IH|]; intros x; cbn [SpecFloat.iter_pos].
  - rewrite !IH, Pos2Nat.inj_xI, <- Nat.iter_add, <- Nat.iter_succ_r.
    f_equal. lia.
  - rewrite !IH, Pos2Nat.inj_xO, <- Nat.iter_add. f_equal. lia.
  - reflexivity.
Qed.

Lemma shr_1_m mrs : 0 <= shr_m mrs -> shr_m (shr_1 mrs) = Z.div2 (shr_m mrs).
Proof.
  destruct mrs as [m r s]. simpl. intros Hm.
  destruct m as [|[p|p|]|p]; try reflexivity; lia.
Qed.

Lemma shr_iter_m n : forall mrs,
  0 <= shr_m mrs ->
  shr_m (Nat.iter n shr_1 mrs) = Z.shiftr (shr_m mrs) (Z.of_nat n).
Proof.
  induction n as [|n IH]; intros mrs Hm.
  - reflexivity.
  - rewrite Nat.iter_succ, shr_1_m.
    + rewrite IH by assumption. rewrite Z.div2_spec, Z.shiftr_shiftr by lia.
      f_equal. lia.
    + rewrite IH by assumption. by apply Z.shiftr_nonneg.
Qed.

Lemma digits2_log2 p : Zpos (digits2_pos p) = Z.log2 (Zpos p) + 1.
Proof.
  assert (Hsize : digits2_pos p = Pos.size p)
    by (induction p as [p IH|p IH|]; simpl; congruence).
  rewrite Hsize. destruct p; simpl; lia.
Qed.

Lemma Zdigits2_pos a : 0 < a -> Zdigits2 a = Z.log2 a + 1.
Proof. destruct a as [|p|p]; try lia. intros _. apply digits2_log2. Qed.

Lemma Zdigits2_nonneg a : 0 <= Zdigits2 a.
Proof. destruct a; simpl; lia. Qed.

Lemma Zdigits2_le a b : 0 <= a <= b -> Zdigits2 a <= Zdigits2 b.
Proof.
  intros [Ha Hab]. destruct (Z.eq_dec a 0) as [->|Hnz].
  - apply Zdigits2_nonneg.
  - rewrite !Zdigits2_pos by lia. pose proof (Z.log2_le_mono a b Hab). lia.
Qed.

Lemma Zdigits2_succ a : 0 <= a -> Zdigits2 (a + 1) <= Zdigits2 a + 1.
Proof.
  intros Ha. destruct (Z.eq_dec a 0) as [->|Hnz]; [simpl; lia|].
  rewrite !Zdigits2_pos by lia.
  destruct (Z.log2_succ_or a) as [H|H]; rewrite <- Z.add_1_r in H; lia.
Qed.

Lemma Zdigits2_shiftr a n :
  0 <= a -> 0 <= n -> Zdigits2 (Z.shiftr a n) <= Z.max 0 (Zdigits2 a - n).
Proof.
  intros Ha Hn. destruct (Z.eq_dec a 0) as [->|Hnz].
  - rewrite Z.shiftr_0_l. simpl. lia.
  - destruct (Z.eq_dec (Z.shiftr a n) 0) as [->|Hs]; [simpl; lia|].
    pose proof (Z.shiftr_nonneg a n).
    rewrite !Zdigits2_pos by lia. rewrite Z.log2_shiftr by lia.
    assert (n <= Z.log2 a); [|lia].
    destruct (Z.le_gt_cases n (Z.log2 a)) as [|Hgt]; [assumption|].
    exfalso. apply Hs. apply Z.shiftr_eq_0; lia.
Qed.

Lemma Zdigits2_shiftr_pos a n :
  0 < a -> 0 <= n <= Z.log2 a ->
  0 < Z.shiftr a n /\ Zdigits2 (Z.shiftr a n) = Zdigits2 a - n.
Proof.
  intros Ha Hn.
  assert (Hpos : 0 < Z.shiftr a n).
  { pose proof (Z.shiftr_nonneg a n).
    destruct (Z.eq_dec (Z.shiftr a n) 0) as [Hz|]; [|lia].
    apply Z.shiftr_eq_0_iff in Hz. lia. }
  split; [assumption|].
  rewrite !Zdigits2_pos by lia. rewrite Z.log2_shiftr by lia. lia.
Qed.

Lemma Zdigits2_shiftl a n :
  0 < a -> 0 <= n -> Zdigits2 (Z.shiftl a n) = Zdigits2 a + n.
Proof.
  intros Ha Hn.
  assert (0 < Z.shiftl a n) by (rewrite Z.shiftl_mul_pow2 by lia; apply Z.mul_pos_pos; lia).
  rewrite !Zdigits2_pos by lia. rewrite Z.log2_shiftl by lia. lia.
Qed.

(** What [shr_fexp] does to a mantissa that is not negative. *)
Lemma shr_fexp_spec m e l :
  0 <= m ->
  let n := fexp 53 1024 (Zdigits2 m + e) - e in
  shr_m (shr_fexp 53 1024 m e l).1 = Z.shiftr m (Z.max 0 n)
  /\ (shr_fexp 53 1024 m e l).2 = e + Z.max 0 n
  /\ (n <= 0 -> loc_of_shr_record (shr_fexp 53 1024 m e l).1 = l).
Proof.
  intros Hm n. unfold shr_fexp. fold n.
  assert (Hrec : shr_m (shr_record_of_loc m l) = m) by (by destruct l as [|[]]).
  destruct n as [|p|p] eqn:Hn; simpl.
  - rewrite Hrec. split; [reflexivity|]. split; [lia|]. intros _. by destruct l as [|[]].
  - rewrite iter_pos_nat, shr_iter_m by (rewrite Hrec; assumption).
    rewrite Hrec, positive_nat_Z. split; [reflexivity|]. split; [reflexivity | lia].
  - rewrite Hrec. split; [reflexivity|]. split; [lia|]. intros _. by destruct l as [|[]].
Qed.

Lemma round_nearest_even_bounds m l :
  m <= round_nearest_even m l <= m + 1.
Proof. destruct l as [|[]]; simpl; try lia. destruct (Z.even m); lia. Qed.

(** The result of rounding, in terms of the two shifts. *)
Lemma binary_round_aux_spec s m e l :
  0 <= m ->
  let n1 := Z.max 0 (fexp 53 1024 (Zdigits2 m + e) - e) in
  let m1 := Z.shiftr m n1 in
  exists mr,
    m1 <= mr <= m1 + 1
    /\ (fexp 53 1024 (Zdigits2 m + e) - e <= 0 -> l = loc_Exact -> mr = m)
    /\ let n2 := Z.max 0 (fexp 53 1024 (Zdigits2 mr + (e + n1)) - (e + n1)) in
       binary_round_aux 53 1024 s m e l
       = match Z.shiftr mr n2 with
         | Z0 => S754_zero s
         | Zpos p => if e + n1 + n2 <=? 971 then S754_finite s p (e + n1 + n2)
                     else S754_infinity s
         | Zneg _ => S754_nan
         end.
Proof.
  intros Hm n1 m1.
  destruct (shr_fexp_spec m e l Hm) as (Hm1 & He1 & Hl1).
  unfold binary_round_aux.
  destruct (shr_fexp 53 1024 m e l) as [mrs1 e1]. simpl in Hm1, He1, Hl1.
  fold n1 in Hm1, He1. fold m1 in Hm1.
  set (mr := round_nearest_even (shr_m mrs1) (loc_of_shr_record mrs1)).
  exists mr.
  pose proof (round_nearest_even_bounds (shr_m mrs1) (loc_of_shr_record mrs1)) as Hmr.
  fold mr in Hmr. rewrite Hm1 in Hmr.
  split; [exact Hmr|]. split.
  - intros Hn Hl. unfold mr. rewrite (Hl1 Hn), Hl. simpl. rewrite Hm1.
    unfold m1, n1. rewrite Z.max_l by lia. apply Z.shiftr_0_r.
  - assert (Hmr0 : 0 <= mr).
    { pose proof (Z.shiftr_nonneg m n1). unfold m1 in Hmr. lia. }
    destruct (shr_fexp_spec mr e1 loc_Exact Hmr0) as (Hm2 & He2 & _).
    destruct (shr_fexp 53 1024 mr e1 loc_Exact) as [mrs2 e2]. simpl in Hm2, He2.
    subst e1. rewrite Hm2, He2. reflexivity.
Qed.

Ltac unfold_fexp := unfold fexp, emin in *.

(** Rounding a mantissa that is not negative gives a float of the sign
    asked for, and a finite one when the number is small enough. *)
Lemma binary_round_aux_finite s m e l :
  0 <= m -> e <= 970 -> Zdigits2 m + e <= 1023 ->
  binary_round_aux 53 1024 s m e l = S754_zero s
  \/ exists m' e', binary_round_aux 53 1024 s m e l = S754_finite s m' e'.
Proof.
  intros Hm He Hd.
  destruct (binary_round_aux_spec s m e l Hm) as (mr & Hmr & _ & Hrun).
  cbv zeta in Hrun. rewrite Hrun. clear Hrun.
  set (n1 := Z.max 0 (fexp 53 1024 (Zdigits2 m + e) - e)) in *.
  set (n2 := Z.max 0 (fexp 53 1024 (Zdigits2 mr + (e + n1)) - (e + n1))).
  pose proof (Z.shiftr_nonneg m n1) as Hm1.
  assert (Hmr0 : 0 <= mr) by lia.
  pose proof (Z.shiftr_nonneg mr n2) as Hm2.
  destruct (Z.shiftr mr n2) as [|p|p]; [by left | | lia].
  right. exists p, (e + n1 + n2).
  assert (Hd1 : Zdigits2 (Z.shiftr m n1) + (e + n1) <= 1023).
  { pose proof (Zdigits2_shiftr m n1 Hm ltac:(lia)).
    unfold n1 in *. unfold_fexp. lia. }
  assert (Hdr : Zdigits2 mr + (e + n1) <= 1024).
  { pose proof (Zdigits2_le mr (Z.shiftr m n1 + 1) ltac:(lia)).
    pose proof (Zdigits2_succ (Z.shiftr m n1) ltac:(lia)). lia. }
  destruct (Z.leb_spec (e + n1 + n2) 971) as [_|Hbig]; [reflexivity|].
  exfalso. unfold n2, n1 in *. unfold_fexp. lia.
Qed.

Lemma digits2_iter_xO p k :
  Zpos (digits2_pos (Pos.iter xO p k)) = Zpos (digits2_pos p) + Zpos k.
Proof.
  induction k as [|k IH] using Pos.peano_ind.
  - simpl. lia.
  - rewrite Pos.iter_succ. simpl. lia.
Qed.

(** A positive number whose mantissa has at least 53 digits and that is
    not below the normal range rounds to a positive float or to infinity:
    never to zero. *)
Lemma binary_round_aux_normal s p e :
  53 <= Zdigits2 (Zpos p) -> -1074 <= e ->
  binary_round_aux 53 1024 s (Zpos p) e loc_Exact = S754_infinity s
  \/ exists m' e', e <= e'
       /\ binary_round_aux 53 1024 s (Zpos p) e loc_Exact = S754_finite s m' e'.
Proof.
  intros Hd He.
  destruct (binary_round_aux_spec s (Zpos p) e loc_Exact ltac:(lia))
    as (mr & Hmr & _ & Hrun).
  cbv zeta in Hrun. rewrite Hrun. clear Hrun.
  set (m := Zpos p) in *.
  assert (Hn1 : Z.max 0 (fexp 53 1024 (Zdigits2 m + e) - e) = Zdigits2 m - 53)
    by (unfold_fexp; lia).
  rewrite Hn1 in *.
  set (n1 := Zdigits2 m - 53) in *.
  assert (Hlog : Zdigits2 m = Z.log2 m + 1) by (apply Zdigits2_pos; lia).
  destruct (Zdigits2_shiftr_pos m n1 ltac:(lia) ltac:(lia)) as (Hm1 & Hd1).
  assert (Hdr : 53 <= Zdigits2 mr <= 54).
  { pose proof (Zdigits2_le (Z.shiftr m n1) mr ltac:(lia)).
    pose proof (Zdigits2_le mr (Z.shiftr m n1 + 1) ltac:(lia)).
    pose proof (Zdigits2_succ (Z.shiftr m n1) ltac:(lia)). lia. }
  assert (Hn2 : Z.max 0 (fexp 53 1024 (Zdigits2 mr + (e + n1)) - (e + n1))
                = Zdigits2 mr - 53) by (unfold_fexp; lia).
  rewrite Hn2. set (n2 := Zdigits2 mr - 53).
  assert (Hlogr : Zdigits2 mr = Z.log2 mr + 1) by (apply Zdigits2_pos; lia).
  destruct (Zdigits2_shiftr_pos mr n2 ltac:(lia) ltac:(lia)) as (Hm2 & _).
  destruct (Z.shiftr mr n2) as [|p2|p2]; try lia.
  destruct (e + n1 + n2 <=? 971); [|by left].
  right. exists p2, (e + n1 + n2). split; [lia | reflexivity].
Qed.

(** The float of a positive integer is positive (or infinite), and its
    exponent is at least -52. *)
Lemma binary64_of_positive n :
  0 < n ->
  binary64 n = S754_infinity false
  \/ exists m e, -52 <= e /\ binary64 n = S754_finite false m e.
Proof.
  destruct n as [|p|p]; try lia. intros _.
  unfold binary64, binary_normalize, binary_round, shl_align.
  assert (Hlog := digits2_log2 p). pose proof (Z.log2_nonneg (Zpos p)).
  destruct (fexp 53 1024 (Zpos (digits2_pos p) + 0) - 0) as [|d|d] eqn:Hshift.
  - destruct (binary_round_aux_normal false p 0) as [Hinf|(m & e & He & Hrun)];
      [simpl; unfold_fexp; lia | lia | by left |].
    right. exists m, e. split; [lia | exact Hrun].
  - destruct (binary_round_aux_normal false p 0) as [Hinf|(m & e & He & Hrun)];
      [simpl; unfold_fexp; lia | lia | by left |].
    right. exists m, e. split; [lia | exact Hrun].
  - destruct (binary_round_aux_normal false (Pos.iter xO p d)
                (fexp 53 1024 (Zpos (digits2_pos p) + 0)))
      as [Hinf|(m & e & He & Hrun)].
    + simpl. rewrite digits2_iter_xO. unfold_fexp. lia.
    + unfold_fexp. lia.
    + by left.
    + right. exists m, e. split; [unfold_fexp; lia | exact Hrun].
Qed.

(** The quotient of two mantissas, before rounding. *)
Lemma SFdiv_core_bounds mx ex my ey :
  let '(q, e, _) := SFdiv_core_binary 53 1024 (Zpos mx) ex (Zpos my) ey in
  0 <= q /\ e <= ex - ey /\ Zdigits2 q + e <= Zdigits2 (Zpos mx) + ex - ey.
Proof.
  unfold SFdiv_core_binary.
  set (e := Z.min _ _). set (s := ex - ey - e).
  assert (Hs : 0 <= s) by (unfold s, e; lia).
  set (m := match s with Z0 => Zpos mx | Zpos _ => Z.shiftl (Zpos mx) s | Zneg _ => 0 end).
  assert (Hm : m = Z.shiftl (Zpos mx) s).
  { unfold m. destruct s; [by rewrite Z.shiftl_0_r | reflexivity | lia]. }
  pose proof (Z_div_mod m (Zpos my) ltac:(lia)) as Hdiv.
  destruct (Z.div_eucl m (Zpos my)) as [q r]. destruct Hdiv as [Hq Hr].
  assert (Hmpos : 0 < m).
  { rewrite Hm, Z.shiftl_mul_pow2 by lia. apply Z.mul_pos_pos; lia. }
  assert (Hq0 : 0 <= q) by nia.
  assert (Hqm : q <= m) by nia.
  split; [exact Hq0|]. split; [unfold e; lia|].
  pose proof (Zdigits2_le q m ltac:(lia)) as Hle.
  rewrite Hm, Zdigits2_shiftl in Hle by lia. unfold s in Hle. lia.
Qed.

(** Dividing a positive float below [2^900] by the float of a positive
    integer gives a float that is finite and not negative. *)
Lemma SFdiv_by_positive mx ex n :
  0 < n -> Zdigits2 (Zpos mx) + ex <= 900 ->
  SFdiv 53 1024 (S754_finite false mx ex) (binary64 n) = S754_zero false
  \/ exists m e,
       SFdiv 53 1024 (S754_finite false mx ex) (binary64 n) = S754_finite false m e.
Proof.
  intros Hn Hx.
  destruct (binary64_of_positive n Hn) as [->|(my & ey & Hey & ->)]; [by left|].
  unfold SFdiv.
  pose proof (SFdiv_core_bounds mx ex my ey) as Hcore.
  destruct (SFdiv_core_binary 53 1024 (Zpos mx) ex (Zpos my) ey) as [[q e] l].
  destruct Hcore as (Hq & He & Hd).
  pose proof (Zdigits2_nonneg (Zpos mx)). simpl in H.
  apply binary_round_aux_finite; [exact Hq | |lia].
  simpl in Hd, Hx. lia.
Qed.

Lemma shr_1_r mrs : 0 <= shr_m mrs -> shr_r (shr_1 mrs) = Z.odd (shr_m mrs).
Proof.
  destruct mrs as [m r s]. simpl. intros Hm.
  destruct m as [|[p|p|]|p]; try reflexivity; lia.
Qed.

(** Rounding up needs the round bit: the last bit shifted out. *)
Lemma round_up_bit m e :
  0 <= m ->
  let n := fexp 53 1024 (Zdigits2 m + e) - e in
  let mrs := (shr_fexp 53 1024 m e loc_Exact).1 in
  round_nearest_even (shr_m mrs) (loc_of_shr_record mrs) <> shr_m mrs ->
  0 < n /\ Z.testbit m (n - 1) = true.
Proof.
  intros Hm n mrs Hup.
  assert (Hr : shr_r mrs = true).
  { destruct mrs as [m' [] []]; simpl in *; congruence. }
  unfold mrs, shr_fexp in Hr. fold n in Hr.
  destruct n as [|p|p] eqn:Hn; simpl in Hr; try discriminate.
  split; [lia|].
  rewrite iter_pos_nat in Hr.
  destruct (Pos2Nat.is_succ p) as [k Hk]. rewrite Hk in Hr.
  rewrite Nat.iter_succ, shr_1_r, shr_iter_m in Hr; simpl; try lia.
  - rewrite Z.testbit_odd. replace (Z.pos p - 1) with (Z.of_nat k) by lia. exact Hr.
  - rewrite shr_iter_m by (simpl; lia). by apply Z.shiftr_nonneg.
Qed.

Lemma pow2_log2_le a : 0 < a -> 2 ^ Z.log2 a <= a < 2 ^ (Z.log2 a + 1).
Proof. intros Ha. rewrite Z.add_1_r. exact (Z.log2_spec a Ha). Qed.

(** An integer below [float_limit] has a float. *)
Lemma binary64_of_small n :
  0 < n < float_limit ->
  exists m e, binary64 n = S754_finite false m e.
Proof.
  intros [Hn Hlim].
  destruct (binary64_of_positive n Hn) as [Hinf|(m & e & _ & Hrun)]; [|by exists m, e].
  exfalso. revert Hinf.
  destruct n as [|p|p]; try lia.
  unfold binary64, binary_normalize, binary_round, shl_align.
  assert (Hlog := digits2_log2 p). pose proof (Z.log2_nonneg (Zpos p)) as Hlog0.
  destruct (pow2_log2_le (Zpos p) ltac:(lia)) as [Hlo Hhi].
  assert (Hd : Z.log2 (Zpos p) < 1024).
  { apply Z.log2_lt_pow2; [lia|]. unfold float_limit in Hlim.
    assert (0 < 2 ^ 970) by (apply Z.pow_pos_nonneg; lia). lia. }
  set (e0 := fexp 53 1024 (Zpos (digits2_pos p) + 0)).
  assert (Hcase :
    forall q e, 53 <= Zdigits2 (Zpos q) -> -1074 <= e ->
      Zdigits2 (Zpos q) + e <= 1024 ->
      (Zdigits2 (Zpos q) + e = 1024 -> Zpos q < 2 ^ Zdigits2 (Zpos q) - 2 ^ (Zdigits2 (Zpos q) - 54)) ->
      binary_round_aux 53 1024 false (Zpos q) e loc_Exact <> S754_infinity false).
  { clear. intros q e Hq He Hd Hlim.
    pose proof (round_up_bit (Zpos q) e ltac:(lia)) as Hbit. cbv zeta in Hbit.
    destruct (shr_fexp_spec (Zpos q) e loc_Exact ltac:(lia)) as (Hm1 & He1 & _).
    unfold binary_round_aux.
    destruct (shr_fexp 53 1024 (Zpos q) e loc_Exact) as [mrs1 e1].
    cbn [fst snd] in Hm1, He1, Hbit.
    set (m := Zpos q) in *.
    assert (Hn1 : fexp 53 1024 (Zdigits2 m + e) - e = Zdigits2 m - 53)
      by (unfold_fexp; lia).
    rewrite Hn1 in *. rewrite Z.max_r in Hm1, He1 by lia.
    set (n1 := Zdigits2 m - 53) in *.
    assert (Hlogm : Zdigits2 m = Z.log2 m + 1) by (apply Zdigits2_pos; lia).
    destruct (Zdigits2_shiftr_pos m n1 ltac:(lia) ltac:(lia)) as (Hm1pos & Hd1).
    set (mr := round_nearest_even (shr_m mrs1) (loc_of_shr_record mrs1)) in *.
    pose proof (round_nearest_even_bounds (shr_m mrs1) (loc_of_shr_record mrs1)) as Hmr.
    fold mr in Hmr. rewrite Hm1 in *.
    assert (Hdr : 53 <= Zdigits2 mr <= 54).
    { pose proof (Zdigits2_le (Z.shiftr m n1) mr ltac:(lia)).
      pose proof (Zdigits2_le mr (Z.shiftr m n1 + 1) ltac:(lia)).
      pose proof (Zdigits2_succ (Z.shiftr m n1) ltac:(lia)). lia. }
    destruct (shr_fexp_spec mr e1 loc_Exact ltac:(lia)) as (Hm2 & He2 & _).
    destruct (shr_fexp 53 1024 mr e1 loc_Exact) as [mrs2 e2].
    cbn [fst snd] in Hm2, He2.
    assert (Hn2 : Z.max 0 (fexp 53 1024 (Zdigits2 mr + e1) - e1) = Zdigits2 mr - 53)
      by (unfold_fexp; lia).
    rewrite Hn2 in *.
    destruct (shr_m mrs2) as [|p2|p2]; try discriminate.
    destruct (Z.leb_spec e2 (1024 - 53)) as [_|Hbig]; [discriminate|].
    exfalso.
    (* the mantissa was all ones and was rounded up *)
    assert (Hd54 : Zdigits2 mr = 54) by lia.
    assert (Hdm : Zdigits2 m + e = 1024) by lia.
    assert (Hup : mr <> Z.shiftr m n1).
    { intros Heq. rewrite Heq in Hd54. lia. }
    destruct (Hbit Hup) as [Hn1pos Htest].
    specialize (Hlim Hdm).
    (* [mr = 2^53] *)
    assert (Hmr53 : 2 ^ 53 <= mr).
    { destruct (pow2_log2_le mr ltac:(lia)) as [Hl _].
      rewrite Zdigits2_pos in Hd54 by lia.
      replace (Z.log2 mr) with 53 in Hl by lia. exact Hl. }
    assert (Hm1max : Z.shiftr m n1 < 2 ^ 53).
    { destruct (pow2_log2_le (Z.shiftr m n1) ltac:(lia)) as [_ Hh].
      rewrite Zdigits2_pos in Hd1 by lia.
      replace (Z.log2 (Z.shiftr m n1) + 1) with 53 in Hh by lia. exact Hh. }
    assert (Hm1eq : Z.shiftr m n1 = 2 ^ 53 - 1) by lia.
    (* the round bit puts [m] at or above the limit *)
    apply Z.testbit_true in Htest; [|lia].
    rewrite Z.shiftr_div_pow2 in Hm1eq by lia.
    assert (Hpow : 2 ^ n1 = 2 * 2 ^ (n1 - 1)).
    { rewrite <- Z.pow_succ_r by lia. f_equal. lia. }
    assert (Hpos : 0 < 2 ^ (n1 - 1)) by (apply Z.pow_pos_nonneg; lia).
    assert (Hhalf : m / 2 ^ (n1 - 1) / 2 = 2 ^ 53 - 1).
    { rewrite Z.div_div by lia. rewrite Z.mul_comm, <- Hpow. exact Hm1eq. }
    pose proof (Z.div_mod (m / 2 ^ (n1 - 1)) 2 ltac:(lia)) as Hdm2.
    rewrite Hhalf, Htest in Hdm2.
    pose proof (Z.mul_div_le m (2 ^ (n1 - 1)) Hpos) as Hle.
    rewrite Hdm2 in Hle.
    assert (Hsplit : 2 ^ Zdigits2 m = 2 ^ 54 * 2 ^ (n1 - 1)).
    { rewrite <- Z.pow_add_r by lia. f_equal. lia. }
    replace (Zdigits2 m - 54) with (n1 - 1) in Hlim by lia.
    rewrite Hsplit in Hlim.
    change (2 ^ 54) with 18014398509481984 in Hlim.
    change (2 ^ 53) with 9007199254740992 in Hle.
    nia. }
  destruct (e0 - 0) as [|d|d] eqn:Hshift; unfold e0 in Hshift.
  - apply Hcase; simpl; unfold_fexp; try lia.
  - apply Hcase; simpl; unfold_fexp; try lia.
    intros Hfull. rewrite Hlog. replace (Z.log2 (Zpos p) + 1) with 1024 by lia.
    unfold float_limit in Hlim. exact Hlim.
  - apply Hcase; simpl; rewrite ?digits2_iter_xO; unfold_fexp; try lia.
Qed.

(** *** The accuracy of the division *)

Lemma digits_bounds a : 0 < a -> 2 ^ (Zdigits2 a - 1) <= a < 2 ^ Zdigits2 a.
Proof.
  intros Ha. rewrite Zdigits2_pos by assumption.
  replace (Z.log2 a + 1 - 1) with (Z.log2 a) by lia. by apply pow2_log2_le.
Qed.

Lemma digits_of_bounds a d : 0 < d -> 2 ^ (d - 1) <= a < 2 ^ d -> Zdigits2 a = d.
Proof.
  intros Hd [Hlo Hhi].
  assert (0 < a) by (pose proof (Z.pow_pos_nonneg 2 (d - 1)); lia).
  rewrite Zdigits2_pos by assumption.
  assert (Z.log2 a = d - 1); [|lia].
  apply Z.log2_unique; [lia|]. replace (Z.succ (d - 1)) with d by lia. lia.
Qed.

(** A mantissa of 53 digits with an exponent in range is its own
    rounding. *)
Lemma binary_round_aux_exact s p e :
  Zdigits2 (Zpos p) = 53 -> -1074 <= e <= 971 ->
  binary_round_aux 53 1024 s (Zpos p) e loc_Exact = S754_finite s p e.
Proof.
  intros Hd He.
  destruct (binary_round_aux_spec s (Zpos p) e loc_Exact ltac:(lia))
    as (mr & _ & Hmr & Hrun).
  cbv zeta in Hrun. rewrite Hrun. clear Hrun.
  assert (Hn : fexp 53 1024 (Zdigits2 (Zpos p) + e) - e = 0)
    by (rewrite Hd; unfold_fexp; lia).
  rewrite Hn in *. specialize (Hmr ltac:(lia) eq_refl). subst mr.
  rewrite Z.max_id, Z.add_0_r, Hn, Z.max_id, Z.add_0_r, Z.shiftr_0_r.
  destruct (Z.leb_spec e 971); [reflexivity | lia].
Qed.

Lemma iter_xO_pow2 p k : Zpos (Pos.iter xO p k) = Zpos p * 2 ^ Zpos k.
Proof.
  induction k as [|k IH] using Pos.peano_ind.
  - simpl. lia.
  - rewrite Pos.iter_succ, Pos2Z.inj_succ, Z.pow_succ_r by lia.
    rewrite Pos2Z.inj_xO, IH. lia.
Qed.

(** An integer below [2^53] is a float: its float has the same value. *)
Lemma binary64_exact n :
  0 < n < 2 ^ 53 ->
  exists my ey,
    binary64 n = S754_finite false my ey
    /\ -52 <= ey <= 0
    /\ Zdigits2 (Zpos my) = 53
    /\ Zpos my = n * 2 ^ (- ey).
Proof.
  intros [Hn Hlim]. destruct n as [|p|p]; try lia.
  unfold binary64, binary_normalize, binary_round, shl_align.
  assert (Hlog := digits2_log2 p). pose proof (Z.log2_nonneg (Zpos p)) as Hlog0.
  assert (Hd : Z.log2 (Zpos p) < 53) by (apply Z.log2_lt_pow2; lia).
  assert (He : fexp 53 1024 (Zpos (digits2_pos p) + 0) = Zpos (digits2_pos p) - 53)
    by (unfold_fexp; lia).
  rewrite He.
  destruct (Zpos (digits2_pos p) - 53 - 0) as [|d|d] eqn:Hshift; try lia.
  - exists p, 0. rewrite binary_round_aux_exact by (simpl; lia).
    split; [reflexivity|]. split; [lia|]. split; [simpl; lia|]. simpl. lia.
  - exists (Pos.iter xO p d), (Zpos (digits2_pos p) - 53).
    assert (Hdig : Zdigits2 (Zpos (Pos.iter xO p d)) = 53)
      by (simpl; rewrite digits2_iter_xO; lia).
    rewrite binary_round_aux_exact by (assumption || lia).
    split; [reflexivity|]. split; [lia|]. split; [exact Hdig|].
    replace (- (Zpos (digits2_pos p) - 53)) with (Zpos d) by lia.
    apply iter_xO_pow2.
Qed.

(** The quotient of [60.0] by a normal float, before and after rounding:
    the mantissa [m] of the result, scaled back by the [t] bits the
    rounding dropped and multiplied by the divisor, is within three
    divisors of the dividend. *)
Lemma SFdiv_60_accuracy my ey :
  Zdigits2 (Zpos my) = 53 -> -52 <= ey <= 971 ->
  exists m e t,
    SFdiv 53 1024 (S754_finite false 8444249301319680 (-47)) (S754_finite false my ey)
    = S754_finite false m e
    /\ 0 <= t <= 2
    /\ e = -100 - ey + t
    /\ Z.abs (Zpos m * 2 ^ t * Zpos my - 8444249301319680 * 2 ^ 53) <= 3 * Zpos my.
Proof.
  intros Hd He.
  destruct (digits_bounds (Zpos my) ltac:(lia)) as [Hmy_lo Hmy_hi].
  rewrite Hd in Hmy_lo, Hmy_hi.
  change (2 ^ (53 - 1)) with 4503599627370496 in Hmy_lo.
  change (2 ^ 53) with 9007199254740992 in Hmy_hi |- *.
  unfold SFdiv, SFdiv_core_binary. rewrite Hd.
  change (Zdigits2 (Zpos 8444249301319680)) with 53.
  replace (Z.min (fexp 53 1024 (53 + -47 - (53 + ey))) (-47 - ey))
    with (-100 - ey) by (unfold_fexp; lia).
  replace (-47 - ey - (-100 - ey)) with 53 by lia.
  cbv beta iota.
  change (Z.shiftl (Zpos 8444249301319680) 53)
    with (8444249301319680 * 9007199254740992).
  pose proof (Z_div_mod (8444249301319680 * 9007199254740992) (Zpos my) ltac:(lia))
    as Hdiv.
  destruct (Z.div_eucl (8444249301319680 * 9007199254740992) (Zpos my)) as [q r].
  destruct Hdiv as [Hq Hr].
  assert (Hq_lo : 8444249301319680 <= q) by nia.
  assert (Hq_hi : q <= 2 * 8444249301319680) by nia.
  set (e' := -100 - ey) in *.
  destruct (binary_round_aux_spec false q e' (new_location (Zpos my) r) ltac:(lia))
    as (mr & Hmr & _ & Hrun).
  cbv zeta in Hrun. change (xorb false false) with false.
  (* the first shift drops [n1] bits, none or one *)
  assert (Hdq : Zdigits2 q = 53 \/ Zdigits2 q = 54).
  { destruct (Z.lt_ge_cases q (2 ^ 53)) as [Hlt|Hge].
    - left. apply digits_of_bounds; [lia|].
      change (2 ^ (53 - 1)) with 4503599627370496. lia.
    - right. apply digits_of_bounds; [lia|].
      change (2 ^ (54 - 1)) with (2 ^ 53).
      change (2 ^ 54) with 18014398509481984. lia. }
  set (n1 := Z.max 0 (fexp 53 1024 (Zdigits2 q + e') - e')) in *.
  assert (Hn1 : n1 = Zdigits2 q - 53) by (unfold n1, e'; unfold_fexp; lia).
  assert (Hm1 : 0 < Z.shiftr q n1 /\ Zdigits2 (Z.shiftr q n1) = 53
                /\ Z.shiftr q n1 * 2 ^ n1 <= q < (Z.shiftr q n1 + 1) * 2 ^ n1).
  { assert (Hlogq : Zdigits2 q = Z.log2 q + 1) by (apply Zdigits2_pos; lia).
    destruct (Zdigits2_shiftr_pos q n1 ltac:(lia) ltac:(lia)) as [Hpos Hdig].
    split; [exact Hpos|]. split; [lia|].
    rewrite Z.shiftr_div_pow2 by lia.
    assert (Hpow : 0 < 2 ^ n1) by (apply Z.pow_pos_nonneg; lia).
    pose proof (Z.div_mod q (2 ^ n1) ltac:(lia)).
    pose proof (Z.mod_pos_bound q (2 ^ n1) Hpow). nia. }
  destruct Hm1 as (Hm1pos & Hm1dig & Hm1val).
  destruct (digits_bounds (Z.shiftr q n1) Hm1pos) as [_ Hm1hi].
  rewrite Hm1dig in Hm1hi.
  (* the second shift drops [n2] bits, one when the rounding carried *)
  assert (Hdr : Zdigits2 mr = 53 \/ Zdigits2 mr = 54).
  { pose proof (Zdigits2_le (Z.shiftr q n1) mr ltac:(lia)).
    pose proof (Zdigits2_le mr (Z.shiftr q n1 + 1) ltac:(lia)).
    pose proof (Zdigits2_succ (Z.shiftr q n1) ltac:(lia)). lia. }
  set (n2 := Z.max 0 (fexp 53 1024 (Zdigits2 mr + (e' + n1)) - (e' + n1))) in *.
  assert (Hn2 : n2 = Zdigits2 mr - 53) by (unfold n2, e'; unfold_fexp; lia).
  assert (Hm2 : 0 < Z.shiftr mr n2 /\ Z.shiftr mr n2 * 2 ^ n2 = mr).
  { assert (Hlogr : Zdigits2 mr = Z.log2 mr + 1) by (apply Zdigits2_pos; lia).
    destruct (Zdigits2_shiftr_pos mr n2 ltac:(lia) ltac:(lia)) as [Hpos _].
    split; [exact Hpos|].
    destruct Hdr as [Hdr|Hdr]; rewrite Hdr in Hn2.
    - replace n2 with 0 by lia. rewrite Z.shiftr_0_r. lia.
    - replace n2 with 1 by lia.
      destruct (digits_bounds mr ltac:(lia)) as [Hlo _]. rewrite Hdr in Hlo.
      change (2 ^ (54 - 1)) with (2 ^ 53) in Hlo.
      assert (mr = 2 ^ 53) as -> by lia. reflexivity. }
  destruct Hm2 as [Hm2pos Hm2val].
  destruct (Z.shiftr mr n2) as [|m|m] eqn:Hshift; try lia.
  exists m, (e' + n1 + n2), (n1 + n2). rewrite Hrun.
  destruct (Z.leb_spec (e' + n1 + n2) 971) as [_|Hbig]; [|lia].
  split; [reflexivity|]. split; [lia|]. split; [unfold e'; lia|].
  rewrite Z.pow_add_r by lia.
  replace (Zpos m * (2 ^ n1 * 2 ^ n2)) with (Zpos m * 2 ^ n2 * 2 ^ n1) by lia.
  rewrite Hm2val.
  assert (Hpow1 : 2 ^ n1 = 1 \/ 2 ^ n1 = 2).
  { destruct Hdq as [Hq53|Hq54]; [left | right];
      replace n1 with (Zdigits2 q - 53) by lia;
      [rewrite Hq53 | rewrite Hq54]; reflexivity. }
  nia.
Qed.

(** Rounding a number of at least 53 digits that is not below the normal
    range: [n1] bits are dropped, the mantissa left is kept or goes up by
    one, and one more bit is dropped when that carried. *)
Lemma binary_round_aux_normal_value s q e l :
  0 < q -> 53 <= Zdigits2 q -> -1074 <= e ->
  exists mr n2 m2,
    let n1 := Zdigits2 q - 53 in
    Z.shiftr q n1 <= mr <= Z.shiftr q n1 + 1
    /\ Z.shiftr q n1 * 2 ^ n1 <= q < (Z.shiftr q n1 + 1) * 2 ^ n1
    /\ 2 ^ (52 + n1) <= q
    /\ 0 <= n2 <= 1
    /\ Zpos m2 * 2 ^ n2 = mr
    /\ Zdigits2 (Zpos m2) = 53
    /\ binary_round_aux 53 1024 s q e l
       = if e + n1 + n2 <=? 971 then S754_finite s m2 (e + n1 + n2)
         else S754_infinity s.
Proof.
  intros Hq Hd He.
  destruct (binary_round_aux_spec s q e l ltac:(lia)) as (mr & Hmr & _ & Hrun).
  cbv zeta in Hrun.
  set (n1 := Z.max 0 (fexp 53 1024 (Zdigits2 q + e) - e)) in *.
  assert (Hn1 : n1 = Zdigits2 q - 53) by (unfold n1; unfold_fexp; lia).
  assert (Hlogq : Zdigits2 q = Z.log2 q + 1) by (apply Zdigits2_pos; lia).
  destruct (Zdigits2_shiftr_pos q n1 ltac:(lia) ltac:(lia)) as [Hm1pos Hm1dig].
  assert (Hm1val : Z.shiftr q n1 * 2 ^ n1 <= q < (Z.shiftr q n1 + 1) * 2 ^ n1).
  { rewrite Z.shiftr_div_pow2 by lia.
    assert (Hpow : 0 < 2 ^ n1) by (apply Z.pow_pos_nonneg; lia).
    pose proof (Z.div_mod q (2 ^ n1) ltac:(lia)).
    pose proof (Z.mod_pos_bound q (2 ^ n1) Hpow). nia. }
  destruct (digits_bounds (Z.shiftr q n1) Hm1pos) as [_ Hm1hi].
  replace (Zdigits2 (Z.shiftr q n1)) with 53 in Hm1hi by lia.
  assert (Hdr : Zdigits2 mr = 53 \/ Zdigits2 mr = 54).
  { pose proof (Zdigits2_le (Z.shiftr q n1) mr ltac:(lia)).
    pose proof (Zdigits2_le mr (Z.shiftr q n1 + 1) ltac:(lia)).
    pose proof (Zdigits2_succ (Z.shiftr q n1) ltac:(lia)). lia. }
  set (n2 := Z.max 0 (fexp 53 1024 (Zdigits2 mr + (e + n1)) - (e + n1))) in *.
  assert (Hn2 : n2 = Zdigits2 mr - 53) by (unfold n2; unfold_fexp; lia).
  assert (Hm2 : 0 < Z.shiftr mr n2 /\ Z.shiftr mr n2 * 2 ^ n2 = mr
                /\ Zdigits2 (Z.shiftr mr n2) = 53).
  { assert (Hlogr : Zdigits2 mr = Z.log2 mr + 1) by (apply Zdigits2_pos; lia).
    destruct (Zdigits2_shiftr_pos mr n2 ltac:(lia) ltac:(lia)) as [Hpos Hdig].
    split; [exact Hpos|]. split; [|lia].
    destruct Hdr as [Hdr|Hdr]; rewrite Hdr in Hn2.
    - replace n2 with 0 by lia. rewrite Z.shiftr_0_r. lia.
    - replace n2 with 1 by lia.
      destruct (digits_bounds mr ltac:(lia)) as [Hlo _]. rewrite Hdr in Hlo.
      change (2 ^ (54 - 1)) with (2 ^ 53) in Hlo.
      assert (mr = 2 ^ 53) as -> by lia. reflexivity. }
  destruct Hm2 as (Hm2pos & Hm2val & Hm2dig).
  destruct (Z.shiftr mr n2) as [|m2|m2] eqn:Hshift; try lia.
  exists mr, n2, m2. cbv zeta. rewrite <- Hn1.
  split; [exact Hmr|]. split; [exact Hm1val|]. split.
  { destruct (digits_bounds q Hq) as [Hlo _].
    replace (52 + n1) with (Zdigits2 q - 1) by lia. exact Hlo. }
  split; [lia|]. split; [exact Hm2val|]. split; [exact Hm2dig|]. exact Hrun.
Qed.

(** The float of an integer that has one: a mantissa of 53 digits, and a
    value that is the integer itself below [2^53] and within one part in
    [2^52] of it above. *)
Lemma binary64_value n :
  0 < n < float_limit ->
  exists my ey,
    binary64 n = S754_finite false my ey
    /\ Zdigits2 (Zpos my) = 53
    /\ -52 <= ey <= 971
    /\ (ey <= 0 -> Zpos my = n * 2 ^ (- ey))
    /\ (0 < ey -> Z.abs (Zpos my * 2 ^ ey - n) * 2 ^ 52 <= n).
Proof.
  intros Hn.
  destruct (Z.lt_ge_cases n (2 ^ 53)) as [Hsmall|Hbig].
  - destruct (binary64_exact n ltac:(lia)) as (my & ey & Hrun & Hey & Hdig & Hval).
    exists my, ey. split; [exact Hrun|]. split; [exact Hdig|].
    split; [lia|]. split; [auto | lia].
  - destruct (binary64_of_small n Hn) as (my & ey & Hfinite).
    exists my, ey. split; [exact Hfinite|].
    revert Hfinite. destruct n as [|p|p]; try lia.
    unfold binary64, binary_normalize, binary_round, shl_align.
    assert (Hd : 54 <= Zdigits2 (Zpos p)).
    { rewrite Zdigits2_pos by lia.
      pose proof (Z.log2_le_pow2 (Zpos p) 53 ltac:(lia)). lia. }
    simpl in Hd.
    assert (He : fexp 53 1024 (Zpos (digits2_pos p) + 0) - 0
                 = Zpos (digits2_pos p) - 53) by (unfold_fexp; lia).
    rewrite He.
    destruct (Zpos (digits2_pos p) - 53) as [|d|d] eqn:Hshift; try lia.
    destruct (binary_round_aux_normal_value false (Zpos p) 0 loc_Exact)
      as (mr & n2 & m2 & Hmr & Hm1 & Hlo & Hn2 & Hm2 & Hdig & Hrun);
      [lia | simpl; lia | lia |].
    rewrite Hrun. simpl Zdigits2 in *. rewrite Hshift in *.
    destruct (0 + Zpos d + n2 <=? 971) eqn:Hfit; [|discriminate].
    intros [= <- <-]. apply Z.leb_le in Hfit.
    split; [exact Hdig|]. split; [lia|]. split; [lia|]. intros _.
    replace (0 + Zpos d + n2) with (n2 + Zpos d) by lia.
    rewrite Z.pow_add_r, Z.mul_assoc, Hm2 by lia.
    assert (Hpow : 2 ^ (52 + Zpos d) = 2 ^ 52 * 2 ^ Zpos d)
      by (apply Z.pow_add_r; lia).
    assert (0 < 2 ^ Zpos d) by (apply Z.pow_pos_nonneg; lia).
    nia.
Qed.

(** The arithmetic behind the accuracy of the wait. *)
Lemma quotient_of_60_close n my ey m t :
  0 < n -> 2 ^ 52 <= Zpos my < 2 ^ 53 -> -52 <= ey <= 971 -> 0 <= t <= 2 ->
  (ey <= 0 -> Zpos my = n * 2 ^ (- ey)) ->
  (0 < ey -> Z.abs (Zpos my * 2 ^ ey - n) * 2 ^ 52 <= n) ->
  Z.abs (Zpos m * 2 ^ t * Zpos my - 8444249301319680 * 2 ^ 53) <= 3 * Zpos my ->
  Z.abs (Zpos m * n - 60 * 2 ^ (100 + ey - t)) * 2 ^ 50 <= 60 * 2 ^ (100 + ey - t).
Proof.
  intros Hn Hmy Hey Ht Hexact Hclose Hquot.
  change (2 ^ 52) with 4503599627370496 in *.
  change (2 ^ 53) with 9007199254740992 in *.
  change (2 ^ 50) with 1125899906842624.
  set (K := 2 ^ (100 + ey - t)).
  assert (HK : 0 < K) by (apply Z.pow_pos_nonneg; lia).
  assert (HT : 0 < 2 ^ t) by (apply Z.pow_pos_nonneg; lia).
  set (X := Zpos m * n - 60 * K).
  destruct (Z.le_gt_cases ey 0) as [Hle|Hgt].
  - (* the divisor is the limit itself *)
    specialize (Hexact Hle). clear Hclose.
    set (G := 2 ^ (t - ey)).
    assert (HG : 0 < G) by (apply Z.pow_pos_nonneg; lia).
    assert (HKG : K * G = 1267650600228229401496703205376).
    { unfold K, G. rewrite <- Z.pow_add_r by lia.
      replace (100 + ey - t + (t - ey)) with 100 by lia. reflexivity. }
    assert (HGs : G = 2 ^ t * 2 ^ (- ey)).
    { unfold G. rewrite <- Z.pow_add_r by lia. f_equal; lia. }
    assert (HXG : X * G
                  = Zpos m * 2 ^ t * Zpos my - 8444249301319680 * 9007199254740992).
    { replace (X * G) with (Zpos m * n * G - 60 * (K * G)) by (unfold X; ring).
      rewrite HKG, Hexact, HGs. ring. }
    assert (HX : Z.abs X * G <= 3 * Zpos my).
    { rewrite <- (Z.abs_eq G) at 1 by lia. rewrite <- Z.abs_mul, HXG. exact Hquot. }
    apply (Z.mul_le_mono_pos_r _ _ G HG).
    replace (60 * K * G) with (60 * (K * G)) by ring. rewrite HKG.
    replace (Z.abs X * 1125899906842624 * G)
      with (Z.abs X * G * 1125899906842624) by ring.
    lia.
  - (* the divisor is the limit rounded *)
    specialize (Hclose Hgt). clear Hexact.
    set (E := 2 ^ ey) in *.
    assert (HE : 0 < E) by (apply Z.pow_pos_nonneg; lia).
    assert (HKT : K * 2 ^ t = 1267650600228229401496703205376 * E).
    { unfold K, E. change 1267650600228229401496703205376 with (2 ^ 100).
      rewrite <- !Z.pow_add_r by lia. f_equal; lia. }
    set (P := Zpos m * 2 ^ t) in *.
    assert (HP : 0 < P) by (apply Z.mul_pos_pos; lia).
    set (d := Zpos my * E) in *.
    set (a := P * n). set (b := P * d).
    set (c := 8444249301319680 * 9007199254740992 * E).
    assert (Hab : Z.abs (a - b) * 4503599627370496 <= a).
    { replace (a - b) with (P * - (d - n)) by (unfold a, b; ring).
      rewrite Z.abs_mul, Z.abs_opp, (Z.abs_eq P), <- Z.mul_assoc by lia.
      unfold a. apply Z.mul_le_mono_nonneg_l; lia. }
    assert (Hbc : Z.abs (b - c) <= 3 * d).
    { replace (b - c)
        with ((P * Zpos my - 8444249301319680 * 9007199254740992) * E)
        by (unfold b, c, d; ring).
      rewrite Z.abs_mul, (Z.abs_eq E) by lia.
      replace (3 * d) with (3 * Zpos my * E) by (unfold d; ring).
      apply Z.mul_le_mono_nonneg_r; lia. }
    assert (Hd : d * 8444249301319680 < c).
    { assert (d < 9007199254740992 * E)
        by (unfold d; apply Z.mul_lt_mono_pos_r; lia).
      unfold c. lia. }
    assert (Hac : Z.abs (a - c) * 1125899906842624 <= c) by lia.
    apply (Z.mul_le_mono_pos_r _ _ (2 ^ t) HT).
    assert (HXT : X * 2 ^ t = a - c).
    { replace (X * 2 ^ t) with (Zpos m * 2 ^ t * n - 60 * (K * 2 ^ t))
        by (unfold X; ring).
      rewrite HKT. unfold a, c, P. ring. }
    replace (Z.abs X * 1125899906842624 * 2 ^ t)
      with (Z.abs (X * 2 ^ t) * 1125899906842624)
      by (rewrite Z.abs_mul, (Z.abs_eq (2 ^ t)) by lia; ring).
    rewrite HXT.
    replace (60 * K * 2 ^ t) with c; [exact Hac|].
    replace (60 * K * 2 ^ t) with (60 * (K * 2 ^ t)) by ring.
    rewrite HKT. unfold c. ring.
Qed.

(** The wait is 60 over the limit to within one part in [2^50]: multiplied
    by the limit it is 60 to within [60 / 2^50]. *)
Lemma delay_accuracy n :
  0 < n < float_limit ->
  (Qabs (float_value (SFdiv 53 1024 (binary64 60) (binary64 n)) * inject_Z n - 60)
   <= 60 # 2 ^ 50)%Q.
Proof.
  intros Hn.
  destruct (binary64_value n Hn) as (my & ey & Hy & Hdig & Hey & Hexact & Hclose).
  destruct (SFdiv_60_accuracy my ey Hdig Hey) as (m & e & t & Hdiv & Ht & He & Hquot).
  change (binary64 60) with (S754_finite false 8444249301319680 (-47)).
  rewrite Hy, Hdiv.
  destruct (digits_bounds (Zpos my) ltac:(lia)) as [Hlo Hhi]. rewrite Hdig in Hlo, Hhi.
  pose proof (quotient_of_60_close n my ey m t (proj1 Hn) (conj Hlo Hhi) Hey Ht
                Hexact Hclose Hquot) as Hcore.
  destruct e as [|k|k]; try lia.
  replace (100 + ey - t) with (Zpos k) in Hcore by lia.
  unfold float_value. apply Qabs_Qle_condition. rewrite Qred_correct.
  unfold Qle, Qminus, Qplus, Qopp, Qmult, inject_Z. cbn [Qnum Qden].
  rewrite !Pos2Z.inj_mul, !Pos2Z.inj_pow.
  change (Zpos 2 ^ Zpos 50) with 1125899906842624.
  change (2 ^ 50) with 1125899906842624 in Hcore.
  change (Zpos 2) with 2.
  set (K := 2 ^ Zpos k) in *.
  lia.
Qed.

Lemma float_value_nonneg m e :
  Qle_bool 0 (float_value (S754_finite false m e)) = true.
Proof.
  apply Qle_bool_iff. unfold float_value. rewrite Qred_correct.
  destruct e as [|k|k]; unfold Qle; simpl; lia.
Qed.

(** For a usable limit the division is made, and its quotient is a length
    [time.sleep] takes. *)
Lemma truediv_run cfg :
  0 < RPM_LIMIT cfg < float_limit ->
  truediv (binary64 60) (RPM_LIMIT cfg) = Ok (rate_limit_delay cfg)
  /\ sleep_accepts (rate_limit_delay cfg).
Proof.
  intros Hrpm. unfold rate_limit_delay. set (rpm := RPM_LIMIT cfg) in *.
  destruct (binary64_of_small rpm Hrpm) as (my & ey & Hy).
  split.
  - unfold truediv, float_of_int. by rewrite Hy.
  - change (binary64 60) with (S754_finite false 8444249301319680 (-47)).
    destruct (SFdiv_by_positive 8444249301319680 (-47) rpm (proj1 Hrpm))
      as [->|(m & e & ->)]; [simpl; lia | by split |].
    split; [reflexivity | apply float_value_nonneg].
Qed.

Section LoopFacts.

Variable create : nat -> Prompt -> res (option string).
Variable loads : string -> res pyval.
Variable rng : nat -> nat.

Local Abbreviation retry := (retry create loads).
Local Abbreviation generate_batch := (generate_batch create loads).
Local Abbreviation iteration := (iteration create loads rng).
Local Abbreviation accumulate := (accumulate create loads rng).
Local Abbreviation loop_prefix := (loop_prefix create loads rng).

(** The retry loop always returns, and leaves only its own events. *)
Lemma retry_returns p mr attempts : forall w,
  exists v n tr,
    retry p mr attempts w = (Ok v, after_requests w n tr)
    /\ Forall (retry_event p) tr.
Proof.
  induction attempts as [|attempt rest IH]; intros w.
  - exists PNone, 0%nat, []. split; [|constructor].
    unfold after_requests. simpl. unfold ret.
    rewrite Nat.add_0_r, app_nil_r. by destruct w.
  - simpl. unfold bind at 1. unfold try_except. unfold bind at 1.
    rewrite request_run.
    destruct (attempt_result create loads p (api_calls w)) as [v|e].
    + exists v, 1%nat, [EvRequest p]. split; [reflexivity|].
      constructor; [by left | constructor].
    + unfold when.
      destruct (attempt <? mr - 1).
      * unfold bind at 1. rewrite sleep_5_run, log_after_requests. simpl.
        destruct (IH (after_requests w 1 [EvRequest p; EvSleep 5]))
          as (v & n & tr & Hrun & Htr).
        exists v, (1 + n)%nat, ([EvRequest p; EvSleep 5] ++ tr).
        rewrite Hrun, after_requests_compose. split; [reflexivity|].
        constructor; [by left|]. constructor; [by right | exact Htr].
      * unfold bind at 1. simpl.
        destruct (IH (after_requests w 1 [EvRequest p]))
          as (v & n & tr & Hrun & Htr).
        exists v, (1 + n)%nat, ([EvRequest p] ++ tr).
        rewrite Hrun, after_requests_compose. split; [reflexivity|].
        constructor; [by left | exact Htr].
Qed.

(** One pass of the accumulator loop, step by step. *)
Lemma iteration_run cfg delay acc i w :
  sleep_accepts delay ->
  let focus := nth (rng (rng_calls w) mod length categories)%nat categories "" in
  let w1 := log (EvProgress focus (Z.of_nat (length (all_records acc)))
                   (successful_batches acc) (failed_batches acc)) (drawn w) in
  exists batch n tr acc',
    generate_batch cfg focus default_max_retries w1
    = (Ok batch, after_requests w1 n tr)
    /\ Forall (retry_event {| batch_size := BATCH_SIZE cfg;
                              focus_category := focus |}) tr
    /\ merge acc batch = Ok acc'
    /\ iteration cfg delay acc i w
       = (Ok acc', log (EvSleep (float_value delay)) (after_requests w1 n tr)).
Proof.
  intros [Hsecs Hdelay] focus w1.
  destruct (retry_returns {| batch_size := BATCH_SIZE cfg; focus_category := focus |}
              default_max_retries (py_range default_max_retries) w1)
    as (batch & n & tr & Hrun & Htr).
  change (generate_batch cfg focus default_max_retries w1
          = (Ok batch, after_requests w1 n tr)) in Hrun.
  destruct (merge_total acc batch) as (acc' & Hmerge).
  exists batch, n, tr, acc'.
  split; [exact Hrun|]. split; [exact Htr|]. split; [exact Hmerge|].
  unfold iteration. unfold bind at 1.
  change (random_choice rng categories w) with (Ok focus, drawn w).
  cbv beta iota. unfold bind at 1, set_postfix. fold w1.
  unfold bind at 1. rewrite Hrun.
  unfold bind at 1, lift. rewrite Hmerge.
  unfold bind, time_sleep, ret. by rewrite Hsecs, Hdelay.
Qed.

Lemma loop_inv_start cfg delay w0 acc0 : loop_inv cfg delay w0 acc0 0 acc0 w0.
Proof.
  unfold loop_inv. repeat split; try lia.
  exists []. simpl. rewrite app_nil_r. auto.
Qed.

Lemma iteration_keeps_inv cfg delay w0 acc0 :
  sleep_accepts delay ->
  forall k i acc w,
    loop_inv cfg (float_value delay) w0 acc0 k acc w ->
    exists acc' w',
      iteration cfg delay acc i w = (Ok acc', w')
      /\ loop_inv cfg (float_value delay) w0 acc0 (S k) acc' w'.
Proof.
  intros Hdelay k i acc w (Hfiles & Hsum & Hs & Hf & Hlen & passes & Htrace & Hk & Hpasses).
  destruct (iteration_run cfg delay acc i w Hdelay)
    as (batch & n & tr & acc' & _ & Htr & Hmerge & Hrun).
  eexists acc', _. split; [exact Hrun|].
  assert (Hacc : successful_batches acc' + failed_batches acc'
                 = successful_batches acc + failed_batches acc + 1
                 /\ successful_batches acc <= successful_batches acc'
                 /\ failed_batches acc <= failed_batches acc'
                 /\ (length (all_records acc) <= length (all_records acc'))%nat).
  { destruct (merge_cases acc batch) as [(x & items & _ & Hm)|(_ & Hm)];
      rewrite Hm in Hmerge; injection Hmerge as <-; simpl;
      rewrite ?length_app; repeat split; lia. }
  destruct Hacc as (Hsum' & Hs' & Hf' & Hlen').
  unfold loop_inv. simpl. repeat split; try lia; [exact Hfiles|].
  eexists (passes ++ [_]). split; [|split].
  - rewrite Htrace, concat_app. simpl. rewrite app_nil_r, <- !app_assoc. reflexivity.
  - rewrite length_app. simpl. lia.
  - apply Forall_app. split; [exact Hpasses|]. constructor; [|constructor].
    unfold pass_events. eexists _, _, _, _, tr. split; [reflexivity | exact Htr].
Qed.

(** The loop always returns, however the requests go. *)
Lemma loop_returns cfg delay :
  sleep_accepts delay ->
  forall xs acc0 w0,
    exists acc w,
      for_each (iteration cfg delay) xs acc0 w0 = (Ok acc, w)
      /\ loop_inv cfg (float_value delay) w0 acc0 (length xs) acc w.
Proof.
  intros Hdelay xs acc0 w0.
  apply (for_each_invariant (iteration cfg delay)
           (loop_inv cfg (float_value delay) w0 acc0)
           (fun k i acc w => iteration_keeps_inv cfg delay w0 acc0 Hdelay k i acc w)
           xs 0%nat acc0 w0).
  apply loop_inv_start.
Qed.

Lemma loop_prefix_run cfg k w :
  0 < RPM_LIMIT cfg < float_limit ->
  loop_prefix cfg k w
  = for_each (iteration cfg (rate_limit_delay cfg))
      (py_range (Z.of_nat k)) empty_acc w.
Proof.
  intros Hrpm. unfold loop_prefix, bind, lift.
  by rewrite (proj1 (truediv_run _ Hrpm)).
Qed.

Lemma accumulate_run cfg w :
  BATCH_SIZE cfg <> 0 ->
  0 < RPM_LIMIT cfg < float_limit ->
  accumulate cfg w
  = for_each (iteration cfg (rate_limit_delay cfg))
      (py_range (NUM_RECORDS_TO_GENERATE cfg / BATCH_SIZE cfg)) empty_acc w.
Proof.
  intros Hbatch Hrpm. unfold accumulate, bind, lift, floordiv.
  destruct (Z.eqb_spec (BATCH_SIZE cfg) 0) as [Heq|_]; [contradiction|].
  by rewrite (proj1 (truediv_run _ Hrpm)).
Qed.

Lemma accumulate_returns cfg w :
  BATCH_SIZE cfg <> 0 ->
  0 < RPM_LIMIT cfg < float_limit ->
  exists acc w',
    accumulate cfg w = (Ok acc, w')
    /\ loop_inv cfg (float_value (rate_limit_delay cfg)) w empty_acc
         (Z.to_nat (NUM_RECORDS_TO_GENERATE cfg / BATCH_SIZE cfg)) acc w'.
Proof.
  intros Hbatch Hrpm.
  destruct (loop_returns cfg _ (proj2 (truediv_run _ Hrpm))
              (py_range (NUM_RECORDS_TO_GENERATE cfg / BATCH_SIZE cfg)) empty_acc w)
    as (acc & w' & Hrun & Hinv).
  exists acc, w'. rewrite accumulate_run by assumption.
  by rewrite py_range_length in Hinv.
Qed.

(** C2, as the code has it. In every pass of the accumulator loop the
    Retry Controller returns some value; when that value is a non-empty
    list, of whatever length, all its elements are appended to the Corpus
    and [successful_batches] grows by one; when it is anything else
    ([None], an empty list, a value that is not a list) the Corpus stays as
    it is and [failed_batches] grows by one.  Exactly one of the two
    counters changes. *)
Theorem accumulator_pass_outcome cfg acc i w :
  0 < RPM_LIMIT cfg < float_limit ->
  let focus := nth (rng (rng_calls w) mod length categories)%nat categories "" in
  let w1 := log (EvProgress focus (Z.of_nat (length (all_records acc)))
                   (successful_batches acc) (failed_batches acc)) (drawn w) in
  exists delay batch w2 acc',
    truediv (binary64 60) (RPM_LIMIT cfg) = Ok delay
    /\ generate_batch cfg focus default_max_retries w1 = (Ok batch, w2)
    /\ iteration cfg delay acc i w
       = (Ok acc', log (EvSleep (float_value delay)) w2)
    /\ ((exists x items,
            batch = PList (x :: items)
            /\ all_records acc' = all_records acc ++ x :: items
            /\ successful_batches acc' = successful_batches acc + 1
            /\ failed_batches acc' = failed_batches acc)
        \/ ((forall x items, batch <> PList (x :: items))
            /\ all_records acc' = all_records acc
            /\ successful_batches acc' = successful_batches acc
            /\ failed_batches acc' = failed_batches acc + 1)).
Proof.
  intros Hrpm focus w1.
  destruct (truediv_run cfg Hrpm) as [Hdelay Hsleep].
  destruct (iteration_run cfg (rate_limit_delay cfg) acc i w Hsleep)
    as (batch & n & tr & acc' & Hbatch & _ & Hmerge & Hrun).
  exists (rate_limit_delay cfg), batch, (after_requests w1 n tr), acc'.
  split; [exact Hdelay|]. split; [exact Hbatch|]. split; [exact Hrun|].
  destruct (merge_cases acc batch) as [(x & items & Hlist & Hm)|(Hother & Hm)];
    rewrite Hm in Hmerge; injection Hmerge as <-.
  - left. exists x, items. auto.
  - right. auto.
Qed.

(** C10. After each completed pass of the accumulator loop the two
    counters add up to the number of passes made, and neither counter nor
    the length of the Corpus ever goes down from one pass to a later one;
    the state after the last pass is the state the loop ends in. *)
Theorem accumulator_counters_invariant cfg w (j k : nat) :
  BATCH_SIZE cfg <> 0 ->
  0 < RPM_LIMIT cfg < float_limit ->
  (j <= k)%nat ->
  Z.of_nat k <= NUM_RECORDS_TO_GENERATE cfg / BATCH_SIZE cfg ->
  exists acc_j w_j acc_k w_k,
    loop_prefix cfg j w = (Ok acc_j, w_j)
    /\ loop_prefix cfg k w = (Ok acc_k, w_k)
    /\ successful_batches acc_k + failed_batches acc_k = Z.of_nat k
    /\ successful_batches acc_j <= successful_batches acc_k
    /\ failed_batches acc_j <= failed_batches acc_k
    /\ (length (all_records acc_j) <= length (all_records acc_k))%nat
    /\ (Z.of_nat k = NUM_RECORDS_TO_GENERATE cfg / BATCH_SIZE cfg ->
        accumulate cfg w = (Ok acc_k, w_k)).
Proof.
  intros Hbatch Hrpm Hjk Hk.
  pose proof (proj2 (truediv_run cfg Hrpm)) as Hdelay.
  destruct (loop_returns cfg _ Hdelay (py_range (Z.of_nat j)) empty_acc w)
    as (acc_j & w_j & Hrun_j & (_ & Hsum_j & _)).
  destruct (loop_returns cfg _ Hdelay (map Z.of_nat (seq j (k - j))) acc_j w_j)
    as (acc_k & w_k & Hrun_k & (_ & Hsum_k & Hs & Hf & Hlen & _)).
  assert (Hprefix_k : loop_prefix cfg k w = (Ok acc_k, w_k)).
  { rewrite loop_prefix_run, (py_range_split j k), for_each_app by assumption.
    unfold bind. by rewrite Hrun_j. }
  exists acc_j, w_j, acc_k, w_k.
  rewrite py_range_length in Hsum_j. rewrite length_map, length_seq in Hsum_k.
  simpl in Hsum_j.
  split; [by rewrite loop_prefix_run by assumption|]. split; [exact Hprefix_k|].
  split; [lia|]. split; [exact Hs|]. split; [exact Hf|]. split; [exact Hlen|].
  intros Hlast. rewrite accumulate_run by assumption.
  rewrite loop_prefix_run in Hprefix_k by assumption. by rewrite <- Hlast.
Qed.

End LoopFacts.

Lemma progress_count_app a b :
  progress_count (a ++ b) = (progress_count a + progress_count b)%nat.
Proof. unfold progress_count. by rewrite List.filter_app, length_app. Qed.

Lemma progress_count_retry p tr :
  Forall (retry_event p) tr -> progress_count tr = 0%nat.
Proof.
  induction 1 as [|e tr [-> | ->] _ IH]; [reflexivity | exact IH | exact IH].
Qed.

(** Each pass reports its progress once, so the reports count the passes. *)
Lemma progress_count_passes cfg delay passes :
  Forall (pass_events cfg delay) passes ->
  progress_count (concat passes) = length passes.
Proof.
  induction 1 as [|pass passes (focus & r & sb & fb & body & -> & Hbody) _ IH];
    [reflexivity|].
  rewrite concat_cons, progress_count_app, IH.
  change (EvProgress focus r sb fb :: body ++ [EvSleep delay])
    with ([EvProgress focus r sb fb] ++ body ++ [EvSleep delay]).
  rewrite !progress_count_app, (progress_count_retry _ _ Hbody). reflexivity.
Qed.

(** C6. The accumulator loop makes exactly
    [NUM_RECORDS_TO_GENERATE // BATCH_SIZE] passes, 300 with the constants
    of the script; and the Corpus may end below the target even when every
    batch succeeds at full size (a target of 25 in batches of 10 gives two
    passes and 20 records). *)
Theorem accumulator_iteration_count :
  (forall create loads rng cfg w,
      0 <= NUM_RECORDS_TO_GENERATE cfg ->
      0 < BATCH_SIZE cfg ->
      0 < RPM_LIMIT cfg < float_limit ->
      exists acc w',
        accumulate create loads rng cfg w = (Ok acc, w')
        /\ Z.of_nat (progress_count (trace w'))
           = Z.of_nat (progress_count (trace w))
             + NUM_RECORDS_TO_GENERATE cfg / BATCH_SIZE cfg
        /\ successful_batches acc + failed_batches acc
           = NUM_RECORDS_TO_GENERATE cfg / BATCH_SIZE cfg)
  /\ NUM_RECORDS_TO_GENERATE default_config / BATCH_SIZE default_config = 300
  /\ (exists create rng cfg acc w',
        accumulate create json_loads rng cfg initial_world = (Ok acc, w')
        /\ failed_batches acc = 0
        /\ Z.of_nat (length (all_records acc))
           = successful_batches acc * BATCH_SIZE cfg
        /\ Z.of_nat (length (all_records acc)) < NUM_RECORDS_TO_GENERATE cfg).
Proof.
  split; [|split; [reflexivity|]].
  - intros create loads rng cfg w Hnum Hbatch Hrpm.
    destruct (accumulate_returns create loads rng cfg w ltac:(lia) Hrpm)
      as (acc & w' & Hrun & (_ & Hsum & _ & _ & _ & passes & Htrace & Hlen & Hpasses)).
    exists acc, w'. split; [exact Hrun|].
    assert (0 <= NUM_RECORDS_TO_GENERATE cfg / BATCH_SIZE cfg)
      by (apply Z.div_pos; lia).
    split; [|simpl in Hsum; lia].
    rewrite Htrace, progress_count_app, (progress_count_passes _ _ _ Hpasses), Hlen.
    lia.
  - exists (flaky_client 0 (sample_batch 10)), (fun _ => 0%nat),
      {| NUM_RECORDS_TO_GENERATE := 25; BATCH_SIZE := 10; RPM_LIMIT := 5;
         MIN_RECORDS := 25 |}.
    eexists _, _. split; [vm_compute; reflexivity|].
    vm_compute. repeat split.
Qed.

(** When the limit divides 60 the binary64 quotient is the exact one. *)
Lemma exact_delay rpm :
  0 < rpm -> (rpm | 60) ->
  (float_value (SFdiv 53 1024 (binary64 60) (binary64 rpm)) == 60 / inject_Z rpm)%Q.
Proof.
  intros Hpos Hdiv.
  assert (Hle : rpm <= 60) by (apply Z.divide_pos_le; [lia | exact Hdiv]).
  assert (Hall :
    forallb (fun n => if 60 mod n =? 0
                      then Qeq_bool (float_value (SFdiv 53 1024 (binary64 60) (binary64 n)))
                             (60 / inject_Z n)
                      else true)
      (map Z.of_nat (seq 1 60)) = true) by (vm_compute; reflexivity).
  rewrite forallb_forall in Hall.
  specialize (Hall rpm). cbv beta in Hall.
  apply Z.mod_divide in Hdiv; [|lia]. rewrite Hdiv, Z.eqb_refl in Hall.
  apply Qeq_bool_iff, Hall.
  apply in_map_iff. exists (Z.to_nat rpm). split; [lia|]. apply in_seq. lia.
Qed.

(** C9. The rate-limit wait is [60.0 / RPM_LIMIT], computed once before the
    loop as the binary64 quotient of [60.0] by the limit: it is
    [60 / RPM_LIMIT] to within one part in [2^50] (multiplied by the limit
    it differs from 60 by at most [60 / 2^50]), exactly [60 / RPM_LIMIT]
    whenever the limit divides 60, and so 12 for the limit of 5 the script
    sets.  Every pass of the loop ends with a wait of that length, whatever
    happened to its batch. *)
Theorem rate_limit_wait_after_every_pass create loads rng cfg w :
  BATCH_SIZE cfg <> 0 ->
  0 < RPM_LIMIT cfg < float_limit ->
  exists delay acc w' passes,
    truediv (binary64 60) (RPM_LIMIT cfg) = Ok delay
    /\ delay = SFdiv 53 1024 (binary64 60) (binary64 (RPM_LIMIT cfg))
    /\ (Qabs (float_value delay * inject_Z (RPM_LIMIT cfg) - 60) <= 60 # 2 ^ 50)%Q
    /\ ((RPM_LIMIT cfg | 60) ->
        (float_value delay == 60 / inject_Z (RPM_LIMIT cfg))%Q)
    /\ (RPM_LIMIT cfg = 5 -> float_value delay = 12%Q)
    /\ accumulate create loads rng cfg w = (Ok acc, w')
    /\ trace w' = trace w ++ concat passes
    /\ length passes
       = Z.to_nat (NUM_RECORDS_TO_GENERATE cfg / BATCH_SIZE cfg)
    /\ Forall (pass_events cfg (float_value delay)) passes.
Proof.
  intros Hbatch Hrpm.
  destruct (accumulate_returns create loads rng cfg w Hbatch Hrpm)
    as (acc & w' & Hrun & (_ & _ & _ & _ & _ & passes & Htrace & Hlen & Hpasses)).
  exists (rate_limit_delay cfg), acc, w', passes.
  split; [exact (proj1 (truediv_run cfg Hrpm))|]. split; [reflexivity|].
  split; [by apply delay_accuracy|].
  split; [apply exact_delay; lia|].
  split; [intros Hfive; unfold rate_limit_delay; rewrite Hfive; reflexivity|]. auto.
Qed.

(** ** The shortfall gate and the save step *)

Lemma keeps_files_ret {A} (a : A) : keeps_files (ret a).
Proof. intros w. reflexivity. Qed.

Lemma keeps_files_lift {A} (r : res A) : keeps_files (lift r).
Proof. intros w. reflexivity. Qed.

Lemma keeps_files_bind {A B} (m : M A) (k : A -> M B) :
  keeps_files m -> (forall a, keeps_files (k a)) -> keeps_files (bind m k).
Proof.
  intros Hm Hk w. unfold bind. specialize (Hm w).
  destruct (m w) as [[a|e] w1]; simpl in *; [|exact Hm].
  by rewrite Hk.
Qed.

Lemma keeps_files_try_except {A} (body : M A) (handler : exn -> M A) :
  keeps_files body -> (forall e, keeps_files (handler e)) ->
  keeps_files (try_except body handler).
Proof.
  intros Hbody Hhandler w. unfold try_except. specialize (Hbody w).
  destruct (body w) as [[a|e] w1]; simpl in *; [exact Hbody|].
  by rewrite Hhandler.
Qed.

Lemma keeps_files_time_sleep d : keeps_files (time_sleep d).
Proof.
  intros w. unfold time_sleep.
  destruct (seconds d) as [t|e]; [|reflexivity]. by destruct (Qle_bool 0 t).
Qed.

Lemma keeps_files_when b (m : M unit) : keeps_files m -> keeps_files (when b m).
Proof. destruct b; [auto | intros _; apply keeps_files_ret]. Qed.

Lemma keeps_files_for_each {A St} (body : St -> A -> M St) xs :
  (forall s x, keeps_files (body s x)) -> forall s, keeps_files (for_each body xs s).
Proof.
  intros Hbody. induction xs as [|x xs IH]; intros s; simpl.
  - apply keeps_files_ret.
  - apply keeps_files_bind; auto.
Qed.

Create HintDb keeps discriminated.
#[local] Hint Resolve keeps_files_ret keeps_files_lift keeps_files_time_sleep
  keeps_files_when : keeps.

Lemma is_record_fields item :
  is_record item = true ->
  exists p c, py_getitem item "prompt" = Ok p /\ py_getitem item "chosen" = Ok c.
Proof.
  destruct item as [ |b|z|f|t|items|d]; simpl; try discriminate.
  unfold has_field. intros Hfields.
  destruct (dict_get d "category") as [cat|]; [|discriminate].
  destruct (dict_get d "prompt") as [p|]; [|discriminate].
  destruct (dict_get d "chosen") as [c|]; [|discriminate].
  eauto.
Qed.

Lemma sft_view_records records :
  Forall (fun item => is_record item = true) records ->
  exists sft_dataset,
    sft_view records = Ok sft_dataset
    /\ Forall2 (fun item x =>
                  exists p c, py_getitem item "prompt" = Ok p
                              /\ py_getitem item "chosen" = Ok c
                              /\ x = PDict [("prompt", p); ("response", c)])
         records sft_dataset.
Proof.
  induction 1 as [|item records Hitem _ (rest & Hrest & Hall)].
  - exists []. split; [reflexivity | constructor].
  - destruct (is_record_fields item Hitem) as (p & c & Hp & Hc).
    exists (PDict [("prompt", p); ("response", c)] :: rest).
    simpl. unfold sft_item. rewrite Hp, Hc, Hrest.
    split; [reflexivity|]. constructor; eauto.
Qed.

(** When the projection raises, the first document is already written and
    the second is never opened. *)
Lemma save_partial_write records e w :
  sft_view records = Raise e ->
  save records w
  = (Raise e,
     {| api_calls := api_calls w; rng_calls := rng_calls w;
        trace := trace w ++ [EvWrite OUTPUT_RM_FILE];
        files := <[OUTPUT_RM_FILE := PList records]> (files w) |}).
Proof. intros Hview. unfold save, bind, write_file, lift. by rewrite Hview. Qed.

Section GateFacts.

Variable create : nat -> Prompt -> res (option string).
Variable loads : string -> res pyval.
Variable rng : nat -> nat.
Variable stdin : res string.

Lemma keeps_files_retry p mr attempts : keeps_files (retry create loads p mr attempts).
Proof.
  induction attempts as [|attempt rest IH]; simpl; [apply keeps_files_ret|].
  apply keeps_files_bind.
  - apply keeps_files_try_except.
    + apply keeps_files_bind; [|auto with keeps].
      unfold request. apply keeps_files_bind; [by intros w|].
      intros [text|]; [auto with keeps | by intros w].
    + intros e. apply keeps_files_bind; auto with keeps.
  - intros [v|]; [auto with keeps | exact IH].
Qed.

Lemma keeps_files_iteration cfg delay acc i :
  keeps_files (iteration create loads rng cfg delay acc i).
Proof.
  unfold iteration. apply keeps_files_bind; [by intros w|]. intros focus.
  apply keeps_files_bind; [by intros w|]. intros _.
  apply keeps_files_bind; [apply keeps_files_retry|]. intros batch.
  apply keeps_files_bind; [auto with keeps|]. intros acc'.
  apply keeps_files_bind; auto with keeps.
Qed.

(** The accumulator loop writes no document, however it ends. *)
Lemma keeps_files_accumulate cfg : keeps_files (accumulate create loads rng cfg).
Proof.
  unfold accumulate.
  apply keeps_files_bind; [auto with keeps|]. intros total_iterations.
  apply keeps_files_bind; [auto with keeps|]. intros delay.
  apply keeps_files_for_each. intros acc i. apply keeps_files_iteration.
Qed.

(** C3. When the loop ends with fewer than [MIN_RECORDS] records and the
    line typed at the prompt is not a yes (or there is no line to read), the
    run ends right after the prompt: neither output document is written. *)
Theorem shortfall_decline_writes_nothing cfg w acc w1 :
  accumulate create loads rng cfg w = (Ok acc, w1) ->
  Z.of_nat (length (all_records acc)) < MIN_RECORDS cfg ->
  declined stdin ->
  main create loads rng stdin cfg w
  = (match stdin with Ok _ => Ok tt | Raise e => Raise e end, log EvInput w1)
  /\ files (main create loads rng stdin cfg w).2 = files w
  /\ files (main create loads rng stdin cfg w).2 !! OUTPUT_RM_FILE
     = files w !! OUTPUT_RM_FILE
  /\ files (main create loads rng stdin cfg w).2 !! OUTPUT_SFT_FILE
     = files w !! OUTPUT_SFT_FILE.
Proof.
  intros Hrun Hshort Hdeclined.
  assert (Hmain : main create loads rng stdin cfg w
                  = (match stdin with Ok _ => Ok tt | Raise e => Raise e end,
                     log EvInput w1)).
  { unfold main. unfold bind at 1. rewrite Hrun.
    unfold bind at 1. unfold confirm.
    destruct (Z.ltb_spec (Z.of_nat (length (all_records acc))) (MIN_RECORDS cfg))
      as [_|Hge]; [|lia].
    unfold bind, input, ret. unfold declined in Hdeclined.
    destruct stdin as [line|e]; [|reflexivity].
    destruct (String.eqb_spec (py_strip (py_lower line)) "y") as [Hyes|_];
      [contradiction | reflexivity]. }
  assert (Hfiles : files (main create loads rng stdin cfg w).2 = files w).
  { rewrite Hmain. simpl.
    pose proof (keeps_files_accumulate cfg w) as Hkeep.
    by rewrite Hrun in Hkeep. }
  split; [exact Hmain|]. split; [exact Hfiles|]. by rewrite Hfiles.
Qed.

End GateFacts.

(** C7. For a Corpus of [N] Records the projection has [N] elements, the
    [k]-th being the prompt and the chosen answer of the [k]-th Record, and
    the save step writes the Corpus itself as the first document and the
    projection as the second. *)
Theorem projection_matches_corpus (records : list pyval) w :
  Forall (fun item => is_record item = true) records ->
  exists sft_dataset,
    sft_view records = Ok sft_dataset
    /\ length sft_dataset = length records
    /\ (forall k item,
          records !! k = Some item ->
          exists p c,
            py_getitem item "prompt" = Ok p
            /\ py_getitem item "chosen" = Ok c
            /\ sft_dataset !! k = Some (PDict [("prompt", p); ("response", c)]))
    /\ exists w',
        save records w = (Ok tt, w')
        /\ files w' !! OUTPUT_RM_FILE = Some (PList records)
        /\ files w' !! OUTPUT_SFT_FILE = Some (PList sft_dataset).
Proof.
  intros Hrecords.
  destruct (sft_view_records records Hrecords) as (sft_dataset & Hview & Hall).
  exists sft_dataset. split; [exact Hview|].
  split; [symmetry; eapply Forall2_length; eassumption|].
  split.
  - intros k item Hk.
    destruct (Forall2_lookup_l _ _ _ _ _ Hall Hk) as (x & Hx & p & c & Hp & Hc & ->).
    eauto.
  - eexists. unfold save, bind, write_file, lift. rewrite Hview.
    split; [reflexivity|]. simpl. split.
    + rewrite lookup_insert_ne by discriminate. apply lookup_insert_eq.
    + apply lookup_insert_eq.
Qed.

(** C4. A run of the script with its own constants can leave the first
    document written and the second one missing: the accumulator takes any
    non-empty list, and the projection raises on an object without the
    [chosen] key ([KeyError]) and on an element that is not an object
    ([TypeError]), after the first document has been written. *)
Theorem save_can_leave_partial_output :
  (exists create rng stdin w',
      main create json_loads rng stdin default_config initial_world
      = (Raise KeyError, w')
      /\ files w' !! OUTPUT_RM_FILE
         = Some (PList (repeat (PDict [("prompt", PStr "p")]) 300))
      /\ files w' !! OUTPUT_SFT_FILE = None)
  /\ (exists create rng stdin w',
        main create json_loads rng stdin default_config initial_world
        = (Raise TypeError, w')
        /\ files w' !! OUTPUT_RM_FILE = Some (PList (repeat (PInt 1) 300))
        /\ files w' !! OUTPUT_SFT_FILE = None).
Proof.
  split.
  - exists (flaky_client 0 (q "[{'prompt': 'p'}]")), (fun _ => 0%nat), (Ok "y").
    eexists. split; [vm_compute; reflexivity|]. split; vm_compute; reflexivity.
  - exists (flaky_client 0 "[1]"), (fun _ => 0%nat), (Ok "y").
    eexists. split; [vm_compute; reflexivity|]. split; vm_compute; reflexivity.
Qed.

(** ** The division on sample limits *)

(** With the limit of 5 the wait is 12; with a limit of 7 it is the float
    nearest to 60/7, which is not 60/7. *)
Example truediv_samples :
  truediv (binary64 60) 5 = Ok (binary64 12)
  /\ truediv (binary64 60) 7 = Ok (S754_finite false 4825285315039817 (-49))
  /\ float_value (S754_finite false 4825285315039817 (-49))
     = (4825285315039817 # 562949953421312)%Q
  /\ ~ (4825285315039817 # 562949953421312 == 60 / 7)%Q.
Proof. repeat split; try (vm_compute; reflexivity). vm_compute. discriminate. Qed.

(** The limits the division refuses, and what [time.sleep] makes of a
    negative wait. *)
Example truediv_refusals :
  truediv (binary64 60) 0 = Raise ZeroDivisionError
  /\ truediv (binary64 60) float_limit = Raise OverflowError
  /\ truediv (binary64 60) (- float_limit) = Raise OverflowError
  /\ is_ok (truediv (binary64 60) (float_limit - 1)) = true
  /\ (exists delay, truediv (binary64 60) (-5) = Ok delay
                    /\ (time_sleep delay initial_world).1 = Raise ValueError).
Proof.
  repeat split; try (vm_compute; reflexivity).
  eexists. split; vm_compute; reflexivity.
Qed.

(** ** The reader on sample texts *)

Example json_loads_batch :
  json_loads (q "[ {'prompt': 'p\n', 'chosen': 'c'}, [], {}, -12, null, true ]")
  = Ok (PList [PDict [("prompt", PStr (String "p" (String (ascii_of_N 10) EmptyString)));
                      ("chosen", PStr "c")];
               PList []; PDict []; PInt (-12); PNone; PBool true]).
Proof. reflexivity. Qed.

Example json_loads_duplicate_key :
  json_loads (q "{'a': 1, 'b': 2, 'a': 3}") = Ok (PDict [("a", PInt 3); ("b", PInt 2)]).
Proof. reflexivity. Qed.

Example json_loads_rejects :
  map json_loads (map q ["[1,]"; "[1 2]"; "{'a' 1}"; "01"; "-"; "nul"; "[1"; "";
                         "1 1"; "{,}"; "[}"; "'a"; "{'a': 1,}"; "[1]]"])
  = repeat (Raise JSONDecodeError) 14.
Proof. reflexivity. Qed.

Example clean_strips_fences :
  clean (q "  ```json
[{'prompt': 'p'}]
```
") = q "[{'prompt': 'p'}]".
Proof. reflexivity. Qed.

(** ** The retry loop on client stubs *)

(** C1: the client does not validate what it returns.  A completion that
    is an array holding an object with a single field is returned as a
    success. *)
Lemma batches_are_not_validated :
  exists v w',
    generate_batch (flaky_client 0 (q "[{'prompt': 'p'}]")) json_loads
      default_config "Poor Logic" 3 initial_world = (Ok v, w')
    /\ v = PList [PDict [("prompt", PStr "p")]]
    /\ valid_batch v = false
    /\ ~ batches_are_validated.
Proof.
  eexists _, _. split; [vm_compute; reflexivity|].
  split; [reflexivity|]. split; [reflexivity|].
  intros H.
  eassert (E : generate_batch (flaky_client 0 (q "[{'prompt': 'p'}]")) json_loads
                 default_config "Poor Logic" 3 initial_world
               = (Ok (PList [PDict [("prompt", PStr "p")]]), _))
    by (vm_compute; reflexivity).
  pose proof (H _ _ _ _ _ _ _ E ltac:(discriminate)) as Hvalid.
  discriminate Hvalid.
Qed.

(** C8: a completion that reads [null] parses, so the attempt raises
    nothing and its value, [None], is returned at once.  The Batch the next
    request would have brought is never asked for. *)
Lemma null_completion_ends_the_retries :
  exists w',
    generate_batch (scripted_client ["null"; sample_batch 2]) json_loads
      default_config "Poor Logic" 3 initial_world = (Ok PNone, w')
    /\ api_calls w' = 1%nat
    /\ attempt_result (scripted_client ["null"; sample_batch 2]) json_loads
         {| batch_size := 10; focus_category := "Poor Logic" |} 0 = Ok PNone
    /\ (exists v,
          attempt_result (scripted_client ["null"; sample_batch 2]) json_loads
            {| batch_size := 10; focus_category := "Poor Logic" |} 1 = Ok v
          /\ valid_batch v = true)
    /\ ~ first_non_null_batch_is_returned.
Proof.
  eexists. split; [vm_compute; reflexivity|]. split; [reflexivity|].
  split; [vm_compute; reflexivity|].
  split; [eexists; split; vm_compute; reflexivity|].
  intros H.
  eassert (Hsecond : attempt_result (scripted_client ["null"; sample_batch 2])
                       json_loads
                       {| batch_size := BATCH_SIZE default_config;
                          focus_category := "Poor Logic" |}
                       (api_calls initial_world + 1) = Ok _)
    by (vm_compute; reflexivity).
  assert (Hfirst : forall j, (j < 1)%nat ->
            attempt_fails (scripted_client ["null"; sample_batch 2]) json_loads
              {| batch_size := BATCH_SIZE default_config;
                 focus_category := "Poor Logic" |}
              (api_calls initial_world + j)
            \/ attempt_result (scripted_client ["null"; sample_batch 2]) json_loads
                 {| batch_size := BATCH_SIZE default_config;
                    focus_category := "Poor Logic" |}
                 (api_calls initial_world + j) = Ok PNone).
  { intros j Hj. right. assert (j = 0%nat) as -> by lia. reflexivity. }
  pose proof (H (scripted_client ["null"; sample_batch 2]) json_loads
                default_config "Poor Logic" 3 initial_world 1%nat _
                ltac:(lia) Hfirst Hsecond ltac:(discriminate)) as Hret.
  vm_compute in Hret. discriminate Hret.
Qed.

Lemma generate_batch_returns_first_parse_witness :
  (generate_batch (flaky_client 1 (q "{'prompt': 7}")) json_loads
     default_config "Poor Logic" 3 initial_world).1
  = Ok (PDict [("prompt", PInt 7)])
  /\ exists k text,
      Z.of_nat k < 3
      /\ (forall j, (j < k)%nat ->
            attempt_fails (flaky_client 1 (q "{'prompt': 7}")) json_loads
              {| batch_size := 10; focus_category := "Poor Logic" |} (0 + j))
      /\ flaky_client 1 (q "{'prompt': 7}") (0 + k)%nat
           {| batch_size := 10; focus_category := "Poor Logic" |} = Ok (Some text)
      /\ json_loads (clean text) = Ok (PDict [("prompt", PInt 7)]).
Proof.
  pose proof (generate_batch_returns_first_parse
                (flaky_client 1 (q "{'prompt': 7}")) json_loads
                default_config "Poor Logic" 3 initial_world) as [Hfwd Hback].
  split.
  - apply (Hfwd 1%nat).
    + lia.
    + intros j Hj. assert (j = 0%nat) as -> by lia. reflexivity.
    + reflexivity.
  - apply Hback; [reflexivity | discriminate].
Defined.

Lemma retry_controller_call_counts_witness :
  let p := {| batch_size := 10; focus_category := "Poor Logic" |} in
  generate_batch (flaky_client 2 "[]") json_loads default_config "Poor Logic" 3
    initial_world
  = (Ok (PList []),
     after_requests initial_world 3
       ([EvRequest p; EvSleep 5; EvRequest p; EvSleep 5] ++ [EvRequest p]))
  /\ generate_batch dead_client json_loads default_config "Poor Logic" 3
       initial_world
     = (Ok PNone,
        after_requests initial_world 3
          ([EvRequest p; EvSleep 5; EvRequest p; EvSleep 5] ++ [EvRequest p])).
Proof.
  intros p.
  pose proof (retry_controller_call_counts (flaky_client 2 "[]") json_loads
                default_config "Poor Logic" 3 2 initial_world) as [Hsucc _].
  pose proof (retry_controller_call_counts dead_client json_loads
                default_config "Poor Logic" 3 0 initial_world) as (_ & Hfail & _).
  split.
  - apply Hsucc.
    + lia.
    + intros j Hj. destruct j as [|[|j]]; [reflexivity | reflexivity | lia].
    + reflexivity.
  - apply Hfail; [lia | intros j Hj; reflexivity].
Defined.

(** ** The accumulator loop on client stubs *)

(** C2: an empty list is a Batch the Retry Controller can return, and the
    loop counts it as a failed batch. *)
Lemma empty_batch_is_counted_as_failure :
  exists w2 w',
    generate_batch (flaky_client 0 "[]") json_loads default_config
      "Good Question" default_max_retries
      (log (EvProgress "Good Question" 0 0 0) (drawn initial_world))
    = (Ok (PList []), w2)
    /\ truediv (binary64 60) (RPM_LIMIT default_config)
       = Ok (rate_limit_delay default_config)
    /\ iteration (flaky_client 0 "[]") json_loads (fun _ => 0%nat)
         default_config (rate_limit_delay default_config)
         empty_acc 0 initial_world
       = (Ok {| all_records := []; successful_batches := 0;
                failed_batches := 1 |}, w')
    /\ ~ every_returned_batch_is_a_success.
Proof.
  eexists _, _.
  split; [vm_compute; reflexivity|]. split; [vm_compute; reflexivity|].
  split; [vm_compute; reflexivity|].
  intros H.
  eassert (Hbatch : generate_batch (flaky_client 0 "[]") json_loads default_config
                      "Good Question" default_max_retries
                      (log (EvProgress "Good Question"
                              (Z.of_nat (length (all_records empty_acc)))
                              (successful_batches empty_acc)
                              (failed_batches empty_acc)) (drawn initial_world))
                    = (Ok (PList []), _))
    by (vm_compute; reflexivity).
  eassert (Hpass : iteration (flaky_client 0 "[]") json_loads (fun _ => 0%nat)
                     default_config (rate_limit_delay default_config)
                     empty_acc 0 initial_world
                   = (Ok {| all_records := []; successful_batches := 0;
                            failed_batches := 1 |}, _))
    by (vm_compute; reflexivity).
  assert (Hdelay : truediv (binary64 60) (RPM_LIMIT default_config)
                   = Ok (rate_limit_delay default_config))
    by (vm_compute; reflexivity).
  destruct (H (flaky_client 0 "[]") json_loads (fun _ => 0%nat) default_config
              empty_acc 0 initial_world "Good Question" [] _ _ _ _
              Hbatch eq_refl Hdelay Hpass) as (_ & Hsuccess & _).
  discriminate Hsuccess.
Qed.

Lemma accumulator_pass_outcome_witness :
  let create := flaky_client 0 (sample_batch 2) in
  let w1 := log (EvProgress "Good Question" 0 0 0) (drawn initial_world) in
  exists delay batch w2 acc',
    truediv (binary64 60) 5 = Ok delay
    /\ generate_batch create json_loads default_config "Good Question" 3 w1
       = (Ok batch, w2)
    /\ iteration create json_loads (fun _ => 0%nat) default_config
         delay empty_acc 0 initial_world
       = (Ok acc', log (EvSleep (float_value delay)) w2)
    /\ ((exists x items,
            batch = PList (x :: items)
            /\ all_records acc' = [] ++ x :: items
            /\ successful_batches acc' = 0 + 1
            /\ failed_batches acc' = 0)
        \/ ((forall x items, batch <> PList (x :: items))
            /\ all_records acc' = []
            /\ successful_batches acc' = 0
            /\ failed_batches acc' = 0 + 1)).
Proof.
  intros create w1.
  apply (accumulator_pass_outcome create json_loads (fun _ => 0%nat)
           default_config empty_acc 0 initial_world).
  by_evaluation.
Defined.

Lemma accumulator_counters_invariant_witness :
  exists acc_j w_j acc_k w_k,
    loop_prefix (flaky_client 4 (sample_batch 2)) json_loads (fun _ => 0%nat)
      default_config 1 initial_world = (Ok acc_j, w_j)
    /\ loop_prefix (flaky_client 4 (sample_batch 2)) json_loads (fun _ => 0%nat)
         default_config 3 initial_world = (Ok acc_k, w_k)
    /\ successful_batches acc_k + failed_batches acc_k = 3
    /\ successful_batches acc_j <= successful_batches acc_k
    /\ failed_batches acc_j <= failed_batches acc_k
    /\ (length (all_records acc_j) <= length (all_records acc_k))%nat
    /\ (3 = 3000 / 10 ->
        accumulate (flaky_client 4 (sample_batch 2)) json_loads (fun _ => 0%nat)
          default_config initial_world = (Ok acc_k, w_k)).
Proof.
  apply (accumulator_counters_invariant (flaky_client 4 (sample_batch 2))
           json_loads (fun _ => 0%nat) default_config initial_world 1 3);
    by_evaluation.
Defined.

Lemma accumulator_iteration_count_witness :
  exists acc w',
    accumulate dead_client json_loads (fun _ => 0%nat) default_config initial_world
    = (Ok acc, w')
    /\ Z.of_nat (progress_count (trace w')) = 0 + 3000 / 10
    /\ successful_batches acc + failed_batches acc = 3000 / 10.
Proof.
  apply (proj1 accumulator_iteration_count dead_client json_loads
           (fun _ => 0%nat) default_config initial_world); by_evaluation.
Defined.

Lemma rate_limit_wait_after_every_pass_witness :
  exists delay acc w' passes,
    truediv (binary64 60) 5 = Ok delay
    /\ delay = SFdiv 53 1024 (binary64 60) (binary64 5)
    /\ (Qabs (float_value delay * inject_Z 5 - 60) <= 60 # 2 ^ 50)%Q
    /\ ((5 | 60) -> (float_value delay == 60 / inject_Z 5)%Q)
    /\ (5 = 5 -> float_value delay = 12%Q)
    /\ accumulate dead_client json_loads (fun _ => 0%nat) default_config
         initial_world = (Ok acc, w')
    /\ trace w' = [] ++ concat passes
    /\ length passes = Z.to_nat (3000 / 10)
    /\ Forall (pass_events default_config (float_value delay)) passes.
Proof.
  apply (rate_limit_wait_after_every_pass dead_client json_loads (fun _ => 0%nat)
           default_config initial_world); by_evaluation.
Defined.

(** ** The gate and the save step on sample runs *)

Lemma shortfall_decline_writes_nothing_witness :
  files (main dead_client json_loads (fun _ => 0%nat) (Ok "no") default_config
           initial_world).2 = files initial_world.
Proof.
  eassert (Hrun : accumulate dead_client json_loads (fun _ => 0%nat)
                    default_config initial_world = (Ok _, _))
    by (vm_compute; reflexivity).
  destruct (shortfall_decline_writes_nothing dead_client json_loads
              (fun _ => 0%nat) (Ok "no") default_config initial_world _ _ Hrun)
    as (_ & Hfiles & _).
  - vm_compute. reflexivity.
  - vm_compute. discriminate.
  - exact Hfiles.
Defined.

Lemma projection_matches_corpus_witness :
  let records :=
    [PDict [("category", PStr "Poor Logic"); ("prompt", PStr "p1");
            ("chosen", PStr "c1"); ("rejected", PStr "r1")];
     PDict [("category", PStr "Good Question"); ("prompt", PStr "p2");
            ("chosen", PStr "c2"); ("rejected", PStr "r2")]] in
  exists sft_dataset,
    sft_view records = Ok sft_dataset
    /\ length sft_dataset = length records
    /\ (forall k item,
          records !! k = Some item ->
          exists p c,
            py_getitem item "prompt" = Ok p
            /\ py_getitem item "chosen" = Ok c
            /\ sft_dataset !! k = Some (PDict [("prompt", p); ("response", c)]))
    /\ exists w',
        save records initial_world = (Ok tt, w')
        /\ files w' !! OUTPUT_RM_FILE = Some (PList records)
        /\ files w' !! OUTPUT_SFT_FILE = Some (PList sft_dataset).
Proof.
  intros records.
  apply (projection_matches_corpus records initial_world).
  repeat constructor.
Defined.

(** ** More on the accumulator loop: the Corpus and the request budget *)

Section CorpusFacts.

Variable create : nat -> Prompt -> res (option string).
Variable loads : string -> res pyval.
Variable rng : nat -> nat.

Local Abbreviation retry := (retry create loads).
Local Abbreviation generate_batch := (generate_batch create loads).
Local Abbreviation iteration := (iteration create loads rng).
Local Abbreviation accumulate := (accumulate create loads rng).
Local Abbreviation loop_prefix := (loop_prefix create loads rng).

(** The retry loop sends at least one request when it is allowed any, and
    never more than it is allowed. *)
Lemma retry_request_count p mr attempts : forall w r w',
  retry p mr attempts w = (r, w') ->
  (api_calls w + Nat.min 1 (length attempts) <= api_calls w'
   /\ api_calls w' <= api_calls w + length attempts)%nat.
Proof.
  induction attempts as [|attempt rest IH]; intros w r w' Hrun.
  - injection Hrun as _ <-. simpl. lia.
  - revert Hrun. simpl retry. unfold bind at 1. unfold try_except. unfold bind at 1.
    rewrite request_run.
    destruct (attempt_result create loads p (api_calls w)) as [v|e].
    + intros [= _ <-]. simpl. lia.
    + unfold when. destruct (attempt <? mr - 1).
      * unfold bind at 1. rewrite sleep_5_run. simpl.
        intros Hrest. apply IH in Hrest. simpl in Hrest |- *. lia.
      * unfold bind at 1. simpl.
        intros Hrest. apply IH in Hrest. simpl in Hrest |- *. lia.
Qed.

(** What one pass does to the Corpus, the counters and the request count. *)
Lemma iteration_effect cfg delay acc i w :
  sleep_accepts delay ->
  exists acc' w',
    iteration cfg delay acc i w = (Ok acc', w')
    /\ (api_calls w + 1 <= api_calls w' <= api_calls w + 3)%nat
    /\ ((exists x items,
            all_records acc' = all_records acc ++ x :: items
            /\ successful_batches acc' = successful_batches acc + 1)
        \/ (all_records acc' = all_records acc
            /\ successful_batches acc' = successful_batches acc)).
Proof.
  intros Hdelay.
  destruct (iteration_run create loads rng cfg delay acc i w Hdelay)
    as (batch & n & tr & acc' & Hbatch & _ & Hmerge & Hrun).
  eexists acc', _. split; [exact Hrun|]. split.
  - apply retry_request_count in Hbatch. simpl in Hbatch |- *. lia.
  - destruct (merge_cases acc batch) as [(x & items & _ & Hm)|(_ & Hm)];
      rewrite Hm in Hmerge; injection Hmerge as <-; simpl; eauto.
Qed.

Lemma corpus_inv_start w0 acc0 : corpus_inv w0 acc0 0 acc0 w0.
Proof.
  split; [|lia]. exists []. simpl. rewrite app_nil_r.
  split; [reflexivity|]. split; [lia | constructor].
Qed.

Lemma iteration_keeps_corpus_inv cfg delay w0 acc0 :
  sleep_accepts delay ->
  forall k i acc w,
    corpus_inv w0 acc0 k acc w ->
    exists acc' w',
      iteration cfg delay acc i w = (Ok acc', w')
      /\ corpus_inv w0 acc0 (S k) acc' w'.
Proof.
  intros Hdelay k i acc w ((batches & Hrecords & Hcount & Hnonempty) & Hcalls).
  destruct (iteration_effect cfg delay acc i w Hdelay)
    as (acc' & w' & Hrun & Hreq & Hcases).
  exists acc', w'. split; [exact Hrun|]. split; [|lia].
  destruct Hcases as [(x & items & Hrec' & Hs')|(Hrec' & Hs')].
  - exists (batches ++ [x :: items]).
    rewrite Hrec', Hrecords, concat_app, length_app. simpl.
    rewrite app_nil_r, <- app_assoc. split; [reflexivity|]. split; [lia|].
    apply Forall_app. split; [exact Hnonempty|]. constructor; [discriminate|constructor].
  - exists batches. rewrite Hrec', Hs'. auto.
Qed.

Lemma loop_corpus cfg delay :
  sleep_accepts delay ->
  forall xs acc0 w0,
    exists acc w,
      for_each (iteration cfg delay) xs acc0 w0 = (Ok acc, w)
      /\ corpus_inv w0 acc0 (length xs) acc w.
Proof.
  intros Hdelay xs acc0 w0.
  apply (for_each_invariant (iteration cfg delay) (corpus_inv w0 acc0)
           (fun k i acc w => iteration_keeps_corpus_inv cfg delay w0 acc0 Hdelay k i acc w)
           xs 0%nat acc0 w0).
  apply corpus_inv_start.
Qed.

(** X1. The Corpus only ever grows at its end: what it holds after [j]
    passes is an initial segment of what it holds after any later pass, so
    records are never dropped, changed or reordered. *)
Theorem corpus_grows_by_appending cfg w (j k : nat) :
  0 < RPM_LIMIT cfg < float_limit ->
  (j <= k)%nat ->
  exists acc_j w_j acc_k w_k,
    loop_prefix cfg j w = (Ok acc_j, w_j)
    /\ loop_prefix cfg k w = (Ok acc_k, w_k)
    /\ all_records acc_j `prefix_of` all_records acc_k.
Proof.
  intros Hrpm Hjk.
  pose proof (proj2 (truediv_run cfg Hrpm)) as Hdelay.
  destruct (loop_corpus cfg _ Hdelay (py_range (Z.of_nat j)) empty_acc w)
    as (acc_j & w_j & Hrun_j & _).
  destruct (loop_corpus cfg _ Hdelay (map Z.of_nat (seq j (k - j))) acc_j w_j)
    as (acc_k & w_k & Hrun_k & ((batches & Hrecords & _) & _)).
  exists acc_j, w_j, acc_k, w_k.
  rewrite !loop_prefix_run by assumption.
  split; [exact Hrun_j|]. split.
  - rewrite (py_range_split j k), for_each_app by lia.
    unfold bind. by rewrite Hrun_j.
  - exists (concat batches). exact Hrecords.
Qed.

Lemma accepted_records_app a b :
  accepted_records (a ++ b) = accepted_records a ++ accepted_records b.
Proof.
  induction a as [|v a IH]; [reflexivity|].
  destruct v; simpl; rewrite IH; try reflexivity. by rewrite app_assoc.
Qed.

Lemma accepted_count returned :
  (length (List.filter is_accepted returned) <= length (accepted_records returned))%nat.
Proof.
  induction returned as [|v returned IH]; [simpl; lia|].
  destruct v as [ |b|z|f|t|items|d]; simpl; try exact IH.
  destruct items; simpl; rewrite ?length_app; simpl; lia.
Qed.

Lemma accepted_none returned :
  List.filter is_accepted returned = [] -> accepted_records returned = [].
Proof.
  induction returned as [|v returned IH]; [reflexivity|].
  destruct v as [ |b|z|f|t|items|d]; simpl; try exact IH.
  destruct items; [exact IH | discriminate].
Qed.

(** The loop cut after one more pass. *)
Lemma loop_prefix_S cfg k w acc w_k :
  0 < RPM_LIMIT cfg < float_limit ->
  loop_prefix cfg k w = (Ok acc, w_k) ->
  loop_prefix cfg (S k) w
  = (acc' <- iteration cfg (rate_limit_delay cfg) acc (Z.of_nat k) ;; ret acc') w_k.
Proof.
  intros Hrpm Hk. rewrite loop_prefix_run in Hk |- * by assumption.
  rewrite (py_range_split k (S k)), for_each_app by lia.
  unfold bind at 1. rewrite Hk.
  by replace (S k - k)%nat with 1%nat by lia.
Qed.

(** The values the Retry Controller returns to the passes of the loop, and
    what the loop has made of them after [k] passes. *)
Lemma loop_returned cfg w :
  0 < RPM_LIMIT cfg < float_limit ->
  forall k, exists acc w_k returned,
    loop_prefix cfg k w = (Ok acc, w_k)
    /\ length returned = k
    /\ (forall j batch,
          returned !! j = Some batch ->
          exists acc_j w_j w2 acc',
            loop_prefix cfg j w = (Ok acc_j, w_j)
            /\ generate_batch cfg (pass_focus rng w_j) default_max_retries
                 (pass_request rng acc_j w_j) = (Ok batch, w2)
            /\ merge acc_j batch = Ok acc'
            /\ (loop_prefix cfg (S j) w).1 = Ok acc')
    /\ all_records acc = accepted_records returned
    /\ successful_batches acc
       = Z.of_nat (length (List.filter is_accepted returned))
    /\ failed_batches acc
       = Z.of_nat (length (List.filter (fun b => negb (is_accepted b)) returned)).
Proof.
  intros Hrpm. pose proof (proj2 (truediv_run cfg Hrpm)) as Hdelay.
  induction k as [|k (acc & w_k & returned & Hrun & Hlen & Hpasses & Hrec & Hs & Hf)].
  - exists empty_acc, w, []. rewrite loop_prefix_run by assumption.
    repeat split. intros j batch Hj. discriminate Hj.
  - destruct (iteration_run create loads rng cfg (rate_limit_delay cfg) acc
                (Z.of_nat k) w_k Hdelay)
      as (batch & n & tr & acc' & Hbatch & _ & Hmerge & Hpass).
    assert (Hnext : loop_prefix cfg (S k) w
                    = (Ok acc', log (EvSleep (float_value (rate_limit_delay cfg)))
                                  (after_requests (pass_request rng acc w_k) n tr))).
    { rewrite (loop_prefix_S cfg k w acc w_k) by assumption.
      unfold bind. by rewrite Hpass. }
    eexists acc', _, (returned ++ [batch]).
    split; [exact Hnext|]. split; [rewrite length_app; simpl; lia|]. split.
    { intros j b [Hj|[Hj Hlast]]%lookup_app_Some.
      - by apply Hpasses.
      - rewrite Hlen in Hj, Hlast.
        destruct (j - k)%nat as [|m] eqn:Hm; [|destruct m; discriminate].
        injection Hlast as <-. assert (j = k) as -> by lia.
        exists acc, w_k, (after_requests (pass_request rng acc w_k) n tr), acc'.
        split; [exact Hrun|]. split; [exact Hbatch|]. split; [exact Hmerge|].
        by rewrite Hnext. }
    rewrite accepted_records_app, !List.filter_app, !length_app.
    destruct (merge_cases acc batch) as [(x & items & -> & Hm)|(Hother & Hm)];
      rewrite Hm in Hmerge; injection Hmerge as <-; simpl.
    + rewrite app_nil_r, Hrec, Hs, Hf. repeat split; lia.
    + assert (Hnone : accepted_records [batch] = [] /\ is_accepted batch = false).
      { destruct batch as [ |b|z|f|t|items|d]; try (by split).
        destruct items as [|x items]; [by split|]. by destruct (Hother x items). }
      destruct Hnone as [Hnone Hno]. simpl in Hnone.
      rewrite Hno. simpl.
      replace (match batch with PList items => items ++ [] | _ => [] end)
        with (@nil pyval) by (symmetry; exact Hnone).
      rewrite app_nil_r, Hrec, Hs, Hf. repeat split; lia.
Qed.

(** X2. When the loop ends, the Corpus is the concatenation, in pass
    order, of the non-empty lists among the values the Retry Controller
    returned to the passes, one value per pass; [successful_batches] counts
    those non-empty lists and [failed_batches] the other values.  So the
    Corpus holds at least one record per successful batch, and is empty
    when no batch succeeded. *)
Theorem corpus_is_the_successful_batches cfg w :
  BATCH_SIZE cfg <> 0 ->
  0 < RPM_LIMIT cfg < float_limit ->
  exists acc w' returned,
    accumulate cfg w = (Ok acc, w')
    /\ length returned
       = Z.to_nat (NUM_RECORDS_TO_GENERATE cfg / BATCH_SIZE cfg)
    /\ (forall k batch,
          returned !! k = Some batch ->
          exists acc_k w_k w2 acc',
            loop_prefix cfg k w = (Ok acc_k, w_k)
            /\ generate_batch cfg (pass_focus rng w_k) default_max_retries
                 (pass_request rng acc_k w_k) = (Ok batch, w2)
            /\ merge acc_k batch = Ok acc'
            /\ (loop_prefix cfg (S k) w).1 = Ok acc')
    /\ all_records acc = accepted_records returned
    /\ successful_batches acc
       = Z.of_nat (length (List.filter is_accepted returned))
    /\ failed_batches acc
       = Z.of_nat (length (List.filter (fun b => negb (is_accepted b)) returned))
    /\ successful_batches acc <= Z.of_nat (length (all_records acc))
    /\ (successful_batches acc = 0 -> all_records acc = []).
Proof.
  intros Hbatch Hrpm.
  destruct (loop_returned cfg w Hrpm
              (Z.to_nat (NUM_RECORDS_TO_GENERATE cfg / BATCH_SIZE cfg)))
    as (acc & w' & returned & Hrun & Hlen & Hpasses & Hrec & Hs & Hf).
  exists acc, w', returned.
  split.
  { rewrite accumulate_run by assumption.
    rewrite loop_prefix_run in Hrun by assumption.
    unfold py_range in Hrun |- *. by rewrite Nat2Z.id in Hrun. }
  split; [exact Hlen|]. split; [exact Hpasses|]. split; [exact Hrec|].
  split; [exact Hs|]. split; [exact Hf|]. split.
  - rewrite Hs, Hrec. pose proof (accepted_count returned). lia.
  - intros Hzero. rewrite Hrec. apply accepted_none.
    rewrite Hs in Hzero. by destruct (List.filter is_accepted returned).
Qed.

(** X3. The request budget of the loop: with the default of three
    attempts per batch, the loop sends at least one and at most three
    requests per pass, so between [n] and [3 n] requests for its [n]
    passes. *)
Theorem loop_request_budget cfg w :
  BATCH_SIZE cfg <> 0 ->
  0 < RPM_LIMIT cfg < float_limit ->
  exists acc w',
    accumulate cfg w = (Ok acc, w')
    /\ let n := Z.to_nat (NUM_RECORDS_TO_GENERATE cfg / BATCH_SIZE cfg) in
       (api_calls w + n <= api_calls w' <= api_calls w + 3 * n)%nat.
Proof.
  intros Hbatch Hrpm.
  destruct (loop_corpus cfg _ (proj2 (truediv_run cfg Hrpm))
              (py_range (NUM_RECORDS_TO_GENERATE cfg / BATCH_SIZE cfg)) empty_acc w)
    as (acc & w' & Hrun & (_ & Hcalls)).
  exists acc, w'. rewrite accumulate_run by assumption.
  rewrite py_range_length in Hcalls. auto.
Qed.

End CorpusFacts.

(** ** More on the gate and the save step *)

Section OutputFacts.

Variable create : nat -> Prompt -> res (option string).
Variable loads : string -> res pyval.
Variable rng : nat -> nat.
Variable stdin : res string.

Local Abbreviation accumulate := (accumulate create loads rng).
Local Abbreviation main := (main create loads rng stdin).

(** X4. Whatever the configuration, the endpoint, the reader and the input
    do, a run ends in one of three ways: nothing is written; the loop has
    returned and only the first document is written, holding the Corpus the
    loop ended with, and the run raises what the projection of that Corpus
    raised; or the loop has returned, both documents are written, the first
    holding that Corpus and the second its projection, and the run returns.
    No other path is ever written, and the second document is never
    written without the first. *)
Theorem main_writes_nothing_one_or_both cfg w :
  files (main cfg w).2 = files w
  \/ (exists acc w1 e,
        accumulate cfg w = (Ok acc, w1)
        /\ (main cfg w).1 = Raise e
        /\ sft_view (all_records acc) = Raise e
        /\ files (main cfg w).2
           = <[OUTPUT_RM_FILE := PList (all_records acc)]> (files w))
  \/ (exists acc w1 sft_dataset,
        accumulate cfg w = (Ok acc, w1)
        /\ (main cfg w).1 = Ok tt
        /\ sft_view (all_records acc) = Ok sft_dataset
        /\ files (main cfg w).2
           = <[OUTPUT_SFT_FILE := PList sft_dataset]>
               (<[OUTPUT_RM_FILE := PList (all_records acc)]> (files w))).
Proof.
  pose proof (keeps_files_accumulate create loads rng cfg w) as Hkeep.
  remember (main cfg w) as result eqn:Hresult.
  unfold main in Hresult. unfold bind at 1 in Hresult.
  destruct (accumulate cfg w) as [[acc|e] w1] eqn:Hloop; simpl in Hkeep;
    [|subst result; by left].
  assert (Hsave : forall w2, files w2 = files w ->
            files (save (all_records acc) w2).2 = files w
            \/ (exists acc0 w0 e,
                  (Ok acc, w1) = (Ok acc0, w0)
                  /\ (save (all_records acc) w2).1 = Raise e
                  /\ sft_view (all_records acc0) = Raise e
                  /\ files (save (all_records acc) w2).2
                     = <[OUTPUT_RM_FILE := PList (all_records acc0)]> (files w))
            \/ (exists acc0 w0 sft_dataset,
                  (Ok acc, w1) = (Ok acc0, w0)
                  /\ (save (all_records acc) w2).1 = Ok tt
                  /\ sft_view (all_records acc0) = Ok sft_dataset
                  /\ files (save (all_records acc) w2).2
                     = <[OUTPUT_SFT_FILE := PList sft_dataset]>
                         (<[OUTPUT_RM_FILE := PList (all_records acc0)]> (files w)))).
  { intros w2 Hw2. unfold save, bind, write_file, lift.
    destruct (sft_view (all_records acc)) as [sft_dataset|e] eqn:Hview; simpl.
    - right. right. exists acc, w1, sft_dataset. by rewrite Hw2.
    - right. left. exists acc, w1, e. by rewrite Hw2. }
  unfold bind at 1 in Hresult. unfold confirm in Hresult.
  destruct (Z.of_nat (length (all_records acc)) <? MIN_RECORDS cfg).
  - unfold bind, input, ret in Hresult.
    destruct stdin as [line|e]; [|subst result; by left].
    destruct (String.eqb (py_strip (py_lower line)) "y");
      [|subst result; by left].
    subst result. exact (Hsave (log EvInput w1) Hkeep).
  - subst result. exact (Hsave w1 Hkeep).
Qed.

(** X5. A run whose Corpus holds Records goes through when there is no
    shortfall, without asking, and when the line typed at the prompt is a
    yes: it returns, the first document is the Corpus, and the second has
    one element per Record.  The prompt is shown exactly when there is a
    shortfall. *)
Theorem main_saves_both_documents cfg w acc w1 :
  accumulate cfg w = (Ok acc, w1) ->
  Forall (fun item => is_record item = true) (all_records acc) ->
  MIN_RECORDS cfg <= Z.of_nat (length (all_records acc))
  \/ (exists line, stdin = Ok line /\ py_strip (py_lower line) = "y") ->
  exists sft_dataset w',
    main cfg w = (Ok tt, w')
    /\ files w' !! OUTPUT_RM_FILE = Some (PList (all_records acc))
    /\ files w' !! OUTPUT_SFT_FILE = Some (PList sft_dataset)
    /\ length sft_dataset = length (all_records acc)
    /\ trace w'
       = trace w1
         ++ (if Z.of_nat (length (all_records acc)) <? MIN_RECORDS cfg
             then [EvInput] else [])
         ++ [EvWrite OUTPUT_RM_FILE; EvWrite OUTPUT_SFT_FILE].
Proof.
  intros Hrun Hrecords Hgo.
  destruct (sft_view_records _ Hrecords) as (sft_dataset & Hview & Hall).
  exists sft_dataset.
  assert (Hconfirm : exists w2,
            confirm stdin cfg (all_records acc) w1 = (Ok true, w2)
            /\ files w2 = files w1
            /\ trace w2
               = trace w1
                 ++ (if Z.of_nat (length (all_records acc)) <? MIN_RECORDS cfg
                     then [EvInput] else [])).
  { unfold confirm.
    destruct (Z.ltb_spec (Z.of_nat (length (all_records acc))) (MIN_RECORDS cfg))
      as [Hshort|_].
    - destruct Hgo as [Hge|(line & Hline & Hyes)]; [lia|].
      exists (log EvInput w1). unfold bind, input, ret. rewrite Hline, Hyes.
      auto.
    - exists w1. unfold ret. rewrite app_nil_r. auto. }
  destruct Hconfirm as (w2 & Hconfirm & Hfiles2 & Htrace2).
  eexists. unfold main. unfold bind at 1. rewrite Hrun.
  unfold bind at 1. rewrite Hconfirm.
  unfold save, bind, write_file, lift. rewrite Hview.
  split; [reflexivity|]. simpl.
  split; [rewrite lookup_insert_ne by discriminate; apply lookup_insert_eq|].
  split; [apply lookup_insert_eq|].
  split; [symmetry; eapply Forall2_length; eassumption|].
  rewrite Htrace2, <- !app_assoc. reflexivity.
Qed.

End OutputFacts.

(** ** Text: [strip], [replace] and the cleaning of a completion *)

Lemma prefix_cons a s1 b s2 :
  String.prefix (String a s1) (String b s2)
  = Ascii.eqb a b && String.prefix s1 s2.
Proof.
  simpl. destruct (ascii_dec a b) as [->|Hne].
  - by rewrite Ascii.eqb_refl.
  - apply Ascii.eqb_neq in Hne. by rewrite Hne.
Qed.

Lemma prefix_nil_l s : String.prefix EmptyString s = true.
Proof. by destruct s. Qed.

Lemma append_cons c a b :
  (String c a ++ b)%string = String c (a ++ b)%string.
Proof. reflexivity. Qed.

Lemma append_nil_l b : (EmptyString ++ b)%string = b.
Proof. reflexivity. Qed.

Lemma prefix_app_l a b s :
  String.prefix (a ++ b)%string s = true -> String.prefix a s = true.
Proof.
  revert s. induction a as [|c a IH]; intros s; [by rewrite prefix_nil_l|].
  destruct s as [|d s]; [discriminate|].
  rewrite ?append_cons, !prefix_cons.
  intros [Hcd Hrest]%andb_prop. rewrite Hcd. simpl. by apply IH.
Qed.

Lemma prefix_app_r sub p b :
  String.prefix sub p = true -> String.prefix sub (p ++ b)%string = true.
Proof.
  revert p. induction sub as [|c sub IH]; intros p; [by rewrite !prefix_nil_l|].
  destruct p as [|d p]; [discriminate|].
  rewrite ?append_cons, !prefix_cons.
  intros [Hcd Hrest]%andb_prop. rewrite Hcd. simpl. by apply IH.
Qed.

Lemma prefix_split a s :
  String.prefix a s = true -> exists t, s = (a ++ t)%string.
Proof.
  revert s. induction a as [|c a IH]; intros s; [by exists s|].
  destruct s as [|d s]; [discriminate|].
  rewrite prefix_cons. intros [Hcd Hrest]%andb_prop.
  apply Ascii.eqb_eq in Hcd as ->. destruct (IH s Hrest) as (t & ->).
  by exists t.
Qed.

Lemma append_nil_r s : (s ++ "")%string = s.
Proof. induction s as [|c s IH]; [reflexivity|]. by rewrite append_cons, IH. Qed.

Lemma append_assoc a b c : ((a ++ b) ++ c)%string = (a ++ (b ++ c))%string.
Proof.
  induction a as [|x a IH]; [reflexivity|]. by rewrite !append_cons, IH.
Qed.

(** A text that occurs in a part of [s] occurs in [s]. *)
Lemma py_contains_app_r sub a t :
  py_contains sub t = true -> py_contains sub (a ++ t)%string = true.
Proof.
  intros Ht. induction a as [|c a IH]; [exact Ht|].
  rewrite append_cons. simpl. rewrite IH. apply orb_true_r.
Qed.

Lemma py_contains_app_l sub p b :
  py_contains sub p = true -> py_contains sub (p ++ b)%string = true.
Proof.
  revert b. induction p as [|c p IH]; intros b Hp.
  - simpl in Hp. rewrite orb_false_r in Hp.
    destruct sub; [|discriminate]. destruct b; reflexivity.
  - simpl in Hp. apply orb_prop in Hp as [Hp|Hp].
    + pose proof (prefix_app_r _ (String c p) b Hp) as Hpb.
      rewrite append_cons in Hpb |- *. cbn [py_contains]. by rewrite Hpb.
    + rewrite append_cons. simpl. rewrite (IH b Hp). apply orb_true_r.
Qed.

Lemma py_contains_longer a b s :
  py_contains (a ++ b)%string s = true -> py_contains a s = true.
Proof.
  induction s as [|c s IH]; cbn [py_contains].
  - rewrite !orb_false_r. apply prefix_app_l.
  - intros [Hp|Hs]%orb_prop.
    + by rewrite (prefix_app_l _ _ _ Hp).
    + rewrite (IH Hs). apply orb_true_r.
Qed.

(** [lstrip] drops whitespace from the front and nothing else. *)
Lemma lstrip_split s :
  exists a, s = (a ++ lstrip s)%string /\ all_space a = true.
Proof.
  induction s as [|c s (a & Hs & Ha)]; [by exists EmptyString|].
  simpl. destruct (is_space c) eqn:Hc.
  - exists (String c a). rewrite append_cons, <- Hs. simpl. by rewrite Hc, Ha.
  - by exists EmptyString.
Qed.

Lemma rstrip_all_space b : all_space b = true -> rstrip b = EmptyString.
Proof.
  induction b as [|c b IH]; [reflexivity|]. simpl.
  intros [Hc Hb]%andb_prop. by rewrite (IH Hb), Hc.
Qed.

(** [rstrip] drops whitespace from the end and nothing else. *)
Lemma rstrip_split s :
  exists b, s = (rstrip s ++ b)%string /\ all_space b = true.
Proof.
  induction s as [|c s (b & Hs & Hb)]; [by exists EmptyString|].
  simpl. destruct (rstrip s) as [|d r] eqn:Hr.
  - destruct (is_space c) eqn:Hc.
    + exists (String c b). rewrite append_nil_l in Hs |- *. simpl.
      subst b. by rewrite Hc, Hb.
    + exists b. rewrite append_nil_l in Hs. subst b.
      rewrite append_cons, append_nil_l. auto.
  - exists b. rewrite append_cons, <- Hs. auto.
Qed.

Lemma lstrip_app_space a t :
  all_space a = true -> lstrip (a ++ t)%string = lstrip t.
Proof.
  induction a as [|c a IH]; [reflexivity|]. rewrite append_cons. simpl.
  intros [Hc Ha]%andb_prop. rewrite Hc. by apply IH.
Qed.

Lemma rstrip_app_space t b :
  all_space b = true -> rstrip (t ++ b)%string = rstrip t.
Proof.
  intros Hb. induction t as [|c t IH]; [by apply rstrip_all_space|].
  rewrite append_cons. simpl. by rewrite IH.
Qed.

Lemma rstrip_end t c :
  is_space c = false ->
  rstrip (t ++ String c EmptyString)%string = (t ++ String c EmptyString)%string.
Proof.
  intros Hc. induction t as [|d t IH]; [simpl; by rewrite Hc|].
  rewrite append_cons. simpl. rewrite IH. by destruct t.
Qed.

Lemma rstrip_idempotent s : rstrip (rstrip s) = rstrip s.
Proof.
  induction s as [|c s IH]; [reflexivity|].
  simpl. destruct (rstrip s) as [|d r] eqn:Hr.
  - destruct (is_space c) eqn:Hc; [reflexivity|]. simpl. by rewrite Hc.
  - change (rstrip (String c (String d r))) with
      (match rstrip (String d r) with
       | EmptyString => if is_space c then EmptyString else String c EmptyString
       | r' => String c r'
       end).
    by rewrite IH.
Qed.

Lemma lstrip_rstrip_lstrip s : lstrip (rstrip (lstrip s)) = rstrip (lstrip s).
Proof.
  assert (Hhead : lstrip s = EmptyString
                  \/ exists c r, lstrip s = String c r /\ is_space c = false).
  { induction s as [|c s IH]; [by left|]. simpl.
    destruct (is_space c) eqn:Hc; [exact IH|]. right. eauto. }
  destruct Hhead as [->|(c & r & -> & Hc)]; [reflexivity|].
  simpl. destruct (rstrip r); rewrite ?Hc; simpl; by rewrite ?Hc.
Qed.

Lemma py_strip_idempotent s : py_strip (py_strip s) = py_strip s.
Proof.
  unfold py_strip. by rewrite lstrip_rstrip_lstrip, rstrip_idempotent.
Qed.

(** What [strip] returns holds no text that the original does not hold. *)
Lemma py_contains_strip sub s :
  py_contains sub (py_strip s) = true -> py_contains sub s = true.
Proof.
  unfold py_strip. intros Hsub.
  destruct (lstrip_split s) as (a & Hs & _).
  destruct (rstrip_split (lstrip s)) as (b & Ht & _).
  rewrite Hs. apply py_contains_app_r. rewrite Ht. by apply py_contains_app_l.
Qed.

(** [replace] changes nothing when [old] does not occur. *)
Lemma py_replace_absent old new s :
  py_contains old s = false -> py_replace old new s = s.
Proof.
  destruct old as [|o old]; [by destruct s|].
  unfold py_replace. induction s as [|c s IH]; [reflexivity|].
  cbn [py_contains]. intros [Hp Hs]%orb_false_elim.
  cbn [replace_from]. rewrite Hp. by rewrite IH.
Qed.

Lemma replace_from_match old new c r :
  String.prefix old (String c r) = true ->
  replace_from old new 0 (String c r)
  = (new ++ replace_from old new (String.length old - 1) r)%string.
Proof. intros Hp. cbn [replace_from]. by rewrite Hp. Qed.

Lemma replace_fence_match r :
  replace_from "```" "" 0 (String "`" (String "`" (String "`" r)))
  = replace_from "```" "" 0 r.
Proof.
  rewrite replace_from_match; [reflexivity|].
  by rewrite !prefix_cons, prefix_nil_l.
Qed.

Lemma replace_from_other old new c r :
  String.prefix old (String c r) = false ->
  replace_from old new 0 (String c r) = String c (replace_from old new 0 r).
Proof. intros Hp. cbn [replace_from]. by rewrite Hp. Qed.

(** Text free of the first character of [old] is copied as it is. *)
Lemma replace_from_skip o old new u t :
  has_char o u = false ->
  replace_from (String o old) new 0 (u ++ t)%string
  = (u ++ replace_from (String o old) new 0 t)%string.
Proof.
  induction u as [|c u IH]; [reflexivity|].
  cbn [has_char]. intros [Hc Hu]%orb_false_elim.
  rewrite !append_cons, replace_from_other by (by rewrite prefix_cons, Hc).
  by rewrite IH.
Qed.

Lemma replace_fence_keeps_no_tick s :
  String.prefix "`" s = false ->
  String.prefix "`" (replace_from "```" "" 0 s) = false.
Proof.
  destruct s as [|c r]; [reflexivity|].
  rewrite prefix_cons, prefix_nil_l, andb_true_r. intros Hc.
  rewrite replace_from_other by (by rewrite prefix_cons, Hc).
  by rewrite prefix_cons, Hc.
Qed.

Lemma replace_fence_keeps_no_two_ticks s :
  String.prefix "``" s = false ->
  String.prefix "``" (replace_from "```" "" 0 s) = false.
Proof.
  destruct s as [|c r]; [done|].
  rewrite prefix_cons. destruct (Ascii.eqb "`" c) eqn:Hc; cbn [andb].
  - intros Hr.
    assert (Hthree : String.prefix "```" (String c r) = false).
    { rewrite prefix_cons, Hc. cbn [andb]. destruct r as [|d r]; [reflexivity|].
      rewrite prefix_cons in Hr |- *. rewrite prefix_nil_l, andb_true_r in Hr.
      by rewrite Hr. }
    rewrite replace_from_other by exact Hthree.
    rewrite prefix_cons, Hc. cbn [andb].
    by apply replace_fence_keeps_no_tick.
  - intros _. rewrite replace_from_other by (by rewrite prefix_cons, Hc).
    by rewrite prefix_cons, Hc.
Qed.

(** Removing the fences leaves no fence behind: a run of backticks keeps
    fewer than three. *)
Lemma replace_fence_leaves_none s :
  py_contains "```" (replace_from "```" "" 0 s) = false.
Proof.
  remember (String.length s) as n eqn:Hn.
  assert (Hle : (String.length s <= n)%nat) by lia. clear Hn.
  revert s Hle. induction n as [|n IH]; intros s Hle.
  - destruct s; [reflexivity | simpl in Hle; lia].
  - destruct s as [|c r]; [reflexivity|]. simpl in Hle.
    destruct (String.prefix "```" (String c r)) eqn:Hp.
    + destruct (prefix_split _ _ Hp) as (t & Ht).
      change ("```" ++ t)%string
        with (String "`" (String "`" (String "`" t))) in Ht.
      injection Ht as -> ->.
      rewrite replace_fence_match. apply IH. simpl in Hle. lia.
    + rewrite replace_from_other by exact Hp.
      cbn [py_contains]. rewrite IH by lia. rewrite orb_false_r.
      rewrite prefix_cons in Hp |- *.
      destruct (Ascii.eqb "`" c); [|reflexivity]. cbn [andb] in Hp |- *.
      by apply replace_fence_keeps_no_two_ticks.
Qed.

(** X6. A cleaned completion holds no code fence, with or without the
    [json] tag, wherever the fences stood in the completion. *)
Theorem clean_leaves_no_fence text :
  py_contains "```" (clean text) = false
  /\ py_contains "```json" (clean text) = false.
Proof.
  assert (Hfence : py_contains "```" (clean text) = false).
  { destruct (py_contains "```" (clean text)) eqn:Hc; [|reflexivity].
    apply py_contains_strip in Hc.
    change (py_replace "```" "" ?x) with (replace_from "```" "" 0 x) in Hc.
    by rewrite replace_fence_leaves_none in Hc. }
  split; [exact Hfence|].
  destruct (py_contains "```json" (clean text)) eqn:Hc; [|reflexivity].
  apply (py_contains_longer "```" "json") in Hc. congruence.
Qed.

(** X7. Cleaning is idempotent, and a cleaned completion has no whitespace
    at either end. *)
Theorem clean_idempotent text :
  clean (clean text) = clean text /\ py_strip (clean text) = clean text.
Proof.
  assert (Hstrip : py_strip (clean text) = clean text)
    by apply py_strip_idempotent.
  split; [|exact Hstrip].
  destruct (clean_leaves_no_fence text) as [Hfence Hjson].
  unfold clean at 1.
  by rewrite Hstrip, (py_replace_absent _ _ _ Hjson),
    (py_replace_absent _ _ _ Hfence), Hstrip.
Qed.

Lemma has_char_no_prefix c old s :
  has_char c s = false -> py_contains (String c old) s = false.
Proof.
  induction s as [|d s IH]; [reflexivity|].
  cbn [has_char py_contains]. intros [Hd Hs]%orb_false_elim.
  by rewrite prefix_cons, Hd, IH.
Qed.

(** X8. A completion without any backtick is only stripped. *)
Theorem clean_of_plain_text text :
  has_char "`" text = false -> clean text = py_strip text.
Proof.
  intros Hplain.
  assert (Hstripped : has_char "`" (py_strip text) = false).
  { destruct (has_char "`" (py_strip text)) eqn:Hc; [|reflexivity].
    assert (Hsub : forall a t, has_char "`" t = true ->
                               has_char "`" (a ++ t)%string = true).
    { intros a t Ht. induction a as [|x a IH]; [exact Ht|].
      rewrite append_cons. simpl. rewrite IH. apply orb_true_r. }
    assert (Hpre : forall t b, has_char "`" t = true ->
                               has_char "`" (t ++ b)%string = true).
    { intros t b. induction t as [|x t IH]; [discriminate|].
      rewrite append_cons. simpl. intros [Hx|Ht]%orb_prop.
      - by rewrite Hx.
      - rewrite (IH Ht). apply orb_true_r. }
    unfold py_strip in Hc.
    destruct (lstrip_split text) as (a & Hs & _).
    destruct (rstrip_split (lstrip text)) as (b & Ht & _).
    rewrite Hs, (Hsub a _ (eq_ind_r (fun t => has_char "`" t = true)
                              (Hpre _ b Hc) Ht)) in Hplain.
    discriminate. }
  unfold clean.
  rewrite (py_replace_absent "```json" _ _ (has_char_no_prefix _ _ _ Hstripped)).
  rewrite (py_replace_absent "```" _ _ (has_char_no_prefix _ _ _ Hstripped)).
  apply py_strip_idempotent.
Qed.

Lemma replace_from_skipping old new k c r :
  replace_from old new (S k) (String c r) = replace_from old new k r.
Proof. reflexivity. Qed.

Ltac eval_prefix :=
  repeat progress (rewrite ?append_cons, ?append_nil_l, ?prefix_cons, ?prefix_nil_l);
  done.

(** Whitespace around a text that starts and ends with other characters
    is all that [strip] removes. *)
Lemma py_strip_framed a c m d b :
  all_space a = true -> all_space b = true ->
  is_space c = false -> is_space d = false ->
  py_strip (a ++ String c (m ++ String d b))%string
  = String c (m ++ String d EmptyString)%string.
Proof.
  intros Ha Hb Hc Hd. unfold py_strip.
  rewrite lstrip_app_space by exact Ha.
  cbn [lstrip]. rewrite Hc.
  replace (String c (m ++ String d b))%string
    with ((String c m ++ String d EmptyString) ++ b)%string
    by (by rewrite append_assoc).
  rewrite rstrip_app_space by exact Hb.
  by rewrite rstrip_end.
Qed.

(** X9. A completion wrapped in a code fence, with the [json] tag or, for
    a body that opens an array, without it, and with any whitespace
    around the fence, is cleaned to its body, stripped. *)
Theorem clean_unwraps_fenced_body a body b :
  all_space a = true ->
  all_space b = true ->
  has_char "`" body = false ->
  clean (a ++ "```json" ++ body ++ "```" ++ b)%string = py_strip body
  /\ (String.prefix "[" body = true ->
      clean (a ++ "```" ++ body ++ "```" ++ b)%string = py_strip body).
Proof.
  intros Ha Hb Hbody.
  assert (Hclose : forall old, replace_from (String "`" old) "" 0 (body ++ "```")%string
                               = (body ++ replace_from (String "`" old) "" 0 "```")%string)
    by (intros old; by apply replace_from_skip).
  split.
  - unfold clean.
    replace (a ++ "```json" ++ body ++ "```" ++ b)%string
      with (a ++ String "`" (("``json" ++ body ++ "``") ++ String "`" b))%string
      by (by rewrite !append_assoc).
    rewrite py_strip_framed by (assumption || reflexivity).
    replace (String "`" (("``json" ++ body ++ "``") ++ String "`" EmptyString))%string
      with (String "`" (String "`" (String "`" ("json" ++ body ++ "```"))))%string
      by (by rewrite !append_assoc).
    unfold py_replace at 2.
    rewrite replace_from_match by eval_prefix.
    change (String.length "```json" - 1)%nat with 6%nat.
    repeat progress (rewrite ?append_cons, ?append_nil_l, ?replace_from_skipping).
    rewrite Hclose.
    change (replace_from "```json" "" 0 "```") with "```".
    unfold py_replace. rewrite Hclose.
    change (replace_from "```" "" 0 "```") with EmptyString.
    by rewrite append_nil_r.
  - intros Harray. destruct (prefix_split _ _ Harray) as (rest & ->).
    change ("[" ++ rest)%string with (String "[" rest) in *.
    cbn [has_char] in Hbody. apply orb_false_elim in Hbody as [_ Hrest].
    unfold clean.
    replace (a ++ "```" ++ String "[" rest ++ "```" ++ b)%string
      with (a ++ String "`" (("``[" ++ rest ++ "``") ++ String "`" b))%string
      by (by rewrite !append_assoc).
    rewrite py_strip_framed by (assumption || reflexivity).
    replace (String "`" (("``[" ++ rest ++ "``") ++ String "`" EmptyString))%string
      with (String "`" (String "`" (String "`" (String "[" (rest ++ "```")))))%string
      by (by rewrite !append_assoc).
    assert (Hrest_close :
              forall old, replace_from (String "`" old) "" 0 (rest ++ "```")%string
                          = (rest ++ replace_from (String "`" old) "" 0 "```")%string)
      by (intros old; by apply replace_from_skip).
    unfold py_replace at 2.
    rewrite !replace_from_other, Hrest_close by eval_prefix.
    change (replace_from "```json" "" 0 "```") with "```".
    unfold py_replace.
    rewrite replace_fence_match, replace_from_other, Hrest_close by eval_prefix.
    change (replace_from "```" "" 0 "```") with EmptyString.
    by rewrite append_nil_r.
Qed.

(** ** The line that confirms at the shortfall gate *)

Lemma lower_char_space c : is_space (lower_char c) = is_space c.
Proof. destruct c as [[] [] [] [] [] [] [] []]; reflexivity. Qed.

Lemma lower_char_y c :
  lower_char c = "y"%char -> c = "y"%char \/ c = "Y"%char.
Proof.
  destruct c as [[] [] [] [] [] [] [] []]; intros H;
    first [ by left | by right | (vm_compute in H; discriminate H) ].
Qed.

Lemma py_lower_app a b :
  py_lower (a ++ b)%string = (py_lower a ++ py_lower b)%string.
Proof.
  induction a as [|c a IH]; [reflexivity|].
  rewrite append_cons. simpl. by rewrite IH.
Qed.

Lemma py_lower_app_inv s x z :
  py_lower s = (x ++ z)%string ->
  exists s1 s2, s = (s1 ++ s2)%string /\ py_lower s1 = x /\ py_lower s2 = z.
Proof.
  revert s. induction x as [|c x IH]; intros s Hs.
  - by exists EmptyString, s.
  - destruct s as [|d s]; [discriminate|].
    rewrite append_cons in Hs. simpl in Hs. injection Hs as Hd Hs.
    destruct (IH s Hs) as (s1 & s2 & -> & Hs1 & Hs2).
    exists (String d s1), s2. simpl. by rewrite Hd, Hs1.
Qed.

Lemma all_space_lower s : all_space (py_lower s) = all_space s.
Proof.
  induction s as [|c s IH]; [reflexivity|].
  simpl. by rewrite lower_char_space, IH.
Qed.

(** X10. At the shortfall gate the run goes on to save exactly when the
    line typed is a single [y] or [Y] with nothing but whitespace around
    it; any other answer, [yes] included, ends the run. *)
Theorem confirmation_is_a_lone_y cfg records w line :
  Z.of_nat (length records) < MIN_RECORDS cfg ->
  (confirm (Ok line) cfg records w).1 = Ok true
  <-> exists a c b,
        line = (a ++ String c b)%string
        /\ all_space a = true
        /\ all_space b = true
        /\ (c = "y"%char \/ c = "Y"%char).
Proof.
  intros Hshort. unfold confirm.
  destruct (Z.ltb_spec (Z.of_nat (length records)) (MIN_RECORDS cfg)) as [_|Hge];
    [|lia].
  unfold bind, input, ret. cbn [fst].
  split.
  - intros [= Hyes]. apply String.eqb_eq in Hyes. unfold py_strip in Hyes.
    destruct (lstrip_split (py_lower line)) as (a' & Hs & Ha').
    destruct (rstrip_split (lstrip (py_lower line))) as (b' & Ht & Hb').
    rewrite Hyes in Ht. rewrite Ht in Hs.
    apply py_lower_app_inv in Hs as (s1 & s2 & -> & Hs1 & Hs2).
    destruct s2 as [|c s2]; [discriminate|].
    rewrite append_cons, append_nil_l in Hs2. simpl in Hs2.
    injection Hs2 as Hc Hb2.
    exists s1, c, s2. split; [reflexivity|].
    split; [by rewrite <- all_space_lower, Hs1|].
    split; [by rewrite <- all_space_lower, Hb2|].
    by apply lower_char_y.
  - intros (a & c & b & -> & Ha & Hb & Hc). f_equal. apply String.eqb_eq.
    rewrite py_lower_app. cbn [py_lower].
    assert (Hlow : lower_char c = "y"%char) by (by destruct Hc as [-> | ->]).
    rewrite Hlow. unfold py_strip.
    rewrite lstrip_app_space by (by rewrite all_space_lower).
    cbn [lstrip]. change (is_space "y") with false. cbn [rstrip].
    by rewrite rstrip_all_space by (by rewrite all_space_lower).
Qed.

(** ** Text: cutting at a separator *)

Lemma length_append a b :
  String.length (a ++ b)%string = (String.length a + String.length b)%nat.
Proof.
  induction a as [|c a IH]; [reflexivity|]. rewrite append_cons. simpl. by rewrite IH.
Qed.

Lemma drop_chars_app a t : drop_chars (String.length a) (a ++ t)%string = t.
Proof.
  induction a as [|c a IH]; [by destruct t|]. rewrite append_cons. exact IH.
Qed.

Lemma cut_unfold sep c r :
  cut sep (String c r)
  = if String.prefix sep (String c r)
    then Some (EmptyString, drop_chars (String.length sep) (String c r))
    else match cut sep r with
         | Some (before, after) => Some (String c before, after)
         | None => None
         end.
Proof. reflexivity. Qed.

(** [cut] finds an occurrence exactly when there is one. *)
Lemma cut_none sep s : cut sep s = None <-> py_contains sep s = false.
Proof.
  induction s as [|c r IH].
  - cbn [cut py_contains]. rewrite orb_false_r.
    destruct (String.prefix sep EmptyString); split; congruence.
  - rewrite cut_unfold. cbn [py_contains].
    destruct (String.prefix sep (String c r)); cbn [orb]; [split; congruence|].
    rewrite <- IH. destruct (cut sep r) as [[before after]|]; split; congruence.
Qed.

(** The two parts [cut] returns frame the separator. *)
Lemma cut_join sep s before after :
  cut sep s = Some (before, after) -> s = (before ++ sep ++ after)%string.
Proof.
  revert before. induction s as [|c r IH]; intros before.
  - destruct sep as [|o sep]; [|discriminate]. by intros [= <- <-].
  - rewrite cut_unfold. destruct (String.prefix sep (String c r)) eqn:Hp.
    + intros [= <- <-]. destruct (prefix_split _ _ Hp) as (t & Ht).
      rewrite Ht. by rewrite drop_chars_app.
    + destruct (cut sep r) as [[b a]|] eqn:Hr; [|discriminate].
      intros [= <- <-]. by rewrite append_cons, <- (IH b).
Qed.

(** The part before the first occurrence holds no occurrence. *)
Lemma cut_before_free sep s before after :
  sep <> EmptyString ->
  cut sep s = Some (before, after) -> py_contains sep before = false.
Proof.
  intros Hsep. revert before. induction s as [|c r IH]; intros before.
  - cbn [cut]. destruct (String.prefix sep EmptyString) eqn:Hp; [|discriminate].
    by destruct sep.
  - rewrite cut_unfold. destruct (String.prefix sep (String c r)) eqn:Hp.
    + intros [= <- _]. by destruct sep.
    + destruct (cut sep r) as [[b a]|] eqn:Hr; [|discriminate].
      intros [= <- <-]. cbn [py_contains]. rewrite (IH b eq_refl), orb_false_r.
      destruct (String.prefix sep (String c b)) eqn:Hb; [|reflexivity].
      apply (prefix_app_r _ _ (sep ++ a)%string) in Hb.
      rewrite append_cons, <- (cut_join _ _ _ _ Hr) in Hb. congruence.
Qed.

Lemma first_piece_free sep s :
  sep <> EmptyString -> py_contains sep (first_piece sep s) = false.
Proof.
  intros Hsep. unfold first_piece.
  destruct (cut sep s) as [[before after]|] eqn:Hcut.
  - by apply (cut_before_free sep s before after).
  - by apply cut_none.
Qed.

Lemma first_piece_prefix sep s :
  exists t, s = (first_piece sep s ++ t)%string.
Proof.
  unfold first_piece. destruct (cut sep s) as [[before after]|] eqn:Hcut.
  - exists (sep ++ after)%string. by apply cut_join.
  - exists EmptyString. by rewrite append_nil_r.
Qed.

(** A piece holds no text that the whole does not hold. *)
Lemma first_piece_keeps_free sub sep s :
  py_contains sub s = false -> py_contains sub (first_piece sep s) = false.
Proof.
  intros Hs. destruct (py_contains sub (first_piece sep s)) eqn:Hp; [|reflexivity].
  destruct (first_piece_prefix sep s) as (t & Ht).
  apply (py_contains_app_l _ _ t) in Hp. rewrite <- Ht in Hp. congruence.
Qed.

Lemma split_at_head fuel sep s :
  (0 < fuel)%nat \/ cut sep s = None ->
  nth_error (split_at fuel sep s) 0 = Some (first_piece sep s).
Proof.
  unfold first_piece. intros [Hfuel|Hnone].
  - destruct fuel; [lia|]. simpl. by destruct (cut sep s) as [[b a]|].
  - destruct fuel; simpl; by rewrite Hnone.
Qed.

(** What [split] gives at index 0. *)
Lemma py_split_first sep s :
  sep <> EmptyString ->
  exists parts, py_split sep s = Ok parts
                /\ py_item parts 0 = Ok (first_piece sep s).
Proof.
  intros Hsep. destruct sep as [|o sep]; [contradiction|].
  eexists. split; [reflexivity|]. unfold py_item.
  rewrite split_at_head; [reflexivity|].
  destruct s as [|c r]; [by right | left; simpl; lia].
Qed.

(** What [split] gives at index 1 when the separator occurs. *)
Lemma py_split_second sep s :
  sep <> EmptyString ->
  py_contains sep s = true ->
  exists parts, py_split sep s = Ok parts
                /\ py_item parts 1 = Ok (first_piece sep (after_first sep s)).
Proof.
  intros Hsep Hin. destruct sep as [|o sep]; [contradiction|].
  eexists. split; [reflexivity|]. unfold py_item, after_first.
  destruct (cut (String o sep) s) as [[before after]|] eqn:Hcut.
  2:{ apply cut_none in Hcut. congruence. }
  pose proof (cut_join _ _ _ _ Hcut) as Hjoin.
  assert (Hlen : (String.length after < String.length s)%nat).
  { rewrite Hjoin, !length_append. simpl. lia. }
  destruct (String.length s) as [|n] eqn:Hs; [lia|].
  cbn [split_at]. rewrite Hcut.
  change (nth_error (before :: ?l) 1) with (nth_error l 0).
  rewrite split_at_head; [reflexivity|].
  destruct after as [|c r]; [right | left; simpl in Hlen; lia].
  reflexivity.
Qed.

(** The number of cuts allowed in [py_split] is never used up: more of
    them give the same pieces. *)
Lemma split_at_enough sep f1 : forall f2 s,
  sep <> EmptyString ->
  (String.length s <= f1)%nat -> (String.length s <= f2)%nat ->
  split_at f1 sep s = split_at f2 sep s.
Proof.
  induction f1 as [|f1 IH]; intros f2 s Hsep H1 H2.
  - destruct s; [|simpl in H1; lia].
    destruct sep; [contradiction|]. by destruct f2.
  - destruct f2 as [|f2].
    + destruct s; [|simpl in H2; lia]. destruct sep; [contradiction|]. reflexivity.
    + cbn [split_at]. destruct (cut sep s) as [[before after]|] eqn:Hcut; [|reflexivity].
      pose proof (cut_join _ _ _ _ Hcut) as Hjoin.
      assert (String.length after < String.length s)%nat.
      { rewrite Hjoin, !length_append. destruct sep; [contradiction|]. simpl. lia. }
      f_equal. apply IH; [assumption | lia | lia].
Qed.

(** ** The chat script: the reply cut out of the decoded output *)

Lemma assistant_reply_run response :
  StrictbotChat.assistant_reply response
  = Ok (if py_contains "<|assistant|>" response
        then py_strip
               (first_piece "<|endoftext|>"
                  (first_piece "<|end|>"
                     (first_piece "<|assistant|>"
                        (after_first "<|assistant|>" response))))
        else StrictbotChat.fallback).
Proof.
  unfold StrictbotChat.assistant_reply.
  destruct (py_contains "<|assistant|>" response) eqn:Hin; [|reflexivity].
  destruct (py_split_second "<|assistant|>" response ltac:(discriminate) Hin)
    as (parts1 & -> & ->).
  destruct (py_split_first "<|end|>"
              (first_piece "<|assistant|>" (after_first "<|assistant|>" response))
              ltac:(discriminate)) as (parts2 & -> & ->).
  destruct (py_split_first "<|endoftext|>"
              (first_piece "<|end|>"
                 (first_piece "<|assistant|>"
                    (after_first "<|assistant|>" response)))
              ltac:(discriminate)) as (parts3 & -> & ->).
  reflexivity.
Qed.

(** X11. Whatever text the model produced, the reply cut out of it is
    defined (no index is out of range), holds none of the three markers
    and has no whitespace at either end; and when the text holds no
    assistant marker the reply is the fixed sentence of the script. *)
Theorem reply_never_shows_a_marker response :
  exists reply,
    StrictbotChat.assistant_reply response = Ok reply
    /\ py_contains "<|assistant|>" reply = false
    /\ py_contains "<|end|>" reply = false
    /\ py_contains "<|endoftext|>" reply = false
    /\ py_strip reply = reply
    /\ (py_contains "<|assistant|>" response = false ->
        reply = "Hmm, something went wrong generating that response.").
Proof.
  eexists. split; [apply assistant_reply_run|].
  destruct (py_contains "<|assistant|>" response); [|by vm_compute].
  set (p1 := first_piece "<|assistant|>" (after_first "<|assistant|>" response)).
  set (p2 := first_piece "<|end|>" p1).
  set (p3 := first_piece "<|endoftext|>" p2).
  assert (H1 : py_contains "<|assistant|>" p1 = false)
    by (by apply first_piece_free).
  assert (H2 : py_contains "<|end|>" p2 = false)
    by (by apply first_piece_free).
  assert (H3 : py_contains "<|endoftext|>" p3 = false)
    by (by apply first_piece_free).
  assert (Hfree : forall sub, py_contains sub p3 = false ->
                              py_contains sub (py_strip p3) = false).
  { intros sub Hsub. destruct (py_contains sub (py_strip p3)) eqn:Hs; [|reflexivity].
    apply py_contains_strip in Hs. congruence. }
  split; [apply Hfree; by do 2 apply first_piece_keeps_free|].
  split; [apply Hfree; by apply first_piece_keeps_free|].
  split; [by apply Hfree|].
  split; [apply py_strip_idempotent | discriminate].
Qed.

Lemma cut_hit sep s :
  String.prefix sep s = true ->
  cut sep s = Some (EmptyString, drop_chars (String.length sep) s).
Proof. intros Hp. destruct s; cbn [cut]; by rewrite Hp. Qed.

Lemma first_piece_hit sep t : first_piece sep (sep ++ t)%string = EmptyString.
Proof.
  unfold first_piece. rewrite cut_hit; [reflexivity|].
  apply prefix_app_r. clear t. induction sep as [|c sep IH]; [reflexivity|].
  by rewrite prefix_cons, Ascii.eqb_refl.
Qed.

Lemma after_first_hit sep t : after_first sep (sep ++ t)%string = t.
Proof.
  unfold after_first. rewrite cut_hit.
  - by rewrite drop_chars_app.
  - apply prefix_app_r. clear t. induction sep as [|c sep IH]; [reflexivity|].
    by rewrite prefix_cons, Ascii.eqb_refl.
Qed.

Lemma first_piece_miss sep c r :
  String.prefix sep (String c r) = false ->
  first_piece sep (String c r) = String c (first_piece sep r).
Proof.
  intros Hp. unfold first_piece. rewrite cut_unfold, Hp.
  by destruct (cut sep r) as [[before after]|].
Qed.

Lemma after_first_miss sep c r :
  String.prefix sep (String c r) = false ->
  after_first sep (String c r) = after_first sep r.
Proof.
  intros Hp. unfold after_first. rewrite cut_unfold, Hp.
  by destruct (cut sep r) as [[before after]|].
Qed.

(** Text free of the first character of the separator is passed over. *)
Lemma first_piece_skip o sep u t :
  has_char o u = false ->
  first_piece (String o sep) (u ++ t)%string
  = (u ++ first_piece (String o sep) t)%string.
Proof.
  induction u as [|c u IH]; [reflexivity|].
  cbn [has_char]. intros [Hc Hu]%orb_false_elim.
  rewrite !append_cons, first_piece_miss by (by rewrite prefix_cons, Hc).
  by rewrite IH.
Qed.

Lemma after_first_skip o sep u t :
  has_char o u = false ->
  after_first (String o sep) (u ++ t)%string = after_first (String o sep) t.
Proof.
  induction u as [|c u IH]; [reflexivity|].
  cbn [has_char]. intros [Hc Hu]%orb_false_elim.
  rewrite !append_cons, after_first_miss by (by rewrite prefix_cons, Hc).
  by apply IH.
Qed.

Lemma has_char_app c a b :
  has_char c (a ++ b)%string = has_char c a || has_char c b.
Proof.
  induction a as [|x a IH]; [reflexivity|].
  rewrite append_cons. simpl. by rewrite IH, orb_assoc.
Qed.

Lemma lstrip_all_space t : all_space t = true -> lstrip t = EmptyString.
Proof.
  induction t as [|c t IH]; [reflexivity|]. simpl.
  intros [Hc Ht]%andb_prop. rewrite Hc. by apply IH.
Qed.

(** Whitespace added at the end does not show after [strip]. *)
Lemma py_strip_app_space s t :
  all_space t = true -> py_strip (s ++ t)%string = py_strip s.
Proof.
  intros Ht. unfold py_strip. induction s as [|c s IH].
  - by rewrite append_nil_l, lstrip_all_space.
  - rewrite append_cons. cbn [lstrip]. destruct (is_space c); [exact IH|].
    by rewrite <- append_cons, rstrip_app_space.
Qed.

(** The decoded output seen as the text before the assistant marker, the
    marker, and what follows the prompt. *)
Lemma prompt_shape user_input rest :
  (StrictbotChat.prompt_of user_input ++ rest)%string
  = String "<"
      (("|user|> " ++ user_input ++ " ")
       ++ String "<" (("|end|>" ++ StrictbotChat.newline)
                      ++ "<|assistant|>" ++ rest))%string.
Proof.
  unfold StrictbotChat.prompt_of. by rewrite !append_assoc.
Qed.

Lemma py_contains_self sub : py_contains sub sub = true.
Proof.
  assert (Hp : String.prefix sub sub = true).
  { induction sub as [|c sub IH]; [reflexivity|]. by rewrite prefix_cons, Ascii.eqb_refl. }
  destruct sub; cbn [py_contains]; by rewrite Hp.
Qed.

Lemma py_contains_middle sub x r :
  py_contains sub (x ++ sub ++ r)%string = true.
Proof.
  apply py_contains_app_r, py_contains_app_l, py_contains_self.
Qed.

(** The text that follows the prompt in an output that starts with the
    prompt, for a question without an angle bracket. *)
Lemma after_prompt user_input rest :
  has_char "<" user_input = false ->
  py_contains "<|assistant|>" (StrictbotChat.prompt_of user_input ++ rest)%string
  = true
  /\ after_first "<|assistant|>" (StrictbotChat.prompt_of user_input ++ rest)%string
     = rest.
Proof.
  intros Hu. split.
  - replace (StrictbotChat.prompt_of user_input ++ rest)%string
      with (("<|user|> " ++ user_input ++ " <|end|>" ++ StrictbotChat.newline)
            ++ "<|assistant|>" ++ rest)%string
      by (unfold StrictbotChat.prompt_of; by rewrite !append_assoc).
    apply py_contains_middle.
  - rewrite prompt_shape.
    rewrite after_first_miss by eval_prefix.
    rewrite after_first_skip by (by rewrite !has_char_app, Hu).
    rewrite after_first_miss by eval_prefix.
    rewrite after_first_skip by reflexivity.
    apply after_first_hit.
Qed.

(** A separator does not reach across a character it does not hold. *)
Lemma prefix_before c sep : forall u r,
  has_char c sep = false ->
  String.prefix sep (u ++ String c r)%string = String.prefix sep u.
Proof.
  induction sep as [|o sep IH]; intros u r Hc; [by rewrite !prefix_nil_l|].
  cbn [has_char] in Hc. apply orb_false_elim in Hc as [Hco Hsep].
  destruct u as [|y u].
  - rewrite append_nil_l, prefix_cons.
    rewrite Ascii.eqb_sym in Hco. by rewrite Hco.
  - rewrite append_cons, !prefix_cons. by rewrite IH.
Qed.

Lemma first_piece_absent sep s :
  py_contains sep s = false -> first_piece sep s = s.
Proof. intros Hs. unfold first_piece. apply cut_none in Hs. by rewrite Hs. Qed.

(** The first piece of a text followed by a character the separator does
    not hold: cut inside the text when the separator occurs there, and
    after the character otherwise. *)
Lemma first_piece_before o sep c b r :
  has_char c (String o sep) = false ->
  first_piece (String o sep) (b ++ String c r)%string
  = if py_contains (String o sep) b then first_piece (String o sep) b
    else (b ++ String c (first_piece (String o sep) r))%string.
Proof.
  intros Hc. induction b as [|x b IH].
  - rewrite append_nil_l. cbn [py_contains orb].
    change (String.prefix (String o sep) EmptyString) with false. cbn [orb].
    apply first_piece_miss. rewrite prefix_cons.
    cbn [has_char] in Hc. apply orb_false_elim in Hc as [Hco _].
    rewrite Ascii.eqb_sym in Hco. by rewrite Hco.
  - rewrite append_cons. cbn [py_contains].
    destruct (String.prefix (String o sep) (String x b)) eqn:Hp; cbn [orb].
    + unfold first_piece. rewrite !cut_unfold, Hp.
      rewrite <- append_cons, prefix_before, Hp by exact Hc. reflexivity.
    + rewrite first_piece_miss
        by (rewrite <- append_cons, prefix_before by exact Hc; exact Hp).
      rewrite IH. destruct (py_contains (String o sep) b).
      * by rewrite first_piece_miss by exact Hp.
      * by rewrite append_cons.
Qed.

(** The text after a separator that occurs before a character it does not
    hold. *)
Lemma after_first_before o sep c b r :
  has_char c (String o sep) = false ->
  py_contains (String o sep) b = true ->
  after_first (String o sep) (b ++ String c r)%string
  = (after_first (String o sep) b ++ String c r)%string.
Proof.
  intros Hc. induction b as [|x b IH]; [discriminate|].
  cbn [py_contains]. rewrite append_cons.
  destruct (String.prefix (String o sep) (String x b)) eqn:Hp; cbn [orb].
  - intros _. destruct (prefix_split _ _ Hp) as (t & Ht).
    rewrite <- append_cons, Ht.
    by rewrite append_assoc, !after_first_hit.
  - intros Hb. rewrite after_first_miss
      by (rewrite <- append_cons, prefix_before by exact Hc; exact Hp).
    rewrite after_first_miss by exact Hp. by apply IH.
Qed.

Section ReplyFacts.

Variable complete : nat -> string -> StrictbotChat.outcome string.

Local Abbreviation generate_response := (StrictbotChat.generate_response complete).

(** X12. When the decoded output is the prompt followed by an answer, then
    nothing more, an end marker, or an end-of-text marker, and neither the
    question nor the answer holds an angle bracket, [generate_response]
    returns the answer, stripped. *)
Theorem generate_response_returns_the_answer n user_input answer tail :
  has_char "<" user_input = false ->
  has_char "<" answer = false ->
  tail = EmptyString
  \/ String.prefix "<|end|>" tail = true
  \/ String.prefix "<|endoftext|>" tail = true ->
  complete n (StrictbotChat.prompt_of user_input)
  = StrictbotChat.Returns
      (StrictbotChat.prompt_of user_input ++ answer ++ tail)%string ->
  generate_response n user_input = StrictbotChat.Returns (py_strip answer).
Proof.
  intros Hu Ha Htail Hcomplete.
  unfold generate_response. rewrite Hcomplete, assistant_reply_run.
  destruct (after_prompt user_input (answer ++ tail)%string Hu) as [-> ->].
  do 2 f_equal.
  assert (Hend : first_piece "<|endoftext|>" (answer ++ EmptyString)%string = answer).
  { rewrite first_piece_skip by exact Ha. by rewrite append_nil_r. }
  rewrite first_piece_skip by exact Ha.
  destruct Htail as [->|[Hp|Hp]].
  - change (first_piece "<|assistant|>" EmptyString) with EmptyString.
    rewrite first_piece_skip by exact Ha.
    change (first_piece "<|end|>" EmptyString) with EmptyString.
    exact Hend.
  - destruct (prefix_split _ _ Hp) as (t & ->).
    change ("<|end|>" ++ t)%string with (String "<" ("|end|>" ++ t)%string).
    rewrite first_piece_miss by eval_prefix.
    rewrite (first_piece_skip "<" "|assistant|>" "|end|>") by reflexivity.
    rewrite (first_piece_skip "<" "|end|>" answer) by exact Ha.
    change (String "<" ("|end|>" ++ first_piece "<|assistant|>" t))%string
      with ("<|end|>" ++ first_piece "<|assistant|>" t)%string.
    rewrite first_piece_hit. exact Hend.
  - destruct (prefix_split _ _ Hp) as (t & ->).
    change ("<|endoftext|>" ++ t)%string
      with (String "<" ("|endoftext|>" ++ t)%string).
    rewrite first_piece_miss by eval_prefix.
    rewrite (first_piece_skip "<" "|assistant|>" "|endoftext|>") by reflexivity.
    rewrite (first_piece_skip "<" "|end|>" answer) by exact Ha.
    rewrite first_piece_miss by eval_prefix.
    rewrite (first_piece_skip "<" "|end|>" "|endoftext|>") by reflexivity.
    rewrite (first_piece_skip "<" "|endoftext|>" answer) by exact Ha.
    change (String "<" ("|endoftext|>" ++ ?z))%string
      with ("<|endoftext|>" ++ z)%string.
    rewrite first_piece_hit. by rewrite append_nil_r.
Qed.

(** X13. A question that itself holds the assistant marker is answered out
    of its own text, whatever the model generated: when the decoded output
    starts with the prompt, the reply is the text of the question after its
    first assistant marker, cut before the next assistant marker, then
    before the first end marker, then before the first end-of-text marker
    that are left in it, and stripped. *)
Theorem reply_is_the_users_own_text n user_input completion :
  py_contains "<|assistant|>" user_input = true ->
  complete n (StrictbotChat.prompt_of user_input)
  = StrictbotChat.Returns (StrictbotChat.prompt_of user_input ++ completion)%string ->
  generate_response n user_input
  = StrictbotChat.Returns
      (py_strip
         (first_piece "<|endoftext|>"
            (first_piece "<|end|>"
               (first_piece "<|assistant|>"
                  (after_first "<|assistant|>" user_input))))).
Proof.
  intros Hu Hcomplete.
  unfold generate_response. rewrite Hcomplete, assistant_reply_run.
  set (b := after_first "<|assistant|>" user_input).
  replace (StrictbotChat.prompt_of user_input ++ completion)%string
    with (String "<"
            ("|user|> "
             ++ user_input
             ++ String " " ("<|end|>" ++ StrictbotChat.newline
                            ++ "<|assistant|>" ++ completion)))%string
    by (unfold StrictbotChat.prompt_of; by rewrite !append_assoc).
  assert (Hin : py_contains "<|assistant|>"
                  (String "<"
                     ("|user|> "
                      ++ user_input
                      ++ String " " ("<|end|>" ++ StrictbotChat.newline
                                     ++ "<|assistant|>" ++ completion)))%string
                = true).
  { apply (py_contains_app_r _ "<|user|> "), py_contains_app_l, Hu. }
  rewrite Hin. f_equal.
  rewrite after_first_miss by eval_prefix.
  rewrite after_first_skip by reflexivity.
  rewrite (after_first_before "<" "|assistant|>" " ") by (reflexivity || exact Hu).
  fold b.
  (* the three cuts, each either inside the question or at the appended text *)
  rewrite (first_piece_before "<" "|assistant|>" " ") by reflexivity.
  destruct (py_contains "<|assistant|>" b) eqn:Hb1; [reflexivity|].
  rewrite (first_piece_absent "<|assistant|>" b) by exact Hb1.
  change ("<|end|>" ++ StrictbotChat.newline ++ "<|assistant|>" ++ completion)%string
    with (String "<" (("|end|>" ++ StrictbotChat.newline)
                      ++ "<|assistant|>" ++ completion))%string.
  rewrite first_piece_miss by eval_prefix.
  rewrite (first_piece_skip "<" "|assistant|>" ("|end|>" ++ StrictbotChat.newline))
    by reflexivity.
  rewrite first_piece_hit.
  change (String "<" (("|end|>" ++ StrictbotChat.newline) ++ ""))%string
    with ("<|end|>" ++ StrictbotChat.newline)%string.
  rewrite (first_piece_before "<" "|end|>" " ") by reflexivity.
  destruct (py_contains "<|end|>" b) eqn:Hb2; [reflexivity|].
  rewrite (first_piece_absent "<|end|>" b) by exact Hb2.
  rewrite first_piece_hit.
  rewrite (first_piece_before "<" "|endoftext|>" " ") by reflexivity.
  destruct (py_contains "<|endoftext|>" b) eqn:Hb3; [reflexivity|].
  rewrite (first_piece_absent "<|endoftext|>" b) by exact Hb3.
  change (first_piece "<|endoftext|>" EmptyString) with EmptyString.
  by apply py_strip_app_space.
Qed.

End ReplyFacts.

(** ** The chat script: the loop *)

Section ChatFacts.

Import StrictbotChat.

Variable stdin : nat -> outcome string.
Variable complete : nat -> string -> outcome string.
Variable load : outcome unit.

Local Abbreviation turn := (StrictbotChat.turn stdin complete).
Local Abbreviation chat_loop := (StrictbotChat.chat_loop stdin complete).
Local Abbreviation chat_main := (StrictbotChat.main stdin complete load).

(** Each pass reads one line; it asks the model at most once, and only for
    a line that is neither blank nor a quit word. *)
Lemma turn_effect s :
  exists s' st,
    turn s = (s', st)
    /\ inputs_read s' = S (inputs_read s)
    /\ (prompts s' = prompts s
        \/ exists line,
             stdin (inputs_read s) = Returns line
             /\ prompts s' = prompts s ++ [prompt_of (py_strip line)]
             /\ py_strip line <> EmptyString
             /\ is_quit (py_strip line) = false)
    /\ (st = Break ->
        quits_at stdin (inputs_read s)
        \/ exists line,
             stdin (inputs_read s) = Returns line
             /\ complete (length (prompts s)) (prompt_of (py_strip line))
                = Raises KeyboardInterrupt).
Proof.
  unfold turn, quits_at.
  destruct (stdin (inputs_read s)) as [line|[|e]] eqn:Hin.
  - destruct (is_quit (py_strip line)) eqn:Hquit.
    + eexists _, _. split; [reflexivity|]. split; [reflexivity|].
      split; [by left|]. intros _. left. right. eauto.
    + destruct (String.eqb_spec (py_strip line) EmptyString) as [Hblank|Hfull].
      * eexists _, _. split; [reflexivity|]. split; [reflexivity|].
        split; [by left | discriminate].
      * unfold generate_response.
        destruct (complete (length (prompts s)) (prompt_of (py_strip line)))
          as [response|[|e]] eqn:Hgen.
        -- rewrite assistant_reply_run.
           eexists _, _. split; [reflexivity|]. split; [reflexivity|].
           split; [right; eauto | discriminate].
        -- eexists _, _. split; [reflexivity|]. split; [reflexivity|].
           split; [right; eauto|]. intros _. right. eauto.
        -- eexists _, _. split; [reflexivity|]. split; [reflexivity|].
           split; [right; eauto | discriminate].
  - eexists _, _. split; [reflexivity|]. split; [reflexivity|].
    split; [by left|]. intros _. by left; left.
  - eexists _, _. split; [reflexivity|]. split; [reflexivity|].
    split; [by left | discriminate].
Qed.

(** X14. Once the input is at its end the chat never ends: every call of
    [input] raises [EOFError], which the loop reports and survives, so
    each further pass reads, reports and goes on, asking the model
    nothing. *)
Theorem end_of_input_never_ends_the_chat s :
  (forall n, (inputs_read s <= n)%nat -> stdin n = Raises (Exception EOFError)) ->
  forall turns,
    chat_loop turns s
    = ({| inputs_read := inputs_read s + turns;
          prompts := prompts s;
          printed := printed s ++ repeat (ErrorReport EOFError) turns |},
       Continue).
Proof.
  intros Heof turns. revert s Heof.
  induction turns as [|turns IH]; intros s Heof.
  - destruct s. simpl. by rewrite Nat.add_0_r, app_nil_r.
  - cbn [StrictbotChat.chat_loop]. unfold turn.
    rewrite (Heof (inputs_read s)) by lia.
    rewrite IH by (intros n Hn; apply Heof; simpl in Hn; lia).
    simpl. do 2 f_equal; [lia | by rewrite <- app_assoc].
Qed.

(** X15. The chat ends only on the line last read: by a quit word, by an
    interrupt at the prompt, or by an interrupt while the model answers
    that line.  No exception ends it. *)
Theorem only_quit_or_interrupt_ends_the_chat turns : forall s s',
  chat_loop turns s = (s', Break) ->
  exists k,
    (inputs_read s <= k)%nat
    /\ inputs_read s' = S k
    /\ (quits_at stdin k
        \/ exists line n,
             stdin k = Returns line
             /\ complete n (prompt_of (py_strip line)) = Raises KeyboardInterrupt).
Proof.
  induction turns as [|turns IH]; intros s s' Hrun; [discriminate|].
  cbn [StrictbotChat.chat_loop] in Hrun.
  destruct (turn_effect s) as (s1 & st & Hturn & Hread & _ & Hbreak).
  rewrite Hturn in Hrun. destruct st.
  - destruct (IH s1 s' Hrun) as (k & Hk & Hs' & Hcause).
    exists k. split; [lia | auto].
  - injection Hrun as <-. exists (inputs_read s).
    split; [lia|]. split; [exact Hread|].
    destruct (Hbreak eq_refl) as [Hquit|(line & Hline & Hgen)]; [by left|].
    right. eauto.
Qed.

(** X16. Only real questions reach the model: every prompt made during
    the chat comes from a line that was read, stripped, and is neither
    blank nor a quit word, and there is at most one prompt per line
    read. *)
Theorem only_real_questions_reach_the_model turns : forall s s' st,
  chat_loop turns s = (s', st) ->
  exists new,
    prompts s' = prompts s ++ new
    /\ Forall (asked_between stdin s s') new
    /\ (inputs_read s <= inputs_read s')%nat
    /\ (length new <= inputs_read s' - inputs_read s)%nat.
Proof.
  induction turns as [|turns IH]; intros s s' st Hrun.
  - injection Hrun as <- <-. exists []. rewrite app_nil_r.
    split; [reflexivity|]. split; [constructor|]. simpl. lia.
  - cbn [StrictbotChat.chat_loop] in Hrun.
    destruct (turn_effect s) as (s1 & st1 & Hturn & Hread & Hprompts & _).
    rewrite Hturn in Hrun.
    assert (Hrest : exists new1,
              prompts s' = prompts s1 ++ new1
              /\ Forall (asked_between stdin s1 s') new1
              /\ (inputs_read s1 <= inputs_read s')%nat
              /\ (length new1 <= inputs_read s' - inputs_read s1)%nat).
    { destruct st1; [by apply (IH s1 s' st)|].
      injection Hrun as <- <-. exists []. rewrite app_nil_r.
      split; [reflexivity|]. split; [constructor|]. simpl. lia. }
    destruct Hrest as (new1 & Hnew1 & Hasked1 & Hle1 & Hlen1).
    assert (Hwiden : Forall (asked_between stdin s s') new1).
    { eapply Forall_impl; [exact Hasked1|].
      intros p (k & line & Hk & Hrest). exists k, line. split; [lia | exact Hrest]. }
    destruct Hprompts as [Hsame|(line & Hline & Hadd & Hfull & Hquit)].
    + exists new1. rewrite Hnew1, Hsame.
      split; [reflexivity|]. split; [exact Hwiden|]. lia.
    + exists (prompt_of (py_strip line) :: new1). rewrite Hnew1, Hadd, <- app_assoc.
      split; [reflexivity|]. split; [|simpl; lia].
      constructor; [|exact Hwiden].
      exists (inputs_read s), line. split; [lia | auto].
Qed.

Lemma quit_ends_the_loop k turns : forall s,
  quits_at stdin k ->
  (inputs_read s <= k)%nat ->
  (k - inputs_read s < turns)%nat ->
  exists s', chat_loop turns s = (s', Break) /\ (inputs_read s' <= S k)%nat.
Proof.
  induction turns as [|turns IH]; intros s Hquit Hle Hlt; [lia|].
  cbn [StrictbotChat.chat_loop].
  destruct (decide (inputs_read s = k)) as [Heq|Hne].
  - unfold turn. rewrite Heq.
    destruct Hquit as [->|(line & -> & ->)]; eexists; split;
      try reflexivity; simpl; lia.
  - destruct (turn_effect s) as (s1 & st & Hturn & Hread & _).
    rewrite Hturn. destruct st.
    + apply IH; [exact Hquit | lia | lia].
    + exists s1. split; [reflexivity | lia].
Qed.

(** X17. A quit word (or an interrupt at the prompt) ends the chat: when
    the model has loaded and the [k]-th line read is one, [main] has ended
    after [k + 1] passes at the latest, having read no line past that
    one. *)
Theorem quit_word_ends_the_chat k turns :
  load = Returns tt ->
  quits_at stdin k ->
  (k < turns)%nat ->
  exists s', chat_main turns = (s', Ended) /\ (inputs_read s' <= S k)%nat.
Proof.
  intros Hload Hquit Hturns. unfold chat_main. rewrite Hload.
  destruct (quit_ends_the_loop k turns
              (print Loaded {| inputs_read := 0; prompts := []; printed := [Banner] |})
              Hquit ltac:(simpl; lia) ltac:(simpl; lia)) as (s' & -> & Hread).
  by exists s'.
Qed.

End ChatFacts.

(** ** Further properties on sample runs *)

Lemma corpus_grows_by_appending_witness :
  exists acc_j w_j acc_k w_k,
    loop_prefix (flaky_client 4 (sample_batch 2)) json_loads (fun _ => 0%nat)
      default_config 1 initial_world = (Ok acc_j, w_j)
    /\ loop_prefix (flaky_client 4 (sample_batch 2)) json_loads (fun _ => 0%nat)
         default_config 3 initial_world = (Ok acc_k, w_k)
    /\ all_records acc_j `prefix_of` all_records acc_k.
Proof.
  apply (corpus_grows_by_appending (flaky_client 4 (sample_batch 2)) json_loads
           (fun _ => 0%nat) default_config initial_world 1 3); by_evaluation.
Defined.

Lemma corpus_is_the_successful_batches_witness :
  exists acc w' returned,
    accumulate (flaky_client 4 (sample_batch 2)) json_loads (fun _ => 0%nat)
      default_config initial_world = (Ok acc, w')
    /\ length returned = Z.to_nat (3000 / 10)
    /\ (forall k batch,
          returned !! k = Some batch ->
          exists acc_k w_k w2 acc',
            loop_prefix (flaky_client 4 (sample_batch 2)) json_loads
              (fun _ => 0%nat) default_config k initial_world = (Ok acc_k, w_k)
            /\ generate_batch (flaky_client 4 (sample_batch 2)) json_loads
                 default_config (pass_focus (fun _ => 0%nat) w_k)
                 default_max_retries
                 (pass_request (fun _ => 0%nat) acc_k w_k) = (Ok batch, w2)
            /\ merge acc_k batch = Ok acc'
            /\ (loop_prefix (flaky_client 4 (sample_batch 2)) json_loads
                  (fun _ => 0%nat) default_config (S k) initial_world).1
               = Ok acc')
    /\ all_records acc = accepted_records returned
    /\ successful_batches acc
       = Z.of_nat (length (List.filter is_accepted returned))
    /\ failed_batches acc
       = Z.of_nat (length (List.filter (fun b => negb (is_accepted b)) returned))
    /\ successful_batches acc <= Z.of_nat (length (all_records acc))
    /\ (successful_batches acc = 0 -> all_records acc = []).
Proof.
  apply (corpus_is_the_successful_batches (flaky_client 4 (sample_batch 2))
           json_loads (fun _ => 0%nat) default_config initial_world);
    by_evaluation.
Defined.

Lemma loop_request_budget_witness :
  exists acc w',
    accumulate dead_client json_loads (fun _ => 0%nat) default_config
      initial_world = (Ok acc, w')
    /\ (0 + 300 <= api_calls w' <= 0 + 3 * 300)%nat.
Proof.
  apply (loop_request_budget dead_client json_loads (fun _ => 0%nat)
           default_config initial_world); by_evaluation.
Defined.

Lemma main_saves_both_documents_witness :
  exists sft_dataset w',
    main (flaky_client 0 (sample_batch 1)) json_loads (fun _ => 0%nat) (Ok " Y ")
      {| NUM_RECORDS_TO_GENERATE := 2; BATCH_SIZE := 1; RPM_LIMIT := 5;
         MIN_RECORDS := 3000 |} initial_world = (Ok tt, w')
    /\ files w' !! OUTPUT_SFT_FILE = Some (PList sft_dataset)
    /\ length sft_dataset = 2%nat.
Proof.
  eassert (Hrun : accumulate (flaky_client 0 (sample_batch 1)) json_loads
                    (fun _ => 0%nat)
                    {| NUM_RECORDS_TO_GENERATE := 2; BATCH_SIZE := 1;
                       RPM_LIMIT := 5; MIN_RECORDS := 3000 |} initial_world
                  = (Ok _, _))
    by (vm_compute; reflexivity).
  destruct (main_saves_both_documents _ _ _ (Ok " Y ") _ _ _ _ Hrun)
    as (sft_dataset & w' & Hmain & _ & Hsft & Hlen & _).
  - repeat constructor.
  - right. exists " Y ". split; reflexivity.
  - exists sft_dataset, w'. auto.
Defined.

Lemma clean_of_plain_text_witness :
  clean " [1, 2] " = py_strip " [1, 2] ".
Proof. apply clean_of_plain_text. reflexivity. Defined.

Lemma clean_unwraps_fenced_body_witness :
  clean (" " ++ "```json" ++ (StrictbotChat.newline ++ "[1, 2]") ++ "```" ++ " ")%string
  = py_strip (StrictbotChat.newline ++ "[1, 2]")%string
  /\ (String.prefix "[" "[1, 2] " = true ->
      clean ("" ++ "```" ++ "[1, 2] " ++ "```" ++ " ")%string = py_strip "[1, 2] ").
Proof.
  split.
  - exact (proj1 (clean_unwraps_fenced_body " "
                    (StrictbotChat.newline ++ "[1, 2]") " "
                    eq_refl eq_refl eq_refl)).
  - exact (proj2 (clean_unwraps_fenced_body "" "[1, 2] " " "
                    eq_refl eq_refl eq_refl)).
Defined.

Lemma confirmation_is_a_lone_y_witness :
  (confirm (Ok " Y ") default_config [] initial_world).1 = Ok true
  <-> exists a c b,
        " Y " = (a ++ String c b)%string
        /\ all_space a = true
        /\ all_space b = true
        /\ (c = "y"%char \/ c = "Y"%char).
Proof. apply confirmation_is_a_lone_y. by_evaluation. Defined.

Lemma generate_response_returns_the_answer_witness :
  StrictbotChat.generate_response (echo_model " Paris. <|end|>") 0
    "What is the capital of France?"
  = StrictbotChat.Returns (py_strip " Paris. ").
Proof.
  apply (generate_response_returns_the_answer (echo_model " Paris. <|end|>") 0
           "What is the capital of France?" " Paris. " "<|end|>").
  - reflexivity.
  - reflexivity.
  - right. left. reflexivity.
  - reflexivity.
Defined.

Lemma reply_is_the_users_own_text_witness :
  StrictbotChat.generate_response (echo_model " No.<|end|>") 0
    "Say hi <|assistant|> I agree <|end|> with you"
  = StrictbotChat.Returns "I agree".
Proof.
  apply (reply_is_the_users_own_text (echo_model " No.<|end|>") 0
           "Say hi <|assistant|> I agree <|end|> with you" " No.<|end|>");
    reflexivity.
Defined.

Lemma end_of_input_never_ends_the_chat_witness :
  StrictbotChat.chat_loop (typed []) (echo_model "") 4 chat_start
  = ({| StrictbotChat.inputs_read := 0 + 4;
        StrictbotChat.prompts := [];
        StrictbotChat.printed :=
          [] ++ repeat (StrictbotChat.ErrorReport EOFError) 4 |},
     StrictbotChat.Continue).
Proof.
  apply (end_of_input_never_ends_the_chat (typed []) (echo_model "") chat_start).
  intros n _. by destruct n.
Defined.

Lemma only_quit_or_interrupt_ends_the_chat_witness :
  exists s' k,
    StrictbotChat.chat_loop (typed ["hello"; " QUIT "]) (echo_model " Hi.") 5
      chat_start = (s', StrictbotChat.Break)
    /\ StrictbotChat.inputs_read s' = S k
    /\ (quits_at (typed ["hello"; " QUIT "]) k
        \/ exists line n,
             typed ["hello"; " QUIT "] k = StrictbotChat.Returns line
             /\ echo_model " Hi." n (StrictbotChat.prompt_of (py_strip line))
                = StrictbotChat.Raises StrictbotChat.KeyboardInterrupt).
Proof.
  eassert (Hrun : StrictbotChat.chat_loop (typed ["hello"; " QUIT "])
                    (echo_model " Hi.") 5 chat_start
                  = (_, StrictbotChat.Break))
    by (vm_compute; reflexivity).
  destruct (only_quit_or_interrupt_ends_the_chat _ _ _ _ _ Hrun)
    as (k & _ & Hread & Hcause).
  eexists _, k. split; [exact Hrun|]. split; [exact Hread | exact Hcause].
Defined.

Lemma only_real_questions_reach_the_model_witness :
  exists s' new,
    StrictbotChat.chat_loop (typed ["hello"; "  "; " QUIT "]) (echo_model " Hi.") 5
      chat_start = (s', StrictbotChat.Break)
    /\ StrictbotChat.prompts s' = [] ++ new
    /\ Forall (asked_between (typed ["hello"; "  "; " QUIT "]) chat_start s') new
    /\ (length new <= StrictbotChat.inputs_read s' - 0)%nat.
Proof.
  eassert (Hrun : StrictbotChat.chat_loop (typed ["hello"; "  "; " QUIT "])
                    (echo_model " Hi.") 5 chat_start
                  = (_, StrictbotChat.Break))
    by (vm_compute; reflexivity).
  destruct (only_real_questions_reach_the_model _ _ _ _ _ _ Hrun)
    as (new & Hnew & Hasked & _ & Hlen).
  eexists _, new. split; [exact Hrun|]. split; [exact Hnew|].
  split; [exact Hasked | exact Hlen].
Defined.

Lemma quit_word_ends_the_chat_witness :
  exists s',
    StrictbotChat.main (typed ["hello"; " QUIT "]) (echo_model " Hi.")
      (StrictbotChat.Returns tt) 5 = (s', StrictbotChat.Ended)
    /\ (StrictbotChat.inputs_read s' <= 2)%nat.
Proof.
  apply (quit_word_ends_the_chat (typed ["hello"; " QUIT "]) (echo_model " Hi.")
           (StrictbotChat.Returns tt) 1 5).
  - reflexivity.
  - right. exists " QUIT ". split; reflexivity.
  - lia.
Defined.
